(** * ClassiCube window backends: event queue, native translator, terminal codec

    A shallow embedding of [src/Window_Haiku.cpp].  The file holds two
    backends: the Haiku (BeOS toolkit) window backend, whose toolkit thread
    feeds a mutex-protected event queue that the game thread drains, and the
    terminal backend, which decodes SGR mouse reports / key bytes and draws
    the framebuffer with half-block cells.

    Conventions.
    - A C [int] is a [Z].  The counters involved ([events_count], loop
      indices) are bounded by the size of allocated memory.  Where the code
      computes with a number that comes from outside (a message field, the
      digits of a mouse report), the result is reduced to 32 bits with
      [int32], as the compiled code does; the results about such a number
      say in which range it is read as written.
    - Bytes ([char], [cc_uint8]) are [Z] in [0, 256).
    - A C array is a [list]; [a[i] = v] is stdpp's [<[i:=v]> a] and [a[i]]
      is [a !!! i].  Every write made by the code is proved to be in range.
    - Every critical section of the queue is guarded by [events_mutex], so a
      push or a pull is atomic; the model runs them one after another and
      leaves [Mutex_Lock]/[Mutex_Unlock] out. *)

From Stdlib Require Import ZArith Lia List Ascii String DecimalString.
From stdpp Require Import base list gmap strings.

Local Open Scope Z_scope.

(** A C character literal, as the [int] it denotes. *)
Definition chr (c : ascii) : Z := Z.of_nat (nat_of_ascii c).
Arguments chr c%_char.

(** The range of [int] and of [long] (LP64), and the [int] that holds the
    low 32 bits of a number (two's complement): what an [int] addition or
    multiplication leaves, and what a conversion to [int] keeps. *)
Definition INT_MIN : Z := - 2 ^ 31.
Definition INT_MAX : Z := 2 ^ 31 - 1.
Definition LONG_MIN : Z := - 2 ^ 63.
Definition LONG_MAX : Z := 2 ^ 63 - 1.
Definition int32 (v : Z) : Z := (v + 2 ^ 31) mod 2 ^ 32 - 2 ^ 31.

(** ** Haiku backend *)
Module Haiku.

(** [union CCEventValue { float f32; int i32; void* ptr; }].  The member
    last written is kept as a tag; a [float] is its IEEE-754 binary32 bit
    pattern.  [ptr] is never written by this file. *)
Inductive CCEventValue : Type :=
| f32 (bits : Z)
| i32 (i : Z).

(** Reading member [.i32]: a value written through [.f32] is seen as the
    two's-complement reading of its bit pattern. *)
Definition get_i32 (v : CCEventValue) : Z :=
  match v with
  | i32 i => i
  | f32 b => if b <? 2 ^ 31 then b else b - 2 ^ 32
  end.

(** Reading member [.f32] (as a bit pattern). *)
Definition get_f32 (v : CCEventValue) : Z :=
  match v with
  | f32 b => b
  | i32 i => i mod 2 ^ 32
  end.

(** [enum CCEventType], with the values the C enumeration assigns. *)
Definition CC_NONE         : Z := 0.
Definition CC_MOUSE_SCROLL : Z := 1.
Definition CC_MOUSE_DOWN   : Z := 2.
Definition CC_MOUSE_UP     : Z := 3.
Definition CC_MOUSE_MOVE   : Z := 4.
Definition CC_KEY_DOWN     : Z := 5.
Definition CC_KEY_UP       : Z := 6.
Definition CC_KEY_INPUT    : Z := 7.
Definition CC_WIN_RESIZED  : Z := 8.
Definition CC_WIN_FOCUS    : Z := 9.
Definition CC_WIN_REDRAW   : Z := 10.
Definition CC_WIN_QUIT     : Z := 11.

(** [struct CCEvent { int type; CCEventValue v1, v2; }] *)
Record CCEvent : Type := mkCCEvent {
  type : Z;
  v1 : CCEventValue;
  v2 : CCEventValue
}.

(** [CCEvent event = { 0 };] : every member zeroed. *)
Definition CCEvent_zero : CCEvent :=
  {| type := 0; v1 := f32 0; v2 := f32 0 |}.

#[global] Instance CCEvent_inhabited : Inhabited CCEvent :=
  populate CCEvent_zero.

#[global] Instance CCEventValue_eq_dec : EqDecision CCEventValue.
Proof. solve_decision. Defined.

#[global] Instance CCEvent_eq_dec : EqDecision CCEvent.
Proof. solve_decision. Defined.

Definition EVENTS_DEFAULT_MAX : Z := 20.

(** The queue globals: [events_count], [events_capacity] and the storage
    [events_list] points to (initially the static [events_default]). *)
Record Events : Type := mkEvents {
  events_count : Z;
  events_capacity : Z;
  events_list : list CCEvent
}.

(** [static CCEvent events_default[EVENTS_DEFAULT_MAX]] : static storage,
    zero-initialised. *)
Definition events_default : list CCEvent :=
  replicate (Z.to_nat EVENTS_DEFAULT_MAX) CCEvent_zero.

(** [Events_Init]; [events_count] is a zero-initialised static. *)
Definition Events_Init : Events :=
  {| events_count := 0;
     events_capacity := EVENTS_DEFAULT_MAX;
     events_list := events_default |}.

(** *** Toolkit messages *)

(** The [what] codes of [BMessage] this file switches on (Haiku's AppDefs.h
    four-character constants); any other code is [B_OTHER]. *)
Inductive MessageCode : Type :=
| B_QUIT_REQUESTED | B_REFS_RECEIVED
| B_KEY_DOWN | B_UNMAPPED_KEY_DOWN | B_KEY_UP | B_UNMAPPED_KEY_UP
| B_MOUSE_DOWN | B_MOUSE_UP | B_MOUSE_MOVED | B_MOUSE_WHEEL_CHANGED
| B_WINDOW_ACTIVATED | B_WINDOW_MOVED | B_WINDOW_RESIZED
| _UPDATE_
| B_OTHER (code : Z).

(** A typed field of a [BMessage]; floats are binary32 bit patterns, a
    string is its bytes without the terminating NUL. *)
Inductive BData : Type :=
| BInt32 (v : Z)
| BString (bytes : list Z)
| BPoint (x y : Z)
| BFloat (bits : Z)
| BBool (b : bool)
| BRef (path : list Z).

Record BMessage : Type := mkBMessage {
  what : MessageCode;
  data : gmap string BData
}.

(** [msg->FindXxx(name, &out) == B_OK] : [Some out] when the message has a
    field [name] of that type, [None] for every other status. *)
Definition FindInt32 (name : string) (msg : BMessage) : option Z :=
  match data msg !! name with Some (BInt32 v) => Some v | _ => None end.
Definition FindString (name : string) (msg : BMessage) : option (list Z) :=
  match data msg !! name with Some (BString b) => Some b | _ => None end.
Definition FindPoint (name : string) (msg : BMessage) : option (Z * Z) :=
  match data msg !! name with Some (BPoint x y) => Some (x, y) | _ => None end.
Definition FindFloat (name : string) (msg : BMessage) : option Z :=
  match data msg !! name with Some (BFloat f) => Some f | _ => None end.
Definition FindBool (name : string) (msg : BMessage) : option bool :=
  match data msg !! name with Some (BBool b) => Some b | _ => None end.
Definition FindRef (name : string) (msg : BMessage) : option (list Z) :=
  match data msg !! name with Some (BRef p) => Some p | _ => None end.

Arguments FindInt32 name%_string msg.
Arguments FindString name%_string msg.
Arguments FindPoint name%_string msg.
Arguments FindFloat name%_string msg.
Arguments FindBool name%_string msg.
Arguments FindRef name%_string msg.

(** Haiku's InterfaceDefs.h mouse button masks. *)
Definition B_PRIMARY_MOUSE_BUTTON   : Z := 1.
Definition B_SECONDARY_MOUSE_BUTTON : Z := 2.
Definition B_TERTIARY_MOUSE_BUTTON  : Z := 4.

(** Unary minus on a [float]: the sign bit of the binary32 pattern flips. *)
Definition f32_neg (bits : Z) : Z := Z.lxor bits (2 ^ 31).

(** The names of [enum InputButtons] (Input.h, not under src/) that this
    backend uses. *)
Inductive InputButtons : Type :=
| KEY_ESCAPE | KEY_F1 | KEY_F2 | KEY_F3 | KEY_F4 | KEY_F5 | KEY_F6
| KEY_F7 | KEY_F8 | KEY_F9 | KEY_F10 | KEY_F11 | KEY_F12
| KEY_PRINTSCREEN | KEY_SCROLLLOCK | KEY_PAUSE | KEY_TILDE
| KEY_MINUS | KEY_EQUALS | KEY_BACKSPACE | KEY_INSERT
| KEY_HOME | KEY_PAGEUP | KEY_NUMLOCK
| KEY_KP_DIVIDE | KEY_KP_MULTIPLY | KEY_KP_MINUS | KEY_TAB
| KEY_LBRACKET | KEY_RBRACKET | KEY_BACKSLASH
| KEY_DELETE | KEY_END | KEY_PAGEDOWN
| KEY_KP7 | KEY_KP8 | KEY_KP9 | KEY_KP_PLUS | KEY_CAPSLOCK
| KEY_SEMICOLON | KEY_QUOTE | KEY_ENTER
| KEY_KP4 | KEY_KP5 | KEY_KP6 | KEY_LSHIFT
| KEY_COMMA | KEY_PERIOD | KEY_SLASH | KEY_RSHIFT | KEY_UP
| KEY_KP1 | KEY_KP2 | KEY_KP3 | KEY_KP_ENTER
| KEY_LCTRL | KEY_LALT | KEY_SPACE | KEY_RALT
| KEY_RCTRL | KEY_LEFT | KEY_DOWN | KEY_RIGHT
| KEY_KP0 | KEY_KP_DECIMAL | KEY_LWIN | KEY_RWIN
| KEY_LMOUSE | KEY_RMOUSE | KEY_MMOUSE.

(** What the toolkit thread does besides queueing records. *)
Inductive ToolkitCall : Type :=
| Platform_LogConst (s : string)
| CallOpenFileCallback (path : list Z)
| BApplication_DispatchMessage (msg : BMessage)
| BWindow_DispatchMessage (msg : BMessage).

Arguments Platform_LogConst s%_string.

(** The globals the toolkit thread works on: the queue, the shadow button
    mask, and the calls it has made so far (oldest first). *)
Record Toolkit : Type := mkToolkit {
  events : Events;
  last_buttons : Z;
  calls : list ToolkitCall
}.

(** *** Game thread *)

Inductive WindowEvent : Type := Resized | FocusChanged | RedrawNeeded | Closing.

(** What [Window_ProcessEvents] calls into the game. *)
Inductive Call : Type :=
| Mouse_ScrollWheel (delta : Z)
| Input_SetPressed (key : Z)
| Input_SetReleased (key : Z)
| Pointer_SetPosition (idx x y : Z)
| Event_RaiseInt_Press (cp : Z)
| Event_RaiseVoid (ev : WindowEvent)
| Platform_Log2_UnknownKey (raw : Z).

(** [WindowInfo] : the fields the pump writes.  [Focused] and [Exists]
    are [cc_bool] (an unsigned byte). *)
Record WindowInfo_t : Type := mkWindowInfo {
  Width : Z;
  Height : Z;
  Focused : Z;
  Exists : bool
}.

(** *** Sample values, to run the results on *)

(** A numbering of the buttons, a decoder for one-byte (ASCII) strings and
    a few records and messages. *)
Definition sample_buttons (k : InputButtons) : Z :=
  match k with
  | KEY_LMOUSE => 1 | KEY_RMOUSE => 2 | KEY_MMOUSE => 3
  | KEY_ESCAPE => 4 | _ => 5
  end.

Definition sample_decoder (bytes : list Z) : option Z :=
  match bytes with
  | [b] => if (0 <? b) && (b <? 128) then Some b else None
  | _ => None
  end.

Definition sample_records (n : nat) : list CCEvent :=
  map (fun i => {| type := CC_KEY_DOWN; v1 := i32 (Z.of_nat i); v2 := f32 0 |})
      (seq 0 n).

Definition Toolkit_Init : Toolkit :=
  {| events := Events_Init; last_buttons := 0; calls := [] |}.

Definition sample_key_down : BMessage :=
  {| what := B_KEY_DOWN;
     data := {[ "key"%string := BInt32 60; "bytes"%string := BString [97] ]} |}.

Definition sample_window : WindowInfo_t := mkWindowInfo 640 480 1 true.

(** A wheel message whose delta is 1.0f. *)
Definition sample_wheel : BMessage :=
  {| what := B_MOUSE_WHEEL_CHANGED;
     data := {[ "be:wheel_delta_y"%string := BFloat 1065353216 ]} |}.

Definition sample_resized : BMessage :=
  {| what := B_WINDOW_RESIZED;
     data := {[ "width"%string := BInt32 1023; "height"%string := BInt32 767 ]} |}.

Definition sample_quit : BMessage :=
  {| what := B_QUIT_REQUESTED; data := ∅ |}.

Definition sample_mouse_down : BMessage :=
  {| what := B_MOUSE_DOWN; data := {[ "buttons"%string := BInt32 1 ]} |}.

(** A key-down message that carries no field at all. *)
Definition sample_bare_key_down : BMessage :=
  {| what := B_KEY_DOWN; data := ∅ |}.

Definition sample_update : BMessage :=
  {| what := _UPDATE_; data := ∅ |}.

(** A refs-received message whose first reference is [path]. *)
Definition sample_refs_received (path : list Z) : BMessage :=
  {| what := B_REFS_RECEIVED; data := {[ "refs"%string := BRef path ]} |}.

(** A Resized record followed by a Quit record. *)
Definition sample_resize_then_quit : list CCEvent :=
  [ {| type := CC_WIN_RESIZED; v1 := i32 800; v2 := i32 600 |};
    {| type := CC_WIN_QUIT; v1 := f32 0; v2 := f32 0 |} ].

(** *** Open-file dialog *)

Module FileDialog.

(** What the dialog code does to the outside: the panel it creates and
    shows, and the calls of the game's callback [open_callback(&path)]. *)
Inductive PanelCall : Type :=
| new_BFilePanel
| SetRefFilter
| panel_Show
| open_callback_call (callback : Z) (path : list Z).

(** The three globals [open_panel] (whether it is non-null),
    [open_callback] (a function pointer, 0 when null) and [open_filters],
    with the calls made so far (oldest first). *)
Record Dialog : Type := mkDialog {
  open_panel : bool;
  open_callback : Z;
  open_filters : list (list Z);
  panel_calls : list PanelCall
}.

(** [struct OpenFileDialogArgs], the two fields the backend reads. *)
Record OpenFileDialogArgs : Type := mkOpenFileDialogArgs {
  Callback : Z;
  filters : list (list Z)
}.

Section Dialog.

(** [String_AppendUtf8] (String.c is not under src/) applied to the empty
    1024-character string [path]: the text the callback receives for the
    bytes of [rawPath]. *)
Variable String_AppendUtf8 : list Z -> list Z.

(** [CallOpenFileCallback] *)
Definition CallOpenFileCallback (rawPath : list Z) (d : Dialog) : Dialog :=
  if open_callback d =? 0 then d
  else
    {| open_panel := open_panel d;
       open_callback := 0;
       open_filters := open_filters d;
       panel_calls :=
         panel_calls d
         ++ [open_callback_call (open_callback d) (String_AppendUtf8 rawPath)] |}.

(** [Window_OpenFileDialog]: the result code and the globals after it. *)
Definition Window_OpenFileDialog (args : OpenFileDialogArgs) (d : Dialog)
  : Z * Dialog :=
  let d :=
    if open_panel d then d
    else {| open_panel := true;
            open_callback := open_callback d;
            open_filters := open_filters d;
            panel_calls := panel_calls d ++ [new_BFilePanel; SetRefFilter] |} in
  (0, {| open_panel := open_panel d;
         open_callback := Callback args;
         open_filters := filters args;
         panel_calls := panel_calls d ++ [panel_Show] |}).

(** What a call made by the application translator does to the dialog:
    only its call of [CallOpenFileCallback] reaches it. *)
Definition deliver (d : Dialog) (c : ToolkitCall) : Dialog :=
  match c with
  | Haiku.CallOpenFileCallback path => CallOpenFileCallback path d
  | _ => d
  end.

End Dialog.

End FileDialog.

(** *** Fullscreen *)

Module Fullscreen.

Section Fullscreen.

(** [BRect] of the toolkit: a rectangle of four [float]s.  The backend
    only reads [left], [top], [Width()] and [Height()] of one and passes
    them on. *)
Variable BRect : Type.

(** [B_NOT_RESIZABLE], [B_NOT_ZOOMABLE] of the toolkit's Window.h and
    [WINDOW_STATE_NORMAL], [WINDOW_STATE_FULLSCREEN] of Window.h (neither
    is under src/). *)
Variable B_NOT_RESIZABLE : Z.
Variable B_NOT_ZOOMABLE : Z.
Variable WINDOW_STATE_NORMAL : Z.
Variable WINDOW_STATE_FULLSCREEN : Z.

(** Calls on [win_handle]: [MoveTo(r.left, r.top)],
    [ResizeTo(r.Width(), r.Height())], [SetFlags(flags)]. *)
Inductive WindowCall : Type :=
| Lock
| MoveTo (r : BRect)
| ResizeTo (r : BRect)
| SetFlags (flags : Z)
| Unlock.

(** The globals [win_rect] and [win_fullscreen], the flag word of the
    window (what [Flags()] returns and [SetFlags] sets) and the calls made
    on the window so far. *)
Record State : Type := mkState {
  win_rect : BRect;
  win_fullscreen : bool;
  Flags : Z;
  window_calls : list WindowCall
}.

(** [Window_GetWindowState] *)
Definition Window_GetWindowState (s : State) : Z :=
  if win_fullscreen s then WINDOW_STATE_FULLSCREEN else WINDOW_STATE_NORMAL.

(** [Window_EnterFullscreen]; [frame] is what [win_handle->Frame()]
    returns and [screen_frame] what [screen.Frame()] returns. *)
Definition Window_EnterFullscreen (frame screen_frame : BRect) (s : State)
  : Z * State :=
  let flags := Z.land (Flags s) (Z.lnot (Z.lor B_NOT_RESIZABLE B_NOT_ZOOMABLE)) in
  (0, {| win_rect := frame;
         win_fullscreen := true;
         Flags := flags;
         window_calls :=
           window_calls s
           ++ [Lock; MoveTo screen_frame; ResizeTo screen_frame;
               SetFlags flags; Unlock] |}).

(** [Window_ExitFullscreen] *)
Definition Window_ExitFullscreen (s : State) : Z * State :=
  let flags := Z.lor (Flags s) (Z.lor B_NOT_RESIZABLE B_NOT_ZOOMABLE) in
  (0, {| win_rect := win_rect s;
         win_fullscreen := false;
         Flags := flags;
         window_calls :=
           window_calls s
           ++ [Lock; MoveTo (win_rect s); ResizeTo (win_rect s);
               SetFlags flags; Unlock] |}).

(** A sequence of calls of the two functions by the game. *)
Inductive Request : Type :=
| Enter (frame screen_frame : BRect)
| Exit.

Definition request (s : State) (r : Request) : State :=
  match r with
  | Enter frame screen_frame => (Window_EnterFullscreen frame screen_frame s).2
  | Exit => (Window_ExitFullscreen s).2
  end.

Definition requests (rs : list Request) (s : State) : State :=
  foldl request s rs.

Definition is_Enter (r : Request) : bool :=
  match r with Enter _ _ => true | Exit => false end.

End Fullscreen.

End Fullscreen.

(** No panel yet, no callback armed. *)
Definition sample_dialog : FileDialog.Dialog :=
  FileDialog.mkDialog false 0 [] [].

Section Backend.

(** What a freshly allocated, not yet written slot holds.  The C heap
    gives no guarantee; no result below depends on this value. *)
Variable heap_junk : CCEvent.

(** Modelled from the spec: [Utils_Resize] (Utils.c) is not under src/.
    The spec describes it as growth "by reallocation plus copy when full,
    preserving order", by a fixed increment (linear growth): the capacity is
    raised by [expandElems] and the old elements keep their indices.
    Allocation failure aborts the process (spec section 7) and is not
    modelled. *)
Definition Utils_Resize (q : Events) (defCapacity expandElems : Z) : Events :=
  {| events_count := events_count q;
     events_capacity := events_capacity q + expandElems;
     events_list := events_list q ++ replicate (Z.to_nat expandElems) heap_junk |}.

(** [Events_Push] *)
Definition Events_Push (event : CCEvent) (q : Events) : Events :=
  let q1 :=
    if events_count q >=? events_capacity q
    then Utils_Resize q EVENTS_DEFAULT_MAX 20
    else q in
  {| events_count := events_count q1 + 1;
     events_capacity := events_capacity q1;
     events_list := <[Z.to_nat (events_count q1) := event]> (events_list q1) |}.

(** The shifting loop of [Events_Pull]:
    [for (int i = 1; i < events_count; i++) events_list[i - 1] = events_list[i];]
    [fuel] bounds the number of iterations. *)
Fixpoint Events_Pull_shift (fuel : nat) (i count : Z) (l : list CCEvent)
  : list CCEvent :=
  match fuel with
  | O => l
  | S fuel' =>
      if i <? count
      then Events_Pull_shift fuel' (i + 1) count
             (<[Z.to_nat (i - 1) := l !!! Z.to_nat i]> l)
      else l
  end.

(** [Events_Pull]: the returned option is [Some event] when the C function
    returns [true] (and has written [*event]), [None] when it returns
    [false]. *)
Definition Events_Pull (q : Events) : option CCEvent * Events :=
  if events_count q =? 0 then (None, q)
  else
    let event := events_list q !!! 0%nat in
    let l := Events_Pull_shift (Z.to_nat (events_count q)) 1
               (events_count q) (events_list q) in
    (Some event,
     {| events_count := events_count q - 1;
        events_capacity := events_capacity q;
        events_list := l |}).

(** *** Abstraction: the queued records, head first *)
Definition queued (q : Events) : list CCEvent :=
  take (Z.to_nat (events_count q)) (events_list q).

(** Representation invariant of the globals. *)
Definition wf (q : Events) : Prop :=
  0 <= events_count q <= events_capacity q /\
  Z.of_nat (length (events_list q)) = events_capacity q.

(** *** Native event translator (toolkit thread) *)

(** What the members of an uninitialised local [CCEvent event;] hold
    until they are assigned. *)
Variable stack_junk : CCEventValue.

(** The values of [enum InputButtons] (Input.h is not under src/). *)
Variable InputButtons_value : InputButtons -> Z.
Local Notation "# k" := (InputButtons_value k) (at level 5, k at level 0).

(** The C conversion of a [float] (binary32 bit pattern) to [int]. *)
Variable float_to_int : Z -> Z.

(** [Convert_Utf8ToCodepoint] (String.c, not under src/), applied to the
    bytes of a C string: [Some cp] when it returns non-zero, having
    decoded [cp]; [None] when it returns 0. *)
Variable Convert_Utf8ToCodepoint : list Z -> option Z.

Definition set_type (t : Z) (e : CCEvent) : CCEvent :=
  {| type := t; v1 := v1 e; v2 := v2 e |}.
Definition set_v1 (v : CCEventValue) (e : CCEvent) : CCEvent :=
  {| type := type e; v1 := v; v2 := v2 e |}.
Definition set_v2 (v : CCEventValue) (e : CCEvent) : CCEvent :=
  {| type := type e; v1 := v1 e; v2 := v |}.

(** A local [CCEvent event;] before any member is assigned.  The [type]
    member is always assigned before the record is used. *)
Definition CCEvent_uninit : CCEvent :=
  {| type := 0; v1 := stack_junk; v2 := stack_junk |}.

Definition push (event : CCEvent) (tk : Toolkit) : Toolkit :=
  {| events := Events_Push event (events tk);
     last_buttons := last_buttons tk;
     calls := calls tk |}.

Definition call (c : ToolkitCall) (tk : Toolkit) : Toolkit :=
  {| events := events tk;
     last_buttons := last_buttons tk;
     calls := calls tk ++ [c] |}.

(** [ProcessKeyInput] *)
Definition ProcessKeyInput (msg : BMessage) (tk : Toolkit) : Toolkit :=
  match FindString "bytes" msg with
  | None => tk
  | Some value =>
      match Convert_Utf8ToCodepoint value with
      | None => tk
      | Some cp =>
          let event := set_v1 (i32 cp) (set_type CC_KEY_INPUT CCEvent_uninit) in
          push event tk
      end
  end.

(** [UpdateMouseButton] *)
Definition UpdateMouseButton (btn pressed : Z) (tk : Toolkit) : Toolkit :=
  let event :=
    set_v1 (i32 btn)
      (set_type (if pressed =? 0 then CC_MOUSE_UP else CC_MOUSE_DOWN)
         CCEvent_uninit) in
  push event tk.

(** [UpdateMouseButtons] *)
Definition UpdateMouseButtons (buttons : Z) (tk : Toolkit) : Toolkit :=
  let changed := Z.lxor buttons (last_buttons tk) in
  let tk :=
    if Z.land changed B_PRIMARY_MOUSE_BUTTON =? 0 then tk
    else UpdateMouseButton #KEY_LMOUSE (Z.land buttons B_PRIMARY_MOUSE_BUTTON) tk in
  let tk :=
    if Z.land changed B_SECONDARY_MOUSE_BUTTON =? 0 then tk
    else UpdateMouseButton #KEY_RMOUSE (Z.land buttons B_SECONDARY_MOUSE_BUTTON) tk in
  let tk :=
    if Z.land changed B_TERTIARY_MOUSE_BUTTON =? 0 then tk
    else UpdateMouseButton #KEY_MMOUSE (Z.land buttons B_TERTIARY_MOUSE_BUTTON) tk in
  {| events := events tk; last_buttons := buttons; calls := calls tk |}.

(** The [switch (msg->what)] of [CC_BWindow::DispatchMessage], starting
    from [CCEvent event = { 0 }]: the record it leaves in [event] and the
    globals after the case ran. *)
Definition CC_BWindow_switch (msg : BMessage) (tk : Toolkit) : CCEvent * Toolkit :=
  let event := CCEvent_zero in
  match what msg with
  | B_KEY_DOWN | B_UNMAPPED_KEY_DOWN =>
      match FindInt32 "key" msg with
      | Some value => (set_v1 (i32 value) (set_type CC_KEY_DOWN event), tk)
      | None => (event, tk)
      end
  | B_KEY_UP | B_UNMAPPED_KEY_UP =>
      match FindInt32 "key" msg with
      | Some value => (set_v1 (i32 value) (set_type CC_KEY_UP event), tk)
      | None => (event, tk)
      end
  | B_MOUSE_DOWN | B_MOUSE_UP =>
      match FindInt32 "buttons" msg with
      | Some value => (event, UpdateMouseButtons value tk)
      | None => (event, tk)
      end
  | B_MOUSE_MOVED =>
      match FindPoint "where" msg with
      | Some (x, y) =>
          (set_v2 (i32 (float_to_int y))
             (set_v1 (i32 (float_to_int x)) (set_type CC_MOUSE_MOVE event)), tk)
      | None => (event, tk)
      end
  | B_MOUSE_WHEEL_CHANGED =>
      match FindFloat "be:wheel_delta_y" msg with
      | Some delta =>
          (set_v1 (f32 (f32_neg delta)) (set_type CC_MOUSE_SCROLL event), tk)
      | None => (event, tk)
      end
  | B_WINDOW_ACTIVATED =>
      match FindBool "active" msg with
      | Some active =>
          (set_v1 (i32 (Z.b2z active)) (set_type CC_WIN_FOCUS event), tk)
      | None => (event, tk)
      end
  | B_WINDOW_MOVED => (event, tk)
  | B_WINDOW_RESIZED =>
      match FindInt32 "width" msg, FindInt32 "height" msg with
      | Some width, Some height =>
          (set_v2 (i32 (int32 (height + 1)))
             (set_v1 (i32 (int32 (width + 1))) (set_type CC_WIN_RESIZED event)), tk)
      | _, _ => (event, tk)
      end
  | B_QUIT_REQUESTED =>
      (set_type CC_WIN_QUIT event, call (Platform_LogConst "WINQUIT") tk)
  | _UPDATE_ => (set_type CC_WIN_REDRAW event, tk)
  | _ => (event, tk)
  end.

(** [CC_BWindow::DispatchMessage] *)
Definition CC_BWindow_DispatchMessage (msg : BMessage) (tk : Toolkit) : Toolkit :=
  let '(event, tk) := CC_BWindow_switch msg tk in
  let tk := if type event =? 0 then tk else push event tk in
  let tk :=
    match what msg with
    | B_KEY_DOWN => ProcessKeyInput msg tk
    | _ => tk
    end in
  call (BWindow_DispatchMessage msg) tk.

(** [CC_BApp::DispatchMessage] *)
Definition CC_BApp_DispatchMessage (msg : BMessage) (tk : Toolkit) : Toolkit :=
  let event := CCEvent_zero in
  let '(event, tk) :=
    match what msg with
    | B_QUIT_REQUESTED =>
        (set_type CC_WIN_QUIT event, call (Platform_LogConst "APP QUIT") tk)
    | B_REFS_RECEIVED =>
        match FindRef "refs" msg with
        | Some path => (event, call (CallOpenFileCallback path) tk)
        | None => (event, tk)
        end
    | _ => (event, tk)
    end in
  let tk := if type event =? 0 then tk else push event tk in
  call (BApplication_DispatchMessage msg) tk.

(** *** Event pump (game thread) *)

(** [static const cc_uint8 key_map[]], indexed by the native key code.
    The file is C++: a constant that did not fit [cc_uint8] would be
    rejected in this initialiser list, so no entry is truncated. *)
Definition key_map : list Z := [
  (* 0x00 *) 0; #KEY_ESCAPE; #KEY_F1; #KEY_F2;  #KEY_F3; #KEY_F4; #KEY_F5; #KEY_F6;
  (* 0x08 *) #KEY_F7; #KEY_F8; #KEY_F9; #KEY_F10;  #KEY_F11; #KEY_F12; #KEY_PRINTSCREEN; #KEY_SCROLLLOCK;
  (* 0x10 *) #KEY_PAUSE; #KEY_TILDE; chr "1"; chr "2";  chr "3"; chr "4"; chr "5"; chr "6";
  (* 0x18 *) chr "7"; chr "8"; chr "9"; chr "0";  #KEY_MINUS; #KEY_EQUALS; #KEY_BACKSPACE; #KEY_INSERT;
  (* 0x20 *) #KEY_HOME; #KEY_PAGEUP; #KEY_NUMLOCK; #KEY_KP_DIVIDE;  #KEY_KP_MULTIPLY; #KEY_KP_MINUS; #KEY_TAB; chr "Q";
  (* 0x28 *) chr "W"; chr "E"; chr "R"; chr "T";  chr "Y"; chr "U"; chr "I"; chr "O";
  (* 0x30 *) chr "P"; #KEY_LBRACKET; #KEY_RBRACKET; #KEY_BACKSLASH;  #KEY_DELETE; #KEY_END; #KEY_PAGEDOWN; #KEY_KP7;
  (* 0x38 *) #KEY_KP8; #KEY_KP9; #KEY_KP_PLUS; #KEY_CAPSLOCK;  chr "A"; chr "S"; chr "D"; chr "F";
  (* 0x40 *) chr "G"; chr "H"; chr "J"; chr "K";  chr "L"; #KEY_SEMICOLON; #KEY_QUOTE; #KEY_ENTER;
  (* 0x48 *) #KEY_KP4; #KEY_KP5; #KEY_KP6; #KEY_LSHIFT;  chr "Z"; chr "X"; chr "C"; chr "V";
  (* 0x50 *) chr "B"; chr "N"; chr "M"; #KEY_COMMA;  #KEY_PERIOD; #KEY_SLASH; #KEY_RSHIFT; #KEY_UP;
  (* 0x58 *) #KEY_KP1; #KEY_KP2; #KEY_KP3; #KEY_KP_ENTER;  #KEY_LCTRL; #KEY_LALT; #KEY_SPACE; #KEY_RALT;
  (* 0x60 *) #KEY_RCTRL; #KEY_LEFT; #KEY_DOWN; #KEY_RIGHT;  #KEY_KP0; #KEY_KP_DECIMAL; #KEY_LWIN; 0;
  (* 0x68 *) #KEY_RWIN; 0; 0; 0;  0; 0; 0; 0
].

(** [Array_Elems(key_map)] *)
Definition key_map_elems : Z := Z.of_nat (length key_map).

(** [MapNativeKey]: the key it returns and what it logs. *)
Definition MapNativeKey (raw : Z) : Z * list Call :=
  let key :=
    if (raw >=? 0) && (raw <? key_map_elems)
    then key_map !!! Z.to_nat raw else 0 in
  (key, if key =? 0 then [Platform_Log2_UnknownKey raw] else []).

(** The body of the [switch (event.type)] of [Window_ProcessEvents]: the
    new [WindowInfo] and the calls made, in order. *)
Definition Window_ProcessEvents_switch (event : CCEvent) (w : WindowInfo_t)
  : WindowInfo_t * list Call :=
  let t := type event in
  if t =? CC_MOUSE_SCROLL then (w, [Mouse_ScrollWheel (get_f32 (v1 event))])
  else if t =? CC_MOUSE_DOWN then (w, [Input_SetPressed (get_i32 (v1 event))])
  else if t =? CC_MOUSE_UP then (w, [Input_SetReleased (get_i32 (v1 event))])
  else if t =? CC_MOUSE_MOVE then
    (w, [Pointer_SetPosition 0 (get_i32 (v1 event)) (get_i32 (v2 event))])
  else if t =? CC_KEY_DOWN then
    let '(key, log) := MapNativeKey (get_i32 (v1 event)) in
    (w, log ++ (if key =? 0 then [] else [Input_SetPressed key]))
  else if t =? CC_KEY_UP then
    let '(key, log) := MapNativeKey (get_i32 (v1 event)) in
    (w, log ++ (if key =? 0 then [] else [Input_SetReleased key]))
  else if t =? CC_KEY_INPUT then (w, [Event_RaiseInt_Press (get_i32 (v1 event))])
  else if t =? CC_WIN_RESIZED then
    ({| Width := get_i32 (v1 event); Height := get_i32 (v2 event);
        Focused := Focused w; Exists := Exists w |},
     [Event_RaiseVoid Resized])
  else if t =? CC_WIN_FOCUS then
    ({| Width := Width w; Height := Height w;
        Focused := get_i32 (v1 event) mod 256; Exists := Exists w |},
     [Event_RaiseVoid FocusChanged])
  else if t =? CC_WIN_REDRAW then (w, [Event_RaiseVoid RedrawNeeded])
  else if t =? CC_WIN_QUIT then
    ({| Width := Width w; Height := Height w;
        Focused := Focused w; Exists := false |},
     [Event_RaiseVoid Closing])
  else (w, []).

(** The [while (Events_Pull(&event))] loop; [fuel] bounds the number of
    pulls.  The result is the queue, [WindowInfo], the calls made and
    whether the loop ended because a pull returned [false]. *)
Fixpoint Window_ProcessEvents_loop (fuel : nat) (q : Events) (w : WindowInfo_t)
  : Events * WindowInfo_t * list Call * bool :=
  match fuel with
  | O => (q, w, [], false)
  | S fuel' =>
      match Events_Pull q with
      | (None, q') => (q', w, [], true)
      | (Some event, q') =>
          let '(w', cs) := Window_ProcessEvents_switch event w in
          let '(q'', w'', cs', done) := Window_ProcessEvents_loop fuel' q' w' in
          (q'', w'', cs ++ cs', done)
      end
  end.

(** [Window_ProcessEvents] : each successful pull lowers [events_count]
    by one, so [events_count + 1] pulls are enough to see the queue empty
    (no producer runs in between in this sequential model). *)
Definition Window_ProcessEvents (q : Events) (w : WindowInfo_t)
  : Events * WindowInfo_t * list Call * bool :=
  Window_ProcessEvents_loop (S (Z.to_nat (events_count q))) q w.

(** *** Runs of queue operations *)

Inductive QueueOp : Type :=
| OpPush (event : CCEvent)
| OpPull.

(** Runs the operations in order; returns the final queue and the result
    of every pull ([Some] record or [None] for [false]), in order. *)
Fixpoint run (ops : list QueueOp) (q : Events) : Events * list (option CCEvent) :=
  match ops with
  | [] => (q, [])
  | OpPush e :: ops' => run ops' (Events_Push e q)
  | OpPull :: ops' =>
      let '(r, q') := Events_Pull q in
      let '(q'', rs) := run ops' q' in
      (q'', r :: rs)
  end.

(** The records passed to [Events_Push], in order. *)
Definition pushed (ops : list QueueOp) : list CCEvent :=
  omap (fun op => match op with OpPush e => Some e | OpPull => None end) ops.

(** The records returned by the successful pulls, in order. *)
Definition pulled (rs : list (option CCEvent)) : list CCEvent :=
  omap id rs.

(** Pushes all of [es], in order. *)
Definition push_all (es : list CCEvent) (q : Events) : Events :=
  foldl (fun q e => Events_Push e q) q es.

(** Pulls until [Events_Pull] returns [false] (at most [fuel] times);
    returns the records pulled and whether [false] was reached. *)
Fixpoint pull_all (fuel : nat) (q : Events) : list CCEvent * Events * bool :=
  match fuel with
  | O => ([], q, false)
  | S fuel' =>
      match Events_Pull q with
      | (None, q') => ([], q', true)
      | (Some e, q') =>
          let '(es, q'', done) := pull_all fuel' q' in
          (e :: es, q'', done)
      end
  end.

(** The queue as the specification words it: an ordered sequence of
    records where push appends at the tail and pull removes and returns
    the head, or returns nothing when the sequence is empty. *)
Fixpoint fifo_run (ops : list QueueOp) (l : list CCEvent)
  : list CCEvent * list (option CCEvent) :=
  match ops with
  | [] => (l, [])
  | OpPush e :: ops' => fifo_run ops' (l ++ [e])
  | OpPull :: ops' =>
      match l with
      | [] => let '(l', rs) := fifo_run ops' [] in (l', None :: rs)
      | x :: xs => let '(l', rs) := fifo_run ops' xs in (l', Some x :: rs)
      end
  end.

(** The records the translator queues for input, as the specification
    names them. *)
Definition MouseDown (btn : Z) : CCEvent :=
  {| type := CC_MOUSE_DOWN; v1 := i32 btn; v2 := stack_junk |}.
Definition MouseUp (btn : Z) : CCEvent :=
  {| type := CC_MOUSE_UP; v1 := i32 btn; v2 := stack_junk |}.
Definition KeyDown (raw : Z) : CCEvent :=
  {| type := CC_KEY_DOWN; v1 := i32 raw; v2 := f32 0 |}.
Definition KeyInput (cp : Z) : CCEvent :=
  {| type := CC_KEY_INPUT; v1 := i32 cp; v2 := stack_junk |}.

(** The edge record of one button: none when its bit is the same in the
    old and the new mask, else a press or a release after the new bit. *)
Definition button_edge (last buttons : Z) (bit : Z) (btn : Z) : list CCEvent :=
  if Bool.eqb (Z.testbit buttons bit) (Z.testbit last bit) then []
  else [if Z.testbit buttons bit then MouseDown btn else MouseUp btn].

(** Feeds a sequence of button masks to [UpdateMouseButtons], in order. *)
Definition UpdateMouseButtons_seq (masks : list Z) (tk : Toolkit) : Toolkit :=
  foldl (fun tk buttons => UpdateMouseButtons buttons tk) tk masks.

(** The switch body of the pump applied to a list of records, in order. *)
Fixpoint dispatch_all (es : list CCEvent) (w : WindowInfo_t)
  : WindowInfo_t * list Call :=
  match es with
  | [] => (w, [])
  | e :: es' =>
      let '(w', cs) := Window_ProcessEvents_switch e w in
      let '(w'', cs') := dispatch_all es' w' in
      (w'', cs ++ cs')
  end.

(** A record whose kind is not None. *)
Definition not_none (e : CCEvent) : Prop := type e <> CC_NONE.

(** [q'] holds what [q] holds followed by new records that all satisfy [P]. *)
Definition appended (P : CCEvent -> Prop) (q q' : Events) : Prop :=
  wf q' /\ exists new, queued q' = queued q ++ new /\ Forall P new.

(** *** Further vocabulary *)

(** The KeyInput record [ProcessKeyInput] adds for a message, if any. *)
Definition key_input_records (msg : BMessage) : list CCEvent :=
  match what msg with
  | B_KEY_DOWN =>
      match FindString "bytes" msg with
      | Some value =>
          match Convert_Utf8ToCodepoint value with
          | Some cp => [KeyInput cp]
          | None => []
          end
      | None => []
      end
  | _ => []
  end.

(** Presses minus releases of button [btn] among the records of [l]. *)
Definition net_presses (btn : Z) (l : list CCEvent) : Z :=
  foldr (fun e acc =>
           (if decide (v1 e = i32 btn) then
              if type e =? CC_MOUSE_DOWN then 1
              else if type e =? CC_MOUSE_UP then -1 else 0
            else 0) + acc) 0 l.

(** The last element of a sequence of masks, or [d] when it is empty. *)
Definition last_mask (masks : list Z) (d : Z) : Z := List.last masks d.

(** What the last Resized record of [es] says, or [wh] when there is none;
    likewise for the last FocusChanged record. *)
Definition last_resized (es : list CCEvent) (wh : Z * Z) : Z * Z :=
  foldl (fun wh e =>
           if type e =? CC_WIN_RESIZED then (get_i32 (v1 e), get_i32 (v2 e))
           else wh) wh es.
Definition last_focus (es : list CCEvent) (f : Z) : Z :=
  foldl (fun f e => if type e =? CC_WIN_FOCUS then get_i32 (v1 e) mod 256 else f)
        f es.

(** Whether [es] holds a Quit record. *)
Definition has_quit (es : list CCEvent) : bool :=
  existsb (fun e => type e =? CC_WIN_QUIT) es.

(** Calls made on the native window. *)
Inductive WindowCall : Type :=
| win_Lock
| win_Unlock
| win_ResizeTo (width height : Z).

(** [Window_SetSize]: the calls made on [win_handle], with the [int]
    arguments as written (they convert to [float] exactly). *)
Definition Window_SetSize (width height : Z) : list WindowCall :=
  [win_Lock; win_ResizeTo (width - 1) (height - 1); win_Unlock].

(** The message the toolkit dispatches to the window after its size
    changed to [width] x [height] in the toolkit's inclusive convention. *)
Definition resized_message (width height : Z) : BMessage :=
  {| what := B_WINDOW_RESIZED;
     data := {[ "width"%string := BInt32 width; "height"%string := BInt32 height ]} |}.

(** [Window_Close]: the message posted to [app_handle]. *)
Definition Window_Close : BMessage :=
  {| what := B_QUIT_REQUESTED; data := ∅ |}.

(** A message none of whose fields the window translator can read: each
    lookup it makes fails (field absent, or of another type). *)
Definition no_payload (msg : BMessage) : Prop :=
  FindInt32 "key" msg = None /\ FindInt32 "buttons" msg = None /\
  FindPoint "where" msg = None /\ FindFloat "be:wheel_delta_y" msg = None /\
  FindBool "active" msg = None /\
  (FindInt32 "width" msg = None \/ FindInt32 "height" msg = None) /\
  FindString "bytes" msg = None.

(** The call the pump makes for one button: none when its bit is the same
    in both masks, else a press or a release after the new bit. *)
Definition button_call (last buttons : Z) (bit : Z) (btn : Z) : list Call :=
  if Bool.eqb (Z.testbit buttons bit) (Z.testbit last bit) then []
  else [if Z.testbit buttons bit then Input_SetPressed btn
        else Input_SetReleased btn].

(** The application translator run on a sequence of messages. *)
Definition CC_BApp_DispatchMessage_seq (msgs : list BMessage) (tk : Toolkit) : Toolkit :=
  foldl (fun tk msg => CC_BApp_DispatchMessage msg tk) tk msgs.

(** The file references a sequence of application messages carries: one
    per refs-received message whose first "refs" entry can be read. *)
Definition received_refs (msgs : list BMessage) : list (list Z) :=
  omap (fun msg => match what msg with
                   | B_REFS_RECEIVED => FindRef "refs" msg
                   | _ => None
                   end) msgs.

(** *** The queue refines a list: push appends, pull removes the head *)

Lemma wf_Events_Init : wf Events_Init.
Proof. split; [cbn; unfold EVENTS_DEFAULT_MAX; lia | reflexivity]. Qed.

Lemma queued_Events_Init : queued Events_Init = [].
Proof. reflexivity. Qed.

Lemma wf_Utils_Resize q d n :
  0 <= n -> wf q -> wf (Utils_Resize q d n).
Proof.
  unfold wf, Utils_Resize; simpl. intros Hn [Hc Hl].
  rewrite length_app, length_replicate. lia.
Qed.

Lemma queued_Utils_Resize q d n :
  wf q -> queued (Utils_Resize q d n) = queued q.
Proof.
  unfold wf, queued, Utils_Resize; simpl. intros [Hc Hl].
  rewrite take_app_le by lia. reflexivity.
Qed.

(** The slot [Events_Push] writes to exists: growth happened first. *)
Lemma Events_Push_slot_in_range q :
  wf q ->
  let q1 := if events_count q >=? events_capacity q
            then Utils_Resize q EVENTS_DEFAULT_MAX 20 else q in
  wf q1 /\ events_count q1 < events_capacity q1 /\ queued q1 = queued q.
Proof.
  intros Hwf. rewrite Z.geb_leb.
  destruct (Z.leb_spec (events_capacity q) (events_count q)) as [Hfull|Hroom].
  - split; [apply wf_Utils_Resize; [lia|done]|].
    split; [|by apply queued_Utils_Resize].
    destruct Hwf as [Hc Hl]. unfold Utils_Resize; simpl. lia.
  - repeat split; try apply Hwf. lia.
Qed.

Lemma wf_Events_Push e q : wf q -> wf (Events_Push e q).
Proof.
  intros Hwf. destruct (Events_Push_slot_in_range q Hwf) as ([Hc Hl] & Hlt & _).
  unfold wf, Events_Push. cbv zeta. simpl. rewrite length_insert. lia.
Qed.

Lemma queued_Events_Push e q :
  wf q -> queued (Events_Push e q) = queued q ++ [e].
Proof.
  intros Hwf. destruct (Events_Push_slot_in_range q Hwf) as ([Hc Hl] & Hlt & Hq).
  rewrite <- Hq. unfold queued, Events_Push. cbv zeta. simpl.
  set (q1 := if events_count q >=? events_capacity q then _ else _) in *.
  replace (Z.to_nat (events_count q1 + 1)) with (S (Z.to_nat (events_count q1))) by lia.
  assert (Hn : (Z.to_nat (events_count q1) < length (events_list q1))%nat) by lia.
  erewrite take_S_r by (apply list_lookup_insert_eq; exact Hn).
  rewrite take_insert_ge by lia. reflexivity.
Qed.

(** One iteration of the shifting loop, on a list [h :: t] whose first [j]
    tail elements have already been moved down. *)
Lemma Events_Pull_shift_step (h : CCEvent) t (j : nat) x :
  t !! j = Some x ->
  <[j := x]> (take j t ++ drop j (h :: t)) = take (S j) t ++ drop (S j) (h :: t).
Proof.
  intros Hx. pose proof (lookup_lt_Some _ _ _ Hx) as Hj.
  assert (Hlen : length (take j t) = j) by (rewrite length_take; lia).
  rewrite <- (Nat.add_0_r j) at 1. rewrite <- Hlen at 1.
  rewrite insert_app_r.
  rewrite (take_S_r _ _ _ Hx), <- app_assoc. f_equal.
  destruct (drop j (h :: t)) as [|y r] eqn:Hd.
  - apply (f_equal length) in Hd. rewrite length_drop in Hd. simpl in Hd. lia.
  - simpl. f_equal.
    transitivity (drop 1 (drop j (h :: t))); [by rewrite Hd|].
    rewrite drop_drop, Nat.add_1_r. reflexivity.
Qed.

Lemma Events_Pull_shift_spec (h : CCEvent) t (c : nat) :
  (1 <= c <= S (length t))%nat ->
  forall fuel j,
    (S j <= c)%nat -> (c - S j <= fuel)%nat ->
    Events_Pull_shift fuel (Z.of_nat (S j)) (Z.of_nat c)
      (take j t ++ drop j (h :: t))
    = take (c - 1) t ++ drop (c - 1) (h :: t).
Proof.
  intros Hc fuel. induction fuel as [|fuel IH]; intros j Hj Hfuel.
  - simpl. replace (c - 1)%nat with j by lia. reflexivity.
  - simpl. destruct (Z.ltb_spec (Z.of_nat (S j)) (Z.of_nat c)) as [Hlt|Hge].
    + assert (Hjt : (j < length t)%nat) by lia.
      destruct (lookup_lt_is_Some_2 t j Hjt) as [x Hx].
      replace (Z.to_nat (Z.of_nat (S j) - 1)) with j by lia.
      rewrite Nat2Z.id.
      assert (Hread : (take j t ++ drop j (h :: t)) !!! S j = x).
      { apply list_lookup_total_correct.
        rewrite lookup_app_r by (rewrite length_take; lia).
        rewrite length_take, lookup_drop.
        replace (j + (S j - j `min` length t))%nat with (S j) by lia.
        exact Hx. }
      rewrite Hread, (Events_Pull_shift_step h t j x Hx).
      replace (Z.of_nat (S j) + 1) with (Z.of_nat (S (S j))) by lia.
      apply IH; lia.
    + replace (c - 1)%nat with j by lia. reflexivity.
Qed.

(** [Events_Pull] on an empty queue: returns [false], changes nothing. *)
Lemma Events_Pull_empty q :
  events_count q = 0 -> Events_Pull q = (None, q).
Proof. intros H. unfold Events_Pull. rewrite H. reflexivity. Qed.

(** [Events_Pull] on a non-empty queue: returns the head and keeps the
    rest in order. *)
Lemma Events_Pull_head q e rest :
  wf q -> queued q = e :: rest ->
  exists q', Events_Pull q = (Some e, q') /\ wf q' /\ queued q' = rest
             /\ events_capacity q' = events_capacity q.
Proof.
  intros [Hc Hl] Hq. unfold queued in Hq.
  destruct (events_list q) as [|h t] eqn:Hlist.
  { rewrite take_nil in Hq. discriminate. }
  destruct (Z.to_nat (events_count q)) as [|c] eqn:Hcnt; [discriminate|].
  injection Hq as -> Hrest. simpl in Hl.
  pose proof (Events_Pull_shift_spec e t (S c) ltac:(lia) (S c) 0%nat
                ltac:(lia) ltac:(lia)) as Hs.
  replace (Z.of_nat (S c)) with (events_count q) in Hs by lia.
  replace (S c - 1)%nat with c in Hs by lia.
  change (take 0 t ++ drop 0 (e :: t)) with (e :: t) in Hs.
  change (Z.of_nat 1) with 1 in Hs.
  unfold Events_Pull. destruct (Z.eqb_spec (events_count q) 0) as [|_]; [lia|].
  rewrite Hlist, Hcnt, Hs. eexists. split; [reflexivity|].
  unfold wf, queued; simpl.
  replace (Z.to_nat (events_count q - 1)) with c by lia.
  assert (Hct : length (take c t) = c) by (rewrite length_take; lia).
  repeat split; try lia.
  - rewrite length_app, Hct, length_drop. simpl. lia.
  - rewrite take_app_le by lia. rewrite take_take, Nat.min_id. exact Hrest.
Qed.

Lemma queued_nil_iff q : wf q -> queued q = [] <-> events_count q = 0.
Proof.
  intros [Hc Hl]. unfold queued. split.
  - intros H. apply (f_equal length) in H. rewrite length_take in H. simpl in H. lia.
  - intros ->. reflexivity.
Qed.

(** A run on the C queue and a run on the list agree, pull by pull. *)
Lemma run_fifo_run ops :
  forall q, wf q ->
    wf (run ops q).1 /\
    queued (run ops q).1 = (fifo_run ops (queued q)).1 /\
    (run ops q).2 = (fifo_run ops (queued q)).2.
Proof.
  induction ops as [|[e|] ops IH]; intros q Hwf; simpl.
  - done.
  - rewrite <- (queued_Events_Push e q Hwf). apply IH. by apply wf_Events_Push.
  - destruct (queued q) as [|x xs] eqn:Hq.
    + rewrite (Events_Pull_empty q) by (by apply queued_nil_iff).
      specialize (IH q Hwf). rewrite Hq in IH.
      destruct (run ops q) as [q'' rs], (fifo_run ops []) as [l' rs'].
      simpl in *. destruct IH as (? & ? & ->). done.
    + destruct (Events_Pull_head q x xs Hwf Hq) as (q' & -> & Hwf' & Hq' & _).
      specialize (IH q' Hwf'). rewrite Hq' in IH.
      destruct (run ops q') as [q'' rs], (fifo_run ops xs) as [l' rs'].
      simpl in *. destruct IH as (? & ? & ->). done.
Qed.

(** On the list, what was pulled followed by what is still queued is what
    was there followed by what was pushed. *)
Lemma fifo_run_conserves ops :
  forall l,
    pulled (fifo_run ops l).2 ++ (fifo_run ops l).1 = l ++ pushed ops.
Proof.
  induction ops as [|[e|] ops IH]; intros l; simpl.
  - by rewrite app_nil_r.
  - rewrite IH, <- app_assoc. reflexivity.
  - destruct l as [|x xs].
    + specialize (IH []). destruct (fifo_run ops []) as [l' rs]. exact IH.
    + specialize (IH xs). destruct (fifo_run ops xs) as [l' rs].
      simpl in *. by rewrite IH.
Qed.

Lemma wf_push_all es : forall q, wf q -> wf (push_all es q).
Proof.
  induction es as [|e es IH]; intros q Hwf; simpl; [done|].
  apply IH. by apply wf_Events_Push.
Qed.

Lemma queued_push_all es :
  forall q, wf q -> queued (push_all es q) = queued q ++ es.
Proof.
  induction es as [|e es IH]; intros q Hwf; simpl.
  - by rewrite app_nil_r.
  - rewrite IH by (by apply wf_Events_Push).
    rewrite queued_Events_Push by done. by rewrite <- app_assoc.
Qed.

Lemma length_queued q : wf q -> Z.of_nat (length (queued q)) = events_count q.
Proof. intros [Hc Hl]. unfold queued. rewrite length_take. lia. Qed.

(** Pulling until [false] returns everything queued, in order, and leaves
    the queue empty, as soon as the fuel exceeds the number queued. *)
Lemma pull_all_queued :
  forall fuel q, wf q -> (length (queued q) < fuel)%nat ->
    exists q', pull_all fuel q = (queued q, q', true) /\ wf q' /\
               events_count q' = 0 /\ events_capacity q' = events_capacity q.
Proof.
  induction fuel as [|fuel IH]; intros q Hwf Hfuel; [lia|].
  simpl. destruct (queued q) as [|x xs] eqn:Hq.
  - assert (H0 : events_count q = 0) by (by apply queued_nil_iff).
    rewrite (Events_Pull_empty q H0). by exists q.
  - destruct (Events_Pull_head q x xs Hwf Hq) as (q1 & -> & Hwf1 & Hq1 & Hcap1).
    destruct (IH q1 Hwf1) as (q' & -> & Hwf' & Hc' & Hcap').
    { rewrite Hq1. simpl in Hfuel. lia. }
    exists q'. rewrite Hq1. split; [done|]. split; [done|]. split; [done|congruence].
Qed.

(** C1. Strict FIFO.  For every sequence of pushes and pulls run on the
    queue [Events_Init] sets up: the pulls return, one by one, what a list
    used as a FIFO returns (push appends at the tail, pull removes the
    head); the records returned by the successful pulls, followed by the
    records still queued, are exactly the records pushed, in push order;
    and a further [Events_Pull] returns [false] exactly when the queue is
    empty. *)
Theorem Events_fifo (ops : list QueueOp) :
  let q := (run ops Events_Init).1 in
  let results := (run ops Events_Init).2 in
  results = (fifo_run ops []).2 /\
  pulled results ++ queued q = pushed ops /\
  ((Events_Pull q).1 = None <-> queued q = []).
Proof.
  cbv zeta.
  destruct (run_fifo_run ops Events_Init wf_Events_Init) as (Hwf & Hq & Hr).
  rewrite queued_Events_Init in Hq, Hr.
  split; [exact Hr|]. split.
  - rewrite Hq, Hr. apply (fifo_run_conserves ops []).
  - destruct (queued (run ops Events_Init).1) as [|x xs] eqn:Hqq.
    + rewrite Events_Pull_empty by (by apply queued_nil_iff). done.
    + destruct (Events_Pull_head _ x xs Hwf Hqq) as (q' & -> & _). done.
Qed.

(** C2. No loss under growth.  Pushing more than [EVENTS_DEFAULT_MAX] (20)
    records onto the initial queue makes the storage grow, and pulling until
    [Events_Pull] returns [false] then yields exactly the pushed records, in
    push order, leaving the queue empty.  A push onto a full queue grows
    the storage by 20 slots first and then appends: the records already
    queued are kept and the new one follows them. *)
Theorem Events_no_loss_under_growth (es : list CCEvent) :
  (Z.to_nat EVENTS_DEFAULT_MAX < length es)%nat ->
  let q := push_all es Events_Init in
  EVENTS_DEFAULT_MAX < events_capacity q /\
  (exists q', pull_all (S (length es)) q = (es, q', true) /\
              events_count q' = 0) /\
  (forall q0 e, wf q0 -> events_count q0 = events_capacity q0 ->
     events_capacity (Events_Push e q0) = events_capacity q0 + 20 /\
     queued (Events_Push e q0) = queued q0 ++ [e]).
Proof.
  intros Hlen. cbv zeta.
  pose proof (wf_push_all es _ wf_Events_Init) as Hwf.
  pose proof (queued_push_all es _ wf_Events_Init) as Hq.
  rewrite queued_Events_Init in Hq. simpl in Hq.
  split; [|split].
  - pose proof (length_queued _ Hwf) as Hc. rewrite Hq in Hc.
    destruct Hwf as [Hcc _]. lia.
  - destruct (pull_all_queued (S (length es)) _ Hwf) as (q' & Hp & _ & Hc & _).
    { rewrite Hq. lia. }
    exists q'. rewrite Hp, Hq. done.
  - intros q0 e Hwf0 Hfull. split; [|by apply queued_Events_Push].
    unfold Events_Push. cbv zeta. simpl.
    rewrite Z.geb_leb.
    destruct (Z.leb_spec (events_capacity q0) (events_count q0)); [reflexivity|lia].
Qed.

(** *** Mouse button diffing *)

Lemma land_pow2_eqb x k :
  0 <= k -> (Z.land x (2 ^ k) =? 0) = negb (Z.testbit x k).
Proof.
  intros Hk. destruct (Z.testbit x k) eqn:Hb; simpl.
  - apply Z.eqb_neq. intros H0. apply (f_equal (fun z => Z.testbit z k)) in H0.
    rewrite Z.land_spec, Hb, Z.pow2_bits_true, Z.bits_0 in H0 by lia. discriminate.
  - apply Z.eqb_eq. apply Z.bits_inj'. intros n Hn.
    rewrite Z.land_spec, Z.bits_0, Z.pow2_bits_eqb by lia.
    destruct (Z.eqb_spec k n) as [->|]; [by rewrite Hb|apply andb_false_r].
Qed.

Lemma push_spec e tk :
  wf (events tk) ->
  wf (events (push e tk)) /\
  queued (events (push e tk)) = queued (events tk) ++ [e] /\
  last_buttons (push e tk) = last_buttons tk.
Proof.
  intros Hwf. simpl. split; [by apply wf_Events_Push|].
  split; [by apply queued_Events_Push|reflexivity].
Qed.

Lemma UpdateMouseButton_spec btn pressed tk :
  wf (events tk) ->
  wf (events (UpdateMouseButton btn pressed tk)) /\
  queued (events (UpdateMouseButton btn pressed tk))
  = queued (events tk) ++ [if pressed =? 0 then MouseUp btn else MouseDown btn] /\
  last_buttons (UpdateMouseButton btn pressed tk) = last_buttons tk.
Proof.
  intros Hwf. unfold UpdateMouseButton. cbv zeta.
  destruct (push_spec
    (set_v1 (i32 btn)
       (set_type (if pressed =? 0 then CC_MOUSE_UP else CC_MOUSE_DOWN) CCEvent_uninit))
    tk Hwf) as (H1 & H2 & H3).
  split; [exact H1|]. split; [|exact H3].
  rewrite H2. by destruct (pressed =? 0).
Qed.

(** One [if (changed & MASK) UpdateMouseButton(KEY, buttons & MASK);] *)
Lemma UpdateMouseButtons_one last buttons k btn tk :
  0 <= k -> wf (events tk) ->
  let tk' :=
    if Z.land (Z.lxor buttons last) (2 ^ k) =? 0 then tk
    else UpdateMouseButton btn (Z.land buttons (2 ^ k)) tk in
  wf (events tk') /\
  queued (events tk') = queued (events tk) ++ button_edge last buttons k btn /\
  last_buttons tk' = last_buttons tk.
Proof.
  intros Hk Hwf. cbv zeta. unfold button_edge.
  rewrite land_pow2_eqb, Z.lxor_spec by done.
  destruct (Z.testbit buttons k) eqn:Hb, (Z.testbit last k) eqn:Hl; simpl;
    try (by rewrite app_nil_r);
    destruct (UpdateMouseButton_spec btn (Z.land buttons (2 ^ k)) tk Hwf)
      as (H1 & H2 & H3);
    rewrite land_pow2_eqb, Hb in H2 by done; done.
Qed.

Lemma UpdateMouseButtons_spec buttons tk :
  wf (events tk) ->
  wf (events (UpdateMouseButtons buttons tk)) /\
  queued (events (UpdateMouseButtons buttons tk))
  = queued (events tk)
    ++ button_edge (last_buttons tk) buttons 0 #KEY_LMOUSE
    ++ button_edge (last_buttons tk) buttons 1 #KEY_RMOUSE
    ++ button_edge (last_buttons tk) buttons 2 #KEY_MMOUSE /\
  last_buttons (UpdateMouseButtons buttons tk) = buttons.
Proof.
  intros Hwf. unfold UpdateMouseButtons. cbv zeta.
  set (last := last_buttons tk).
  destruct (UpdateMouseButtons_one last buttons 0 #KEY_LMOUSE tk ltac:(lia) Hwf)
    as (Hw1 & Hq1 & _).
  cbv zeta in Hw1, Hq1. change (2 ^ 0) with B_PRIMARY_MOUSE_BUTTON in Hw1, Hq1.
  set (tk1 := if Z.land (Z.lxor buttons last) B_PRIMARY_MOUSE_BUTTON =? 0 then _ else _) in *.
  destruct (UpdateMouseButtons_one last buttons 1 #KEY_RMOUSE tk1 ltac:(lia) Hw1)
    as (Hw2 & Hq2 & _).
  cbv zeta in Hw2, Hq2. change (2 ^ 1) with B_SECONDARY_MOUSE_BUTTON in Hw2, Hq2.
  set (tk2 := if Z.land (Z.lxor buttons last) B_SECONDARY_MOUSE_BUTTON =? 0 then _ else _) in *.
  destruct (UpdateMouseButtons_one last buttons 2 #KEY_MMOUSE tk2 ltac:(lia) Hw2)
    as (Hw3 & Hq3 & _).
  cbv zeta in Hw3, Hq3. change (2 ^ 2) with B_TERTIARY_MOUSE_BUTTON in Hw3, Hq3.
  set (tk3 := if Z.land (Z.lxor buttons last) B_TERTIARY_MOUSE_BUTTON =? 0 then _ else _) in *.
  simpl. split; [exact Hw3|]. split; [|reflexivity].
  rewrite Hq3, Hq2, Hq1, <- !app_assoc. reflexivity.
Qed.

(** C3. Button diffing.  From shadow state 0, the mask sequence
    [0, PRIMARY, PRIMARY|SECONDARY, SECONDARY, 0] queues exactly
    MouseDown(Left), MouseDown(Right), MouseUp(Left), MouseUp(Right), in
    this order.  In general one call queues, for the primary, secondary and
    tertiary bit in turn (mapped to the left, right and middle button), one
    record if the bit changed and none if it did not, and stores the new
    mask; feeding the stored mask again queues nothing. *)
Theorem UpdateMouseButtons_edges (tk : Toolkit) :
  wf (events tk) -> last_buttons tk = 0 ->
  queued (events (UpdateMouseButtons_seq
     [0; B_PRIMARY_MOUSE_BUTTON;
      Z.lor B_PRIMARY_MOUSE_BUTTON B_SECONDARY_MOUSE_BUTTON;
      B_SECONDARY_MOUSE_BUTTON; 0] tk))
  = queued (events tk)
    ++ [MouseDown #KEY_LMOUSE; MouseDown #KEY_RMOUSE;
        MouseUp #KEY_LMOUSE; MouseUp #KEY_RMOUSE] /\
  (forall tk0 buttons, wf (events tk0) ->
     queued (events (UpdateMouseButtons buttons tk0))
     = queued (events tk0)
       ++ button_edge (last_buttons tk0) buttons 0 #KEY_LMOUSE
       ++ button_edge (last_buttons tk0) buttons 1 #KEY_RMOUSE
       ++ button_edge (last_buttons tk0) buttons 2 #KEY_MMOUSE /\
     last_buttons (UpdateMouseButtons buttons tk0) = buttons) /\
  (forall tk0, wf (events tk0) ->
     queued (events (UpdateMouseButtons (last_buttons tk0) tk0))
     = queued (events tk0)).
Proof.
  intros Hwf Hlast. split; [|split].
  - unfold UpdateMouseButtons_seq. cbn [foldl].
    destruct (UpdateMouseButtons_spec 0 tk Hwf) as (Hw1 & Hq1 & Hl1).
    set (tk1 := UpdateMouseButtons 0 tk) in *.
    destruct (UpdateMouseButtons_spec B_PRIMARY_MOUSE_BUTTON tk1 Hw1) as (Hw2 & Hq2 & Hl2).
    set (tk2 := UpdateMouseButtons B_PRIMARY_MOUSE_BUTTON tk1) in *.
    destruct (UpdateMouseButtons_spec
                (Z.lor B_PRIMARY_MOUSE_BUTTON B_SECONDARY_MOUSE_BUTTON) tk2 Hw2)
      as (Hw3 & Hq3 & Hl3).
    set (tk3 := UpdateMouseButtons _ tk2) in *.
    destruct (UpdateMouseButtons_spec B_SECONDARY_MOUSE_BUTTON tk3 Hw3) as (Hw4 & Hq4 & Hl4).
    set (tk4 := UpdateMouseButtons B_SECONDARY_MOUSE_BUTTON tk3) in *.
    destruct (UpdateMouseButtons_spec 0 tk4 Hw4) as (Hw5 & Hq5 & Hl5).
    rewrite Hq5, Hq4, Hq3, Hq2, Hq1, Hl4, Hl3, Hl2, Hl1, Hlast.
    rewrite <- !app_assoc. reflexivity.
  - intros tk0 buttons Hwf0.
    destruct (UpdateMouseButtons_spec buttons tk0 Hwf0) as (_ & Hq & Hl). done.
  - intros tk0 Hwf0.
    destruct (UpdateMouseButtons_spec (last_buttons tk0) tk0 Hwf0) as (_ & Hq & _).
    rewrite Hq. unfold button_edge. rewrite !Bool.eqb_reflx. by rewrite app_nil_r.
Qed.

(** *** Event pump *)

(** The pump loop drains the queue: with more fuel than queued records it
    ends on a [false] pull, having run the switch on every queued record in
    queue order. *)
Lemma Window_ProcessEvents_loop_spec :
  forall fuel q w, wf q -> (length (queued q) < fuel)%nat ->
    exists q',
      Window_ProcessEvents_loop fuel q w
      = (q', (dispatch_all (queued q) w).1, (dispatch_all (queued q) w).2, true)
      /\ wf q' /\ events_count q' = 0.
Proof.
  induction fuel as [|fuel IH]; intros q w Hwf Hfuel; [lia|].
  simpl. destruct (queued q) as [|x xs] eqn:Hq.
  - assert (H0 : events_count q = 0) by (by apply queued_nil_iff).
    rewrite (Events_Pull_empty q H0). by exists q.
  - destruct (Events_Pull_head q x xs Hwf Hq) as (q1 & -> & Hwf1 & Hq1 & _).
    simpl. destruct (Window_ProcessEvents_switch x w) as [w1 cs].
    destruct (IH q1 w1 Hwf1) as (q' & -> & Hwf' & Hc').
    { rewrite Hq1. simpl in Hfuel. lia. }
    rewrite Hq1. destruct (dispatch_all xs w1) as [w2 cs2]. by exists q'.
Qed.

Lemma Window_ProcessEvents_spec q w :
  wf q ->
  exists q',
    Window_ProcessEvents q w
    = (q', (dispatch_all (queued q) w).1, (dispatch_all (queued q) w).2, true)
    /\ wf q' /\ events_count q' = 0.
Proof.
  intros Hwf. apply Window_ProcessEvents_loop_spec; [done|].
  pose proof (length_queued q Hwf). lia.
Qed.

(** C8. Unknown native key codes.  When the record at the head of the
    queue is a KeyDown or KeyUp whose raw code is outside [key_map] or has
    a zero entry in it, [MapNativeKey] returns 0 and logs the code; the pump
    makes no other call for that record (no press, no release), leaves
    [WindowInfo] alone, and goes on to run every remaining record in order
    until the queue is empty. *)
Theorem Window_ProcessEvents_unknown_key (q : Events) (w : WindowInfo_t)
    (event : CCEvent) (rest : list CCEvent) :
  let raw := get_i32 (v1 event) in
  wf q -> queued q = event :: rest ->
  type event = CC_KEY_DOWN \/ type event = CC_KEY_UP ->
  raw < 0 \/ key_map_elems <= raw \/ key_map !!! Z.to_nat raw = 0 ->
  MapNativeKey raw = (0, [Platform_Log2_UnknownKey raw]) /\
  Window_ProcessEvents_switch event w = (w, [Platform_Log2_UnknownKey raw]) /\
  exists q',
    Window_ProcessEvents q w
    = (q', (dispatch_all rest w).1,
       Platform_Log2_UnknownKey raw :: (dispatch_all rest w).2, true)
    /\ events_count q' = 0.
Proof.
  intros raw Hwf Hq Hty Hraw.
  assert (Hmap : MapNativeKey raw = (0, [Platform_Log2_UnknownKey raw])).
  { unfold MapNativeKey. cbv zeta.
    destruct (Z.geb_spec raw 0) as [Hge|Hlt]; simpl.
    - destruct (Z.ltb_spec raw key_map_elems) as [Hin|Hout].
      + destruct Hraw as [? | [? | Hz]]; [lia | lia | by rewrite Hz].
      + reflexivity.
    - reflexivity. }
  assert (Hsw : Window_ProcessEvents_switch event w
                = (w, [Platform_Log2_UnknownKey raw])).
  { unfold Window_ProcessEvents_switch. cbv zeta. fold raw.
    rewrite Hmap. destruct Hty as [-> | ->]; reflexivity. }
  split; [exact Hmap|]. split; [exact Hsw|].
  destruct (Window_ProcessEvents_spec q w Hwf) as (q' & -> & _ & Hc).
  exists q'. split; [|exact Hc].
  rewrite Hq. simpl. rewrite Hsw.
  destruct (dispatch_all rest w) as [w2 cs2]. reflexivity.
Qed.

(** *** What the translator queues *)

Lemma appended_refl P q : wf q -> appended P q q.
Proof. intros Hwf. split; [done|]. exists []. by rewrite app_nil_r. Qed.

Lemma appended_push P e q : wf q -> P e -> appended P q (Events_Push e q).
Proof.
  intros Hwf HP. split; [by apply wf_Events_Push|].
  exists [e]. split; [by apply queued_Events_Push|]. by constructor.
Qed.

Lemma appended_trans P q1 q2 q3 :
  appended P q1 q2 -> appended P q2 q3 -> appended P q1 q3.
Proof.
  intros (_ & n1 & Hq1 & HP1) (Hwf & n2 & Hq2 & HP2). split; [done|].
  exists (n1 ++ n2). split; [by rewrite Hq2, Hq1, app_assoc|].
  by apply Forall_app.
Qed.

Lemma button_edge_not_none last buttons bit btn :
  Forall not_none (button_edge last buttons bit btn).
Proof.
  unfold button_edge.
  destruct (Bool.eqb _ _); [constructor|].
  constructor; [|constructor]. by destruct (Z.testbit buttons bit).
Qed.

Lemma UpdateMouseButton_appended btn pressed tk :
  wf (events tk) ->
  appended not_none (events tk) (events (UpdateMouseButton btn pressed tk)).
Proof.
  intros Hwf. apply appended_push; [done|].
  unfold not_none. simpl. by destruct (pressed =? 0).
Qed.

Lemma UpdateMouseButtons_appended buttons tk :
  wf (events tk) ->
  appended not_none (events tk) (events (UpdateMouseButtons buttons tk)).
Proof.
  intros Hwf. destruct (UpdateMouseButtons_spec buttons tk Hwf) as (Hw & Hq & _).
  split; [done|]. eexists. split; [exact Hq|].
  repeat apply Forall_app_2; apply button_edge_not_none.
Qed.

Lemma ProcessKeyInput_appended msg tk :
  wf (events tk) ->
  appended not_none (events tk) (events (ProcessKeyInput msg tk)).
Proof.
  intros Hwf. unfold ProcessKeyInput.
  destruct (FindString "bytes" msg) as [value|]; [|by apply appended_refl].
  destruct (Convert_Utf8ToCodepoint value) as [cp|]; [|by apply appended_refl].
  by apply appended_push.
Qed.

(** After the switch of the window translator: the globals hold what they
    held plus edge records, and the record left in [event] is either still
    zeroed (type [CC_NONE]) or has a type other than [CC_NONE]. *)
Lemma CC_BWindow_switch_appended msg tk :
  wf (events tk) ->
  appended not_none (events tk) (events (CC_BWindow_switch msg tk).2).
Proof.
  intros Hwf. unfold CC_BWindow_switch. cbv zeta.
  destruct (what msg); simpl;
    repeat match goal with
    | |- context [match ?o with Some _ => _ | None => _ end] => destruct o
    | |- context [let '(_, _) := ?p in _] => destruct p
    end; simpl;
    first [by apply appended_refl | by apply UpdateMouseButtons_appended].
Qed.

Lemma CC_BWindow_DispatchMessage_appended msg tk :
  wf (events tk) ->
  appended not_none (events tk) (events (CC_BWindow_DispatchMessage msg tk)).
Proof.
  intros Hwf. unfold CC_BWindow_DispatchMessage.
  pose proof (CC_BWindow_switch_appended msg tk Hwf) as Hsw.
  destruct (CC_BWindow_switch msg tk) as [event tk1]. simpl in Hsw.
  cbv zeta. simpl.
  assert (H2 : appended not_none (events tk)
                 (events (if type event =? 0 then tk1 else push event tk1))).
  { destruct (Z.eqb_spec (type event) 0) as [|Hnz]; [done|].
    eapply appended_trans; [exact Hsw|].
    apply appended_push; [apply Hsw|exact Hnz]. }
  destruct (what msg); try exact H2.
  eapply appended_trans; [exact H2|].
  apply ProcessKeyInput_appended, H2.
Qed.

Lemma CC_BApp_DispatchMessage_appended msg tk :
  wf (events tk) ->
  appended not_none (events tk) (events (CC_BApp_DispatchMessage msg tk)).
Proof.
  intros Hwf. unfold CC_BApp_DispatchMessage. cbv zeta.
  destruct (what msg); simpl; try (by apply appended_refl).
  - by apply appended_push.
  - destruct (FindRef "refs" msg); simpl; by apply appended_refl.
Qed.

(** C9. No record of kind None is queued.  Whatever the message, the
    window translator, the application translator and the two helpers that
    build a record themselves ([ProcessKeyInput], [UpdateMouseButton]) leave
    the queue holding what it held followed by new records whose [type] is
    never [CC_NONE]; so a queue free of [CC_NONE] records stays free of
    them.  A message that matches no case of a translator's switch (for
    the window: an unlisted code, [B_REFS_RECEIVED], or the empty case
    [B_WINDOW_MOVED]; for the application: anything but a quit request)
    changes nothing in the queue. *)
Theorem no_CC_NONE_queued (msg : BMessage) (tk : Toolkit) :
  wf (events tk) ->
  appended not_none (events tk) (events (CC_BWindow_DispatchMessage msg tk)) /\
  appended not_none (events tk) (events (CC_BApp_DispatchMessage msg tk)) /\
  appended not_none (events tk) (events (ProcessKeyInput msg tk)) /\
  (forall btn pressed,
     appended not_none (events tk) (events (UpdateMouseButton btn pressed tk))) /\
  (Forall not_none (queued (events tk)) ->
     Forall not_none (queued (events (CC_BWindow_DispatchMessage msg tk))) /\
     Forall not_none (queued (events (CC_BApp_DispatchMessage msg tk)))) /\
  ((exists code, what msg = B_OTHER code) \/ what msg = B_REFS_RECEIVED \/
   what msg = B_WINDOW_MOVED ->
     events (CC_BWindow_DispatchMessage msg tk) = events tk) /\
  (what msg <> B_QUIT_REQUESTED ->
     events (CC_BApp_DispatchMessage msg tk) = events tk).
Proof.
  intros Hwf.
  pose proof (CC_BWindow_DispatchMessage_appended msg tk Hwf) as HW.
  pose proof (CC_BApp_DispatchMessage_appended msg tk Hwf) as HA.
  split; [exact HW|]. split; [exact HA|].
  split; [by apply ProcessKeyInput_appended|].
  split; [intros; by apply UpdateMouseButton_appended|].
  split.
  - intros Hold.
    destruct HW as (_ & nw & -> & Hnw), HA as (_ & na & -> & Hna).
    split; by apply Forall_app.
  - split.
    + unfold CC_BWindow_DispatchMessage, CC_BWindow_switch.
      intros [[code ->] | [-> | ->]]; reflexivity.
    + unfold CC_BApp_DispatchMessage. intros Hq.
      destruct (what msg); try done.
      by destruct (FindRef "refs" msg).
Qed.

(** C10. Key down.  A [B_KEY_DOWN] message with a "key" field and "bytes"
    that decode queues exactly KeyDown(raw code) and then
    KeyInput(codepoint).  When the "bytes" are missing or fail to decode it
    queues the KeyDown record alone, and a [B_UNMAPPED_KEY_DOWN] message
    queues the KeyDown record alone whatever else it carries. *)
Theorem key_down_records (msg : BMessage) (tk : Toolkit) (raw : Z) :
  wf (events tk) ->
  FindInt32 "key" msg = Some raw ->
  let after := queued (events (CC_BWindow_DispatchMessage msg tk)) in
  (what msg = B_KEY_DOWN ->
   forall value cp,
     FindString "bytes" msg = Some value ->
     Convert_Utf8ToCodepoint value = Some cp ->
     after = queued (events tk) ++ [KeyDown raw; KeyInput cp]) /\
  (what msg = B_KEY_DOWN ->
   (FindString "bytes" msg = None \/
    exists value, FindString "bytes" msg = Some value /\
                  Convert_Utf8ToCodepoint value = None) ->
   after = queued (events tk) ++ [KeyDown raw]) /\
  (what msg = B_UNMAPPED_KEY_DOWN ->
   after = queued (events tk) ++ [KeyDown raw]).
Proof.
  intros Hwf Hkey after. subst after.
  destruct (push_spec (KeyDown raw) tk Hwf) as (Hw1 & Hq1 & _).
  unfold CC_BWindow_DispatchMessage, CC_BWindow_switch. cbv zeta.
  split; [|split]; intros Hwhat; rewrite Hwhat, Hkey; simpl.
  - intros value cp Hbytes Hcp. unfold ProcessKeyInput.
    rewrite Hbytes, Hcp. cbv zeta.
    destruct (push_spec (KeyInput cp) (push (KeyDown raw) tk) Hw1) as (_ & Hq2 & _).
    change (queued (events (push (KeyInput cp) (push (KeyDown raw) tk)))
            = queued (events tk) ++ [KeyDown raw; KeyInput cp]).
    rewrite Hq2, Hq1, <- app_assoc. reflexivity.
  - intros Hfail. unfold ProcessKeyInput.
    destruct Hfail as [-> | (value & -> & ->)]; exact Hq1.
  - exact Hq1.
Qed.

(** *** From a toolkit message to the calls into the game *)

Lemma ProcessKeyInput_spec msg tk :
  wf (events tk) ->
  wf (events (ProcessKeyInput msg tk)) /\
  queued (events (ProcessKeyInput msg tk))
  = queued (events tk)
    ++ match FindString "bytes" msg with
       | Some value =>
           match Convert_Utf8ToCodepoint value with
           | Some cp => [KeyInput cp]
           | None => []
           end
       | None => []
       end.
Proof.
  intros Hwf. unfold ProcessKeyInput.
  destruct (FindString "bytes" msg) as [value|]; [|by rewrite app_nil_r].
  destruct (Convert_Utf8ToCodepoint value) as [cp|]; [|by rewrite app_nil_r].
  destruct (push_spec (KeyInput cp) tk Hwf) as (H1 & H2 & _). done.
Qed.

(** What one call of the window translator leaves in the queue: what the
    switch left (edge records included), then the record in [event] unless
    its type is still 0, then the KeyInput record. *)
Lemma CC_BWindow_DispatchMessage_queued msg tk :
  wf (events tk) ->
  wf (events (CC_BWindow_DispatchMessage msg tk)) /\
  queued (events (CC_BWindow_DispatchMessage msg tk))
  = queued (events (CC_BWindow_switch msg tk).2)
    ++ (if type (CC_BWindow_switch msg tk).1 =? 0 then []
        else [(CC_BWindow_switch msg tk).1])
    ++ key_input_records msg.
Proof.
  intros Hwf. unfold CC_BWindow_DispatchMessage.
  pose proof (CC_BWindow_switch_appended msg tk Hwf) as [Hwf1 _].
  destruct (CC_BWindow_switch msg tk) as [event tk1]. simpl in *.
  set (tk2 := if type event =? 0 then tk1 else push event tk1).
  assert (H2 : wf (events tk2) /\
               queued (events tk2)
               = queued (events tk1) ++ (if type event =? 0 then [] else [event])).
  { unfold tk2. destruct (type event =? 0); [by rewrite app_nil_r|].
    destruct (push_spec event tk1 Hwf1) as (? & ? & _). done. }
  destruct H2 as [Hwf2 Hq2]. unfold key_input_records.
  destruct (ProcessKeyInput_spec msg tk2 Hwf2) as [Hwf3 Hq3].
  destruct (what msg); simpl;
    try (split; [exact Hwf2|by rewrite Hq2, app_nil_r]).
  split; [exact Hwf3|]. by rewrite Hq3, Hq2, <- app_assoc.
Qed.

Lemma queued_empty q : wf q -> events_count q = 0 -> queued q = [].
Proof. intros Hwf H0. by apply queued_nil_iff. Qed.

(** The pump run on a queue holding exactly [es]. *)
Lemma Window_ProcessEvents_queued q w es :
  wf q -> queued q = es ->
  exists q',
    Window_ProcessEvents q w
    = (q', (dispatch_all es w).1, (dispatch_all es w).2, true)
    /\ wf q' /\ events_count q' = 0.
Proof. intros Hwf <-. by apply Window_ProcessEvents_spec. Qed.

Lemma f32_neg_range bits : 0 <= bits < 2 ^ 32 -> 0 <= f32_neg bits < 2 ^ 32.
Proof.
  intros Hb. unfold f32_neg.
  assert (H0 : 0 <= Z.lxor bits (2 ^ 31)) by (apply Z.lxor_nonneg; lia).
  split; [exact H0|].
  destruct (Z.eq_dec (Z.lxor bits (2 ^ 31)) 0) as [->|Hne]; [lia|].
  apply Z.log2_lt_pow2; [lia|].
  pose proof (Z.log2_lxor bits (2 ^ 31) ltac:(lia) ltac:(lia)) as Hl.
  rewrite Z.log2_pow2 in Hl by lia.
  destruct (Z.eq_dec bits 0) as [->|Hbn].
  - change (Z.log2 0) with 0 in Hl. lia.
  - assert (Z.log2 bits < 32) by (apply Z.log2_lt_pow2; lia). lia.
Qed.

(** X1. Scroll polarity, end to end.  A wheel message carrying delta [d]
    makes the pump call [Mouse_ScrollWheel] once, with [d] negated: the
    sign bit flipped and every other bit kept.  Negating twice gives [d]
    back and a 32-bit pattern stays a 32-bit pattern. *)
Theorem wheel_delta_negated (msg : BMessage) (tk : Toolkit) (w : WindowInfo_t)
    (delta : Z) :
  wf (events tk) -> events_count (events tk) = 0 ->
  what msg = B_MOUSE_WHEEL_CHANGED ->
  FindFloat "be:wheel_delta_y" msg = Some delta ->
  0 <= delta < 2 ^ 32 ->
  (exists q',
     Window_ProcessEvents (events (CC_BWindow_DispatchMessage msg tk)) w
     = (q', w, [Mouse_ScrollWheel (f32_neg delta)], true)
     /\ events_count q' = 0) /\
  Z.testbit (f32_neg delta) 31 = negb (Z.testbit delta 31) /\
  (forall n, n <> 31 -> Z.testbit (f32_neg delta) n = Z.testbit delta n) /\
  f32_neg (f32_neg delta) = delta /\
  0 <= f32_neg delta < 2 ^ 32.
Proof.
  intros Hwf H0 Hwhat Hfind Hrange.
  split; [|split; [|split; [|split]]].
  - destruct (CC_BWindow_DispatchMessage_queued msg tk Hwf) as [Hwf' Hq].
    unfold CC_BWindow_switch, key_input_records in Hq.
    rewrite Hwhat, Hfind in Hq. simpl in Hq.
    rewrite (queued_empty _ Hwf H0) in Hq.
    destruct (Window_ProcessEvents_queued _ w _ Hwf' Hq) as (q' & -> & _ & Hc).
    by exists q'.
  - unfold f32_neg. rewrite Z.lxor_spec, Z.pow2_bits_true by lia.
    by destruct (Z.testbit delta 31).
  - intros n Hn. unfold f32_neg.
    rewrite Z.lxor_spec, Z.pow2_bits_false by lia.
    by destruct (Z.testbit delta n).
  - unfold f32_neg. rewrite Z.lxor_assoc, Z.lxor_nilpotent. apply Z.lxor_0_r.
  - by apply f32_neg_range.
Qed.

Lemma int32_in_range (v : Z) : INT_MIN <= v <= INT_MAX -> int32 v = v.
Proof.
  unfold INT_MIN, INT_MAX, int32. intros Hv.
  rewrite Z.mod_small by lia. lia.
Qed.

(** X2. Resize, end to end.  A resized message carrying width [a] and
    height [b] (the toolkit's inclusive extents, each an [int] below
    [INT_MAX], so that adding 1 does not overflow) makes the pump store
    [a + 1] by [b + 1] in [WindowInfo], leave the other fields alone and
    raise Resized once.  So after [Window_SetSize(width, height)] with a
    positive size of at most 2^24 (which the [float] arguments of
    [ResizeTo] hold exactly), whose only resize request is
    [ResizeTo(width - 1, height - 1)], the message the toolkit sends for
    that request brings [WindowInfo] to exactly [width] by [height]. *)
Theorem resize_adds_one (tk : Toolkit) (w : WindowInfo_t) (msg : BMessage)
    (a b : Z) :
  wf (events tk) -> events_count (events tk) = 0 ->
  what msg = B_WINDOW_RESIZED ->
  FindInt32 "width" msg = Some a -> FindInt32 "height" msg = Some b ->
  INT_MIN <= a < INT_MAX -> INT_MIN <= b < INT_MAX ->
  (exists q',
     Window_ProcessEvents (events (CC_BWindow_DispatchMessage msg tk)) w
     = (q', {| Width := a + 1; Height := b + 1;
               Focused := Focused w; Exists := Exists w |},
        [Event_RaiseVoid Resized], true)
     /\ events_count q' = 0) /\
  (forall width height,
     0 < width <= 2 ^ 24 -> 0 < height <= 2 ^ 24 ->
     Window_SetSize width height
     = [win_Lock; win_ResizeTo (width - 1) (height - 1); win_Unlock] /\
     exists q',
       Window_ProcessEvents
         (events (CC_BWindow_DispatchMessage
                    (resized_message (width - 1) (height - 1)) tk)) w
       = (q', {| Width := width; Height := height;
                 Focused := Focused w; Exists := Exists w |},
          [Event_RaiseVoid Resized], true)).
Proof.
  intros Hwf H0 Hwhat Hw Hh Ha Hb.
  assert (Hgen : forall m a' b',
            what m = B_WINDOW_RESIZED ->
            FindInt32 "width" m = Some a' -> FindInt32 "height" m = Some b' ->
            INT_MIN <= a' < INT_MAX -> INT_MIN <= b' < INT_MAX ->
            exists q',
              Window_ProcessEvents (events (CC_BWindow_DispatchMessage m tk)) w
              = (q', {| Width := a' + 1; Height := b' + 1;
                        Focused := Focused w; Exists := Exists w |},
                 [Event_RaiseVoid Resized], true)
              /\ events_count q' = 0).
  { intros m a' b' Hm Hfa Hfb Hra Hrb.
    destruct (CC_BWindow_DispatchMessage_queued m tk Hwf) as [Hwf' Hq].
    unfold CC_BWindow_switch, key_input_records in Hq.
    rewrite Hm, Hfa, Hfb in Hq.
    rewrite (int32_in_range (a' + 1)), (int32_in_range (b' + 1)) in Hq by lia.
    simpl in Hq.
    rewrite (queued_empty _ Hwf H0) in Hq.
    destruct (Window_ProcessEvents_queued _ w _ Hwf' Hq) as (q' & -> & _ & Hc).
    by exists q'. }
  split; [by apply Hgen|].
  intros width height Hwidth Hheight. split; [reflexivity|].
  assert (H24 : 2 ^ 24 < INT_MAX) by (by vm_compute).
  assert (Hmin : INT_MIN < 0) by (by vm_compute).
  destruct (Hgen (resized_message (width - 1) (height - 1)) (width - 1) (height - 1))
    as (q' & Hp & _); try reflexivity; try lia.
  exists q'. rewrite Hp. repeat f_equal; lia.
Qed.

Lemma dispatch_all_cons e es w w1 cs :
  Window_ProcessEvents_switch e w = (w1, cs) ->
  dispatch_all (e :: es) w
  = ((dispatch_all es w1).1, cs ++ (dispatch_all es w1).2).
Proof. intros H. simpl. rewrite H. by destruct (dispatch_all es w1). Qed.

(** X3. Key press and text input, end to end.  A [B_KEY_DOWN] message
    whose native code has a non-zero entry in [key_map] makes the pump call
    [Input_SetPressed] with that entry, log nothing, and, when the message
    also carries decodable bytes, raise the text-input event for the
    codepoint afterwards.  A [B_KEY_UP] message with the same code makes it
    call [Input_SetReleased] with the same entry. *)
Theorem mapped_key_reaches_input (msg : BMessage) (tk : Toolkit)
    (w : WindowInfo_t) (raw : Z) :
  wf (events tk) -> events_count (events tk) = 0 ->
  FindInt32 "key" msg = Some raw ->
  0 <= raw < key_map_elems -> key_map !!! Z.to_nat raw <> 0 ->
  let key := key_map !!! Z.to_nat raw in
  let text :=
    match FindString "bytes" msg with
    | Some value =>
        match Convert_Utf8ToCodepoint value with
        | Some cp => [Event_RaiseInt_Press cp]
        | None => []
        end
    | None => []
    end in
  (what msg = B_KEY_DOWN ->
   exists q',
     Window_ProcessEvents (events (CC_BWindow_DispatchMessage msg tk)) w
     = (q', w, Input_SetPressed key :: text, true)) /\
  (what msg = B_KEY_UP ->
   exists q',
     Window_ProcessEvents (events (CC_BWindow_DispatchMessage msg tk)) w
     = (q', w, [Input_SetReleased key], true)).
Proof.
  intros Hwf H0 Hkey Hrange Hnz key text.
  assert (Hmap : MapNativeKey raw = (key, [])).
  { unfold MapNativeKey. cbv zeta.
    destruct (Z.geb_spec raw 0); [|lia].
    destruct (Z.ltb_spec raw key_map_elems); [|lia]. simpl. fold key.
    destruct (Z.eqb_spec key 0); [done|reflexivity]. }
  assert (Hk0 : (key =? 0) = false) by (by apply Z.eqb_neq).
  assert (Hdown : forall v, Window_ProcessEvents_switch
                    {| type := CC_KEY_DOWN; v1 := i32 raw; v2 := v |} w
                  = (w, [Input_SetPressed key])).
  { intros v. unfold Window_ProcessEvents_switch. cbv zeta.
    change (get_i32 (v1 {| type := CC_KEY_DOWN; v1 := i32 raw; v2 := v |})) with raw.
    rewrite Hmap. simpl. by rewrite Hk0. }
  assert (Hup : forall v, Window_ProcessEvents_switch
                  {| type := CC_KEY_UP; v1 := i32 raw; v2 := v |} w
                = (w, [Input_SetReleased key])).
  { intros v. unfold Window_ProcessEvents_switch. cbv zeta.
    change (get_i32 (v1 {| type := CC_KEY_UP; v1 := i32 raw; v2 := v |})) with raw.
    rewrite Hmap. simpl. by rewrite Hk0. }
  destruct (CC_BWindow_DispatchMessage_queued msg tk Hwf) as [Hwf' Hq].
  unfold CC_BWindow_switch, key_input_records in Hq.
  pose proof (queued_empty _ Hwf H0) as Hnil.
  split; intros Hwhat; rewrite Hwhat, Hkey in Hq; simpl in Hq;
    rewrite Hnil in Hq;
    destruct (Window_ProcessEvents_queued _ w _ Hwf' Hq) as (q' & -> & _ & _);
    exists q'; simpl app;
    change (set_v1 (i32 raw) (set_type CC_KEY_DOWN CCEvent_zero))
      with {| type := CC_KEY_DOWN; v1 := i32 raw; v2 := f32 0 |};
    change (set_v1 (i32 raw) (set_type CC_KEY_UP CCEvent_zero))
      with {| type := CC_KEY_UP; v1 := i32 raw; v2 := f32 0 |}.
  - rewrite !(dispatch_all_cons _ _ _ _ _ (Hdown (f32 0))). unfold text.
    destruct (FindString "bytes" msg) as [value|];
      [destruct (Convert_Utf8ToCodepoint value) as [cp|]|]; reflexivity.
  - rewrite !(dispatch_all_cons _ _ _ _ _ (Hup (f32 0))). reflexivity.
Qed.

(** X4. Quit, end to end.  A quit request seen by the window translator,
    or by the application translator (which is where [Window_Close] posts
    its message), makes the pump clear [WindowInfo.Exists], keep the other
    fields and raise Closing once. *)
Theorem quit_request_closes (msg : BMessage) (tk : Toolkit) (w : WindowInfo_t) :
  wf (events tk) -> events_count (events tk) = 0 ->
  what msg = B_QUIT_REQUESTED ->
  let closed :=
    {| Width := Width w; Height := Height w; Focused := Focused w;
       Exists := false |} in
  (exists q',
     Window_ProcessEvents (events (CC_BWindow_DispatchMessage msg tk)) w
     = (q', closed, [Event_RaiseVoid Closing], true)) /\
  (exists q',
     Window_ProcessEvents (events (CC_BApp_DispatchMessage msg tk)) w
     = (q', closed, [Event_RaiseVoid Closing], true)) /\
  (exists q',
     Window_ProcessEvents (events (CC_BApp_DispatchMessage Window_Close tk)) w
     = (q', closed, [Event_RaiseVoid Closing], true)).
Proof.
  intros Hwf H0 Hwhat closed.
  assert (Happ : forall m, what m = B_QUIT_REQUESTED ->
            exists q',
              Window_ProcessEvents (events (CC_BApp_DispatchMessage m tk)) w
              = (q', closed, [Event_RaiseVoid Closing], true)).
  { intros m Hm.
    destruct (push_spec (set_type CC_WIN_QUIT CCEvent_zero)
                (call (Platform_LogConst "APP QUIT") tk) Hwf) as (Hw1 & Hq1 & _).
    simpl queued in Hq1 at 2. rewrite (queued_empty _ Hwf H0) in Hq1.
    assert (He : events (CC_BApp_DispatchMessage m tk)
                 = events (push (set_type CC_WIN_QUIT CCEvent_zero)
                             (call (Platform_LogConst "APP QUIT") tk))).
    { unfold CC_BApp_DispatchMessage. rewrite Hm. reflexivity. }
    rewrite He.
    destruct (Window_ProcessEvents_queued _ w _ Hw1 Hq1) as (q' & -> & _ & _).
    by exists q'. }
  split; [|split; [by apply Happ|by apply Happ]].
  destruct (CC_BWindow_DispatchMessage_queued msg tk Hwf) as [Hwf' Hq].
  unfold CC_BWindow_switch, key_input_records in Hq.
  rewrite Hwhat in Hq. simpl in Hq.
  rewrite (queued_empty _ Hwf H0) in Hq.
  destruct (Window_ProcessEvents_queued _ w _ Hwf' Hq) as (q' & -> & _ & _).
  by exists q'.
Qed.

(** What the switch of the pump does to [WindowInfo] for one record. *)
Lemma Window_ProcessEvents_switch_WindowInfo e w :
  let w' := (Window_ProcessEvents_switch e w).1 in
  (Width w', Height w')
  = (if type e =? CC_WIN_RESIZED then (get_i32 (v1 e), get_i32 (v2 e))
     else (Width w, Height w)) /\
  Focused w'
  = (if type e =? CC_WIN_FOCUS then get_i32 (v1 e) mod 256 else Focused w) /\
  Exists w' = Exists w && negb (type e =? CC_WIN_QUIT).
Proof.
  unfold Window_ProcessEvents_switch. cbv zeta.
  destruct e as [t a b]. simpl.
  repeat match goal with
  | |- context [t =? ?k] =>
      destruct (Z.eqb_spec t k) as [->|];
      [simpl; try destruct (MapNativeKey _);
       repeat split; by rewrite ?andb_true_r, ?andb_false_r|]
  end.
  simpl. repeat split. by rewrite andb_true_r.
Qed.

Lemma dispatch_all_WindowInfo es :
  forall w,
    let w' := (dispatch_all es w).1 in
    (Width w', Height w') = last_resized es (Width w, Height w) /\
    Focused w' = last_focus es (Focused w) /\
    Exists w' = Exists w && negb (has_quit es).
Proof.
  induction es as [|e es IH]; intros w; simpl.
  - repeat split. by rewrite andb_true_r.
  - pose proof (Window_ProcessEvents_switch_WindowInfo e w) as (Hg & Hf & Hx).
    destruct (Window_ProcessEvents_switch e w) as [w1 cs]. simpl in *.
    specialize (IH w1). destruct (dispatch_all es w1) as [w2 cs2]. simpl in *.
    destruct IH as (IHg & IHf & IHx).
    unfold last_resized, last_focus in *. simpl.
    rewrite IHg, IHf, IHx, Hg, Hf, Hx.
    repeat split. rewrite negb_orb, andb_assoc. reflexivity.
Qed.

(** X5. [WindowInfo] after a drain.  Whatever the queue holds, after the
    pump the width and height are those of the last Resized record (the
    old ones if there is none), the focus flag is that of the last
    FocusChanged record, and [Exists] is true only if it was true and no
    Quit record was drained: nothing the pump handles sets it again. *)
Theorem WindowInfo_after_drain (q : Events) (w : WindowInfo_t) :
  wf q ->
  exists q' cs,
    Window_ProcessEvents q w
    = (q', {| Width := (last_resized (queued q) (Width w, Height w)).1;
              Height := (last_resized (queued q) (Width w, Height w)).2;
              Focused := last_focus (queued q) (Focused w);
              Exists := Exists w && negb (has_quit (queued q)) |},
       cs, true).
Proof.
  intros Hwf.
  destruct (Window_ProcessEvents_spec q w Hwf) as (q' & -> & _ & _).
  pose proof (dispatch_all_WindowInfo (queued q) w) as (Hg & Hf & Hx).
  destruct (dispatch_all (queued q) w) as [[wd ht fc ex] cs]. simpl in *.
  exists q', cs. rewrite <- Hg, <- Hf, <- Hx. reflexivity.
Qed.

(** *** Button state the game sees *)

Lemma net_presses_app btn a b :
  net_presses btn (a ++ b) = net_presses btn a + net_presses btn b.
Proof.
  induction a as [|e a IH]; simpl; [reflexivity|]. rewrite IH. lia.
Qed.

Lemma net_presses_button_edge k last buttons bit btn :
  net_presses k (button_edge last buttons bit btn)
  = if decide (btn = k)
    then Z.b2z (Z.testbit buttons bit) - Z.b2z (Z.testbit last bit)
    else 0.
Proof.
  unfold button_edge.
  destruct (Z.testbit buttons bit), (Z.testbit last bit); simpl;
    destruct (decide (btn = k)) as [->|Hne]; try reflexivity;
    destruct (decide (i32 _ = i32 k)) as [Heq|Hneq];
    try reflexivity; congruence.
Qed.

Lemma last_cons (l : list Z) :
  forall a d, List.last (a :: l) d = List.last l a.
Proof.
  induction l as [|b l IH]; intros a d; [reflexivity|].
  change (List.last (a :: b :: l) d) with (List.last (b :: l) d).
  rewrite (IH b d), (IH b a). reflexivity.
Qed.

(** X6. No missed and no duplicated edge.  When the three button
    constants are distinct, after any sequence of mask notifications the
    presses minus the releases queued for a button equal its bit in the
    last mask minus its bit in the shadow state before: a consumer that
    starts in agreement with the shadow state ends in agreement with the
    last mask.  The shadow state ends as the last mask. *)
Theorem UpdateMouseButtons_balance (masks : list Z) (tk : Toolkit) :
  #KEY_LMOUSE <> #KEY_RMOUSE -> #KEY_LMOUSE <> #KEY_MMOUSE ->
  #KEY_RMOUSE <> #KEY_MMOUSE ->
  wf (events tk) ->
  let tk' := UpdateMouseButtons_seq masks tk in
  let final := last_mask masks (last_buttons tk) in
  let change bit :=
    Z.b2z (Z.testbit final bit) - Z.b2z (Z.testbit (last_buttons tk) bit) in
  last_buttons tk' = final /\
  exists new,
    queued (events tk') = queued (events tk) ++ new /\
    net_presses #KEY_LMOUSE new = change 0 /\
    net_presses #KEY_RMOUSE new = change 1 /\
    net_presses #KEY_MMOUSE new = change 2.
Proof.
  intros Hlr Hlm Hrm. revert tk.
  induction masks as [|m masks IH]; intros tk Hwf; cbv zeta.
  - simpl. split; [reflexivity|]. exists [].
    rewrite app_nil_r. repeat split; simpl; lia.
  - destruct (UpdateMouseButtons_spec m tk Hwf) as (Hw1 & Hq1 & Hl1).
    specialize (IH (UpdateMouseButtons m tk) Hw1). cbv zeta in IH.
    rewrite Hl1 in IH. destruct IH as (Hlast & new & Hq & HL & HR & HM).
    unfold last_mask in *. rewrite last_cons.
    change (UpdateMouseButtons_seq (m :: masks) tk)
      with (UpdateMouseButtons_seq masks (UpdateMouseButtons m tk)).
    split; [exact Hlast|].
    eexists. split; [rewrite Hq, Hq1, <- !app_assoc; reflexivity|].
    rewrite !net_presses_app, !net_presses_button_edge, HL, HR, HM.
    repeat split;
      repeat match goal with
      | |- context [decide (?a = ?b)] =>
          destruct (decide (a = b)); try congruence
      end; lia.
Qed.

(** *** Messages without payload *)

(** X7. Missing fields.  A message none of whose fields can be read
    queues nothing, except that a quit request queues a Quit record and an
    update notification a RedrawNeeded record; the shadow button mask is
    left alone, and the message is still forwarded to the base class as the
    last thing done.  Text input does not depend on the key field: a
    [B_KEY_DOWN] without a readable "key" but with decodable bytes queues
    the KeyInput record alone. *)
Theorem unreadable_message (msg : BMessage) (tk : Toolkit) :
  wf (events tk) ->
  (no_payload msg ->
   queued (events (CC_BWindow_DispatchMessage msg tk))
   = queued (events tk)
     ++ match what msg with
        | B_QUIT_REQUESTED => [{| type := CC_WIN_QUIT; v1 := f32 0; v2 := f32 0 |}]
        | _UPDATE_ => [{| type := CC_WIN_REDRAW; v1 := f32 0; v2 := f32 0 |}]
        | _ => []
        end /\
   last_buttons (CC_BWindow_DispatchMessage msg tk) = last_buttons tk /\
   List.last (calls (CC_BWindow_DispatchMessage msg tk)) (BWindow_DispatchMessage msg)
   = BWindow_DispatchMessage msg /\
   calls (CC_BWindow_DispatchMessage msg tk) <> []) /\
  (forall value cp,
     what msg = B_KEY_DOWN -> FindInt32 "key" msg = None ->
     FindString "bytes" msg = Some value ->
     Convert_Utf8ToCodepoint value = Some cp ->
     queued (events (CC_BWindow_DispatchMessage msg tk))
     = queued (events tk) ++ [KeyInput cp]).
Proof.
  intros Hwf. split.
  - intros (Hkey & Hbtn & Hwhere & Hwheel & Hact & Hsize & Hbytes).
    destruct (CC_BWindow_DispatchMessage_queued msg tk Hwf) as [_ Hq].
    rewrite Hq. unfold CC_BWindow_DispatchMessage, CC_BWindow_switch,
      key_input_records, ProcessKeyInput.
    rewrite Hkey, Hbtn, Hwhere, Hwheel, Hact, Hbytes.
    assert (Hsz : match FindInt32 "width" msg, FindInt32 "height" msg with
                  | Some width, Some height =>
                      (set_v2 (i32 (int32 (height + 1)))
                         (set_v1 (i32 (int32 (width + 1)))
                            (set_type CC_WIN_RESIZED CCEvent_zero)), tk)
                  | _, _ => (CCEvent_zero, tk)
                  end = (CCEvent_zero, tk)).
    { destruct Hsize as [-> | ->]; [reflexivity|].
      by destruct (FindInt32 "width" msg). }
    destruct (what msg); rewrite ?Hsz; simpl; rewrite ?app_nil_r;
      (split; [reflexivity|]; split; [reflexivity|];
       split; [apply last_last|];
       intros Hnil; apply app_eq_nil in Hnil as [_ Hnil]; discriminate).
  - intros value cp Hwhat Hkey Hbytes Hcp.
    destruct (CC_BWindow_DispatchMessage_queued msg tk Hwf) as [_ Hq].
    rewrite Hq. unfold CC_BWindow_switch, key_input_records.
    rewrite Hwhat, Hkey, Hbytes, Hcp. reflexivity.
Qed.

(** *** Draining twice *)

Lemma Window_ProcessEvents_loop_capacity :
  forall fuel q w, wf q ->
    events_capacity (Window_ProcessEvents_loop fuel q w).1.1.1 = events_capacity q.
Proof.
  induction fuel as [|fuel IH]; intros q w Hwf; [reflexivity|].
  simpl. destruct (queued q) as [|x xs] eqn:Hq.
  - rewrite (Events_Pull_empty q) by (by apply queued_nil_iff). reflexivity.
  - destruct (Events_Pull_head q x xs Hwf Hq) as (q1 & -> & Hwf1 & _ & Hcap).
    destruct (Window_ProcessEvents_switch x w) as [w1 cs].
    specialize (IH q1 w1 Hwf1).
    destruct (Window_ProcessEvents_loop fuel q1 w1) as [[[q2 w2] cs2] d].
    simpl in *. congruence.
Qed.

(** X8. The pump drains and can be run again.  From any well-formed
    queue the pump ends on a pull that returned [false], leaves the queue
    empty, keeps its capacity (storage is never given back), and a second
    run right after makes no call and changes nothing. *)
Theorem Window_ProcessEvents_twice (q : Events) (w : WindowInfo_t) :
  wf q ->
  exists q' w' cs,
    Window_ProcessEvents q w = (q', w', cs, true) /\
    events_count q' = 0 /\
    events_capacity q' = events_capacity q /\
    Window_ProcessEvents q' w' = (q', w', [], true).
Proof.
  intros Hwf.
  pose proof (Window_ProcessEvents_loop_capacity
                (S (Z.to_nat (events_count q))) q w Hwf) as Hcap.
  destruct (Window_ProcessEvents_spec q w Hwf) as (q' & Hp & Hwf' & Hc).
  unfold Window_ProcessEvents in *. rewrite Hp in Hcap. simpl in Hcap.
  eexists q', _, _. split; [exact Hp|]. split; [exact Hc|]. split; [exact Hcap|].
  rewrite Hc. simpl. rewrite (Events_Pull_empty q' Hc). reflexivity.
Qed.

(** *** Storage of the queue *)

Lemma Events_Push_count_capacity e q :
  events_count (Events_Push e q) = events_count q + 1 /\
  events_capacity (Events_Push e q)
  = if events_count q >=? events_capacity q
    then events_capacity q + 20 else events_capacity q.
Proof.
  unfold Events_Push. cbv zeta. simpl.
  by destruct (events_count q >=? events_capacity q).
Qed.

Lemma run_storage ops :
  forall q P,
    wf q -> events_capacity q mod 20 = 0 ->
    0 <= P -> events_count q <= P -> events_capacity q <= 20 + 20 * (P / 20) ->
    let q' := (run ops q).1 in
    let P' := P + Z.of_nat (length (pushed ops)) in
    wf q' /\ events_capacity q' mod 20 = 0 /\
    events_count q' <= P' /\ events_capacity q' <= 20 + 20 * (P' / 20) /\
    events_capacity q <= events_capacity q'.
Proof.
  induction ops as [|[e|] ops IH]; intros q P Hwf Hmod HP Hcnt Hcap; cbv zeta.
  - simpl. rewrite Z.add_0_r. repeat split; try done; apply Hwf.
  - simpl run. simpl pushed.
    destruct (Events_Push_count_capacity e q) as [Hc' Hk'].
    pose proof (wf_Events_Push e q Hwf) as Hwf'.
    assert (Hstep : events_capacity (Events_Push e q) mod 20 = 0 /\
                    events_capacity (Events_Push e q) <= 20 + 20 * ((P + 1) / 20) /\
                    events_capacity q <= events_capacity (Events_Push e q)).
    { rewrite Hk'. destruct (Z.geb_spec (events_count q) (events_capacity q)) as [Hfull|Hroom].
      - pose proof (Z.div_mod (events_capacity q) 20 ltac:(lia)) as Hd.
        rewrite Hmod in Hd.
        assert (events_capacity q / 20 <= P / 20) by (apply Z.div_le_mono; lia).
        assert (P / 20 <= (P + 1) / 20) by (apply Z.div_le_mono; lia).
        split; [|lia].
        rewrite <- Z.add_mod_idemp_l, Hmod by lia. reflexivity.
      - assert (P / 20 <= (P + 1) / 20) by (apply Z.div_le_mono; lia).
        split; [done|lia]. }
    destruct Hstep as (Hm' & Hb' & Hge).
    destruct (IH (Events_Push e q) (P + 1) Hwf' Hm' ltac:(lia) ltac:(lia) Hb')
      as (H1 & H2 & H3 & H4 & H5).
    cbv zeta in *. simpl length.
    replace (P + Z.of_nat (S (length (pushed ops))))
      with (P + 1 + Z.of_nat (length (pushed ops))) by lia.
    repeat split; try done; try apply H1. lia.
  - simpl run. simpl pushed.
    destruct (queued q) as [|x xs] eqn:Hq.
    + rewrite (Events_Pull_empty q) by (by apply queued_nil_iff).
      specialize (IH q P Hwf Hmod HP Hcnt Hcap). cbv zeta in IH.
      destruct (run ops q) as [q'' rs]. exact IH.
    + destruct (Events_Pull_head q x xs Hwf Hq) as (q1 & -> & Hwf1 & Hq1 & Hcap1).
      pose proof (length_queued q Hwf) as Hl. rewrite Hq in Hl.
      pose proof (length_queued q1 Hwf1) as Hl1. rewrite Hq1 in Hl1.
      simpl in Hl.
      specialize (IH q1 P Hwf1 ltac:(congruence) HP ltac:(lia) ltac:(lia)).
      cbv zeta in IH. destruct (run ops q1) as [q'' rs]. simpl in *.
      rewrite <- Hcap1. exact IH.
Qed.

(** X9. Storage of the queue.  After any run of pushes and pulls from the
    initial queue, the count lies within the capacity, the capacity is the
    length of the storage, a multiple of 20 and at least 20, and it is at
    most 20 + 20 * (pushes / 20): storage grows linearly, and no growth
    happens before the 21st push. *)
Theorem Events_storage_bound (ops : list QueueOp) :
  let q := (run ops Events_Init).1 in
  let pushes := Z.of_nat (length (pushed ops)) in
  0 <= events_count q <= events_capacity q /\
  Z.of_nat (length (events_list q)) = events_capacity q /\
  events_capacity q mod 20 = 0 /\
  20 <= events_capacity q <= 20 + 20 * (pushes / 20).
Proof.
  cbv zeta.
  assert (H0 : events_capacity Events_Init <= 20 + 20 * (0 / 20)) by done.
  destruct (run_storage ops Events_Init 0 wf_Events_Init eq_refl
              ltac:(lia) ltac:(done) H0) as ([Hc Hl] & Hm & _ & Hb & Hge).
  cbv zeta in *. rewrite Z.add_0_l in Hb.
  change (events_capacity Events_Init) with 20 in Hge.
  split; [exact Hc|]. split; [exact Hl|]. split; [exact Hm|]. lia.
Qed.

(** *** Mouse buttons, from mask to calls *)

Lemma dispatch_all_app es1 es2 w :
  dispatch_all (es1 ++ es2) w
  = ((dispatch_all es2 (dispatch_all es1 w).1).1,
     (dispatch_all es1 w).2 ++ (dispatch_all es2 (dispatch_all es1 w).1).2).
Proof.
  revert w. induction es1 as [|e es1 IH]; intros w; simpl.
  - by destruct (dispatch_all es2 w).
  - destruct (Window_ProcessEvents_switch e w) as [w1 cs].
    rewrite IH. destruct (dispatch_all es1 w1) as [w2 cs2]. simpl.
    destruct (dispatch_all es2 w2) as [w3 cs3]. simpl.
    by rewrite app_assoc.
Qed.

Lemma dispatch_all_button_edge last buttons bit btn w :
  dispatch_all (button_edge last buttons bit btn) w
  = (w, button_call last buttons bit btn).
Proof.
  unfold button_edge, button_call.
  destruct (Bool.eqb _ _); [reflexivity|].
  by destruct (Z.testbit buttons bit).
Qed.

(** X10. Mouse buttons, end to end.  A [B_MOUSE_DOWN] or [B_MOUSE_UP]
    message carrying the mask [buttons] makes the pump call, for the
    primary, secondary and tertiary bit in this order,
    [Input_SetPressed] or [Input_SetReleased] with the left, right and
    middle button when that bit differs from the shadow mask, and nothing
    for a bit that does not; which of the two messages it was plays no
    part.  [WindowInfo] is left alone and the shadow mask becomes
    [buttons]. *)
Theorem mouse_mask_reaches_input (msg : BMessage) (tk : Toolkit)
    (w : WindowInfo_t) (buttons : Z) :
  wf (events tk) -> events_count (events tk) = 0 ->
  what msg = B_MOUSE_DOWN \/ what msg = B_MOUSE_UP ->
  FindInt32 "buttons" msg = Some buttons ->
  last_buttons (CC_BWindow_DispatchMessage msg tk) = buttons /\
  exists q',
    Window_ProcessEvents (events (CC_BWindow_DispatchMessage msg tk)) w
    = (q', w,
       button_call (last_buttons tk) buttons 0 #KEY_LMOUSE
       ++ button_call (last_buttons tk) buttons 1 #KEY_RMOUSE
       ++ button_call (last_buttons tk) buttons 2 #KEY_MMOUSE, true).
Proof.
  intros Hwf H0 Hwhat Hfind.
  destruct (UpdateMouseButtons_spec buttons tk Hwf) as (_ & Hq1 & Hl1).
  destruct (CC_BWindow_DispatchMessage_queued msg tk Hwf) as [Hwf' Hq].
  assert (Hsw : CC_BWindow_switch msg tk = (CCEvent_zero, UpdateMouseButtons buttons tk)).
  { unfold CC_BWindow_switch. by destruct Hwhat as [-> | ->]; rewrite Hfind. }
  assert (Hki : key_input_records msg = []).
  { unfold key_input_records. by destruct Hwhat as [-> | ->]. }
  rewrite Hsw, Hki in Hq. cbn [fst snd] in Hq.
  change (type CCEvent_zero =? 0) with true in Hq. cbn iota in Hq.
  rewrite Hq1, (queued_empty _ Hwf H0), !app_nil_r in Hq.
  change ([] ++ ?l) with l in Hq.
  split.
  - unfold CC_BWindow_DispatchMessage. rewrite Hsw. simpl.
    by destruct Hwhat as [-> | ->].
  - destruct (Window_ProcessEvents_queued _ w _ Hwf' Hq) as (q' & -> & _ & _).
    exists q'. rewrite !dispatch_all_app, !dispatch_all_button_edge. reflexivity.
Qed.

(** X11. Pointer, focus and redraw, end to end.  A mouse-moved message
    carrying the point (x, y) makes the pump set the pointer to the two
    coordinates converted to [int]; a window-activated message carrying
    [active] makes it store 1 or 0 in [WindowInfo.Focused] and raise
    FocusChanged; an update message makes it raise RedrawNeeded; a
    window-moved message makes it do nothing.  Size and existence of the
    window are untouched by all four. *)
Theorem pointer_focus_redraw (msg : BMessage) (tk : Toolkit) (w : WindowInfo_t) :
  wf (events tk) -> events_count (events tk) = 0 ->
  exists q',
    events_count q' = 0 /\
    (forall x y, what msg = B_MOUSE_MOVED -> FindPoint "where" msg = Some (x, y) ->
       Window_ProcessEvents (events (CC_BWindow_DispatchMessage msg tk)) w
       = (q', w, [Pointer_SetPosition 0 (float_to_int x) (float_to_int y)], true)) /\
    (forall active, what msg = B_WINDOW_ACTIVATED ->
       FindBool "active" msg = Some active ->
       Window_ProcessEvents (events (CC_BWindow_DispatchMessage msg tk)) w
       = (q', {| Width := Width w; Height := Height w;
                 Focused := Z.b2z active; Exists := Exists w |},
          [Event_RaiseVoid FocusChanged], true)) /\
    (what msg = _UPDATE_ ->
       Window_ProcessEvents (events (CC_BWindow_DispatchMessage msg tk)) w
       = (q', w, [Event_RaiseVoid RedrawNeeded], true)) /\
    (what msg = B_WINDOW_MOVED ->
       Window_ProcessEvents (events (CC_BWindow_DispatchMessage msg tk)) w
       = (q', w, [], true)).
Proof.
  intros Hwf H0.
  destruct (CC_BWindow_DispatchMessage_queued msg tk Hwf) as [Hwf' Hq].
  destruct (Window_ProcessEvents_queued _ w _ Hwf' eq_refl) as (q' & Hrun & _ & Hc).
  exists q'. split; [exact Hc|].
  rewrite Hrun. clear Hrun.
  unfold CC_BWindow_switch, key_input_records in Hq.
  split; [|split; [|split]].
  - intros x y Hwhat Hfind. rewrite Hwhat, Hfind in Hq. simpl in Hq.
    rewrite (queued_empty _ Hwf H0) in Hq. by rewrite Hq.
  - intros active Hwhat Hfind. rewrite Hwhat, Hfind in Hq. simpl in Hq.
    rewrite (queued_empty _ Hwf H0) in Hq. rewrite Hq.
    by destruct active.
  - intros Hwhat. rewrite Hwhat in Hq. simpl in Hq.
    rewrite (queued_empty _ Hwf H0) in Hq. by rewrite Hq.
  - intros Hwhat. rewrite Hwhat in Hq. simpl in Hq.
    rewrite (queued_empty _ Hwf H0) in Hq. by rewrite Hq.
Qed.

(** *** Open-file dialog *)

Lemma CC_BApp_DispatchMessage_calls (A : list Z -> list Z) msg tk :
  exists cs,
    calls (CC_BApp_DispatchMessage msg tk) = calls tk ++ cs /\
    forall d,
      foldl (FileDialog.deliver A) d cs
      = foldl (fun d path => FileDialog.CallOpenFileCallback A path d) d
          (received_refs [msg]).
Proof.
  unfold CC_BApp_DispatchMessage, received_refs. simpl omap.
  destruct (what msg); simpl;
    try (eexists; split; [reflexivity|]; intros d; reflexivity).
  - eexists. split; [by rewrite <- app_assoc|]. intros d. reflexivity.
  - destruct (FindRef "refs" msg) as [path|]; simpl.
    + eexists. split; [by rewrite <- app_assoc|]. intros d. reflexivity.
    + eexists. split; [reflexivity|]. intros d. reflexivity.
Qed.

Lemma CC_BApp_DispatchMessage_seq_calls (A : list Z -> list Z) msgs :
  forall tk, exists cs,
    calls (CC_BApp_DispatchMessage_seq msgs tk) = calls tk ++ cs /\
    forall d,
      foldl (FileDialog.deliver A) d cs
      = foldl (fun d path => FileDialog.CallOpenFileCallback A path d) d
          (received_refs msgs).
Proof.
  induction msgs as [|msg msgs IH]; intros tk.
  - exists []. split; [by rewrite app_nil_r|]. intros d. reflexivity.
  - destruct (CC_BApp_DispatchMessage_calls A msg tk) as (cs1 & Hc1 & Hd1).
    destruct (IH (CC_BApp_DispatchMessage msg tk)) as (cs2 & Hc2 & Hd2).
    exists (cs1 ++ cs2). split.
    + change (CC_BApp_DispatchMessage_seq (msg :: msgs) tk)
        with (CC_BApp_DispatchMessage_seq msgs (CC_BApp_DispatchMessage msg tk)).
      by rewrite Hc2, Hc1, <- app_assoc.
    + intros d. rewrite foldl_app, Hd1, Hd2.
      change (msg :: msgs) with ([msg] ++ msgs).
      unfold received_refs. by rewrite omap_app, foldl_app.
Qed.

Lemma CallOpenFileCallback_null (A : list Z -> list Z) paths :
  forall d, FileDialog.open_callback d = 0 ->
    foldl (fun d path => FileDialog.CallOpenFileCallback A path d) d paths = d.
Proof.
  induction paths as [|path paths IH]; intros d H0; [reflexivity|].
  simpl. unfold FileDialog.CallOpenFileCallback at 2. rewrite H0. simpl.
  by apply IH.
Qed.

(** X12. The open-file callback is one-shot.  After
    [Window_OpenFileDialog] stored a non-null callback, however many
    messages the application translator then handles, the callback is
    called at most once: for the first refs-received message whose file
    reference can be read, with the text of that path; every later
    reference is dropped, and with no such message the callback stays
    armed.  The panel is created only when there was none, the call
    returns 0, and opening the dialog again only shows the panel. *)
Theorem open_callback_one_shot (A : list Z -> list Z)
    (args : FileDialog.OpenFileDialogArgs) (d : FileDialog.Dialog)
    (msgs : list BMessage) (tk : Toolkit) :
  calls tk = [] -> FileDialog.Callback args <> 0 ->
  let d1 := (FileDialog.Window_OpenFileDialog args d).2 in
  let d2 := foldl (FileDialog.deliver A) d1
              (calls (CC_BApp_DispatchMessage_seq msgs tk)) in
  (FileDialog.Window_OpenFileDialog args d).1 = 0 /\
  FileDialog.panel_calls d2
  = FileDialog.panel_calls d
    ++ (if FileDialog.open_panel d then []
        else [FileDialog.new_BFilePanel; FileDialog.SetRefFilter])
    ++ [FileDialog.panel_Show]
    ++ match received_refs msgs with
       | [] => []
       | path :: _ =>
           [FileDialog.open_callback_call (FileDialog.Callback args) (A path)]
       end /\
  FileDialog.open_callback d2
  = match received_refs msgs with [] => FileDialog.Callback args | _ => 0 end /\
  FileDialog.open_panel d2 = true /\
  forall args',
    FileDialog.panel_calls (FileDialog.Window_OpenFileDialog args' d2).2
    = FileDialog.panel_calls d2 ++ [FileDialog.panel_Show].
Proof.
  intros Hcalls Hcb d1 d2.
  destruct (CC_BApp_DispatchMessage_seq_calls A msgs tk) as (cs & Hcs & Hfold).
  rewrite Hcalls in Hcs. simpl in Hcs.
  assert (Hd2 : d2 = foldl (fun d path => FileDialog.CallOpenFileCallback A path d)
                       d1 (received_refs msgs)).
  { unfold d2. by rewrite Hcs, Hfold. }
  assert (Hp1 : FileDialog.open_panel d1 = true).
  { unfold d1, FileDialog.Window_OpenFileDialog. simpl.
    by destruct (FileDialog.open_panel d) eqn:E. }
  assert (Hc1 : FileDialog.panel_calls d1
                = FileDialog.panel_calls d
                  ++ (if FileDialog.open_panel d then []
                      else [FileDialog.new_BFilePanel; FileDialog.SetRefFilter])
                  ++ [FileDialog.panel_Show]).
  { unfold d1, FileDialog.Window_OpenFileDialog. simpl.
    destruct (FileDialog.open_panel d) eqn:E; simpl; [reflexivity|].
    by rewrite <- app_assoc. }
  assert (Hshape :
    FileDialog.panel_calls d2
    = FileDialog.panel_calls d1
      ++ match received_refs msgs with
         | [] => []
         | path :: _ =>
             [FileDialog.open_callback_call (FileDialog.Callback args) (A path)]
         end /\
    FileDialog.open_callback d2
    = match received_refs msgs with [] => FileDialog.Callback args | _ => 0 end /\
    FileDialog.open_panel d2 = true).
  { rewrite Hd2. destruct (received_refs msgs) as [|path paths].
    - simpl. rewrite app_nil_r. by split.
    - assert (Hfirst : FileDialog.CallOpenFileCallback A path d1
                       = {| FileDialog.open_panel := FileDialog.open_panel d1;
                            FileDialog.open_callback := 0;
                            FileDialog.open_filters := FileDialog.open_filters d1;
                            FileDialog.panel_calls :=
                              FileDialog.panel_calls d1
                              ++ [FileDialog.open_callback_call
                                    (FileDialog.Callback args) (A path)] |}).
      { unfold FileDialog.CallOpenFileCallback.
        change (FileDialog.open_callback d1) with (FileDialog.Callback args).
        by destruct (Z.eqb_spec (FileDialog.Callback args) 0). }
      change (foldl ?f d1 (path :: paths))
        with (foldl f (FileDialog.CallOpenFileCallback A path d1) paths).
      rewrite Hfirst, CallOpenFileCallback_null by reflexivity.
      by split. }
  destruct Hshape as (Hs1 & Hs2 & Hs3).
  split; [reflexivity|]. split; [|split; [exact Hs2|split; [exact Hs3|]]].
  - rewrite Hs1, Hc1. by rewrite <- !app_assoc.
  - intros args'. unfold FileDialog.Window_OpenFileDialog. by rewrite Hs3.
Qed.

(** *** Fullscreen *)

Lemma land_lnot_absorb (f m : Z) :
  Z.land (Z.land f (Z.lnot m)) (Z.lnot m) = Z.land f (Z.lnot m) /\
  Z.land (Z.lor f m) (Z.lnot m) = Z.land f (Z.lnot m) /\
  Z.lor (Z.land f (Z.lnot m)) m = Z.lor f m /\
  Z.lor (Z.lor f m) m = Z.lor f m.
Proof.
  repeat split; apply Z.bits_inj'; intros n Hn;
    rewrite ?Z.land_spec, ?Z.lor_spec, ?Z.land_spec, ?Z.lnot_spec by done;
    by destruct (Z.testbit f n), (Z.testbit m n).
Qed.

(** X13. Fullscreen flags.  After any sequence of calls of
    [Window_EnterFullscreen] and [Window_ExitFullscreen], the window's flag
    word depends only on the flags before the first call and on which
    function was called last: after an enter the two bits not-resizable
    and not-zoomable are clear, after an exit both are set, whatever they
    were at the start, and no other bit ever changes.
    [Window_GetWindowState] reports fullscreen exactly when the last call
    was an enter. *)
Theorem fullscreen_flags (BRect : Type)
    (B_NOT_RESIZABLE B_NOT_ZOOMABLE WINDOW_STATE_NORMAL WINDOW_STATE_FULLSCREEN : Z)
    (rs : list (Fullscreen.Request BRect)) (r : Fullscreen.Request BRect)
    (s : Fullscreen.State BRect) :
  let mask := Z.lor B_NOT_RESIZABLE B_NOT_ZOOMABLE in
  let s' := Fullscreen.requests BRect B_NOT_RESIZABLE B_NOT_ZOOMABLE (rs ++ [r]) s in
  Fullscreen.Flags BRect s'
  = (if Fullscreen.is_Enter BRect r
     then Z.land (Fullscreen.Flags BRect s) (Z.lnot mask)
     else Z.lor (Fullscreen.Flags BRect s) mask) /\
  Fullscreen.Window_GetWindowState BRect WINDOW_STATE_NORMAL WINDOW_STATE_FULLSCREEN s'
  = (if Fullscreen.is_Enter BRect r then WINDOW_STATE_FULLSCREEN
     else WINDOW_STATE_NORMAL) /\
  (forall i, 0 <= i -> Z.testbit mask i = false ->
     Z.testbit (Fullscreen.Flags BRect s') i
     = Z.testbit (Fullscreen.Flags BRect s) i) /\
  (forall i, 0 <= i -> Z.testbit mask i = true ->
     Z.testbit (Fullscreen.Flags BRect s') i
     = negb (Fullscreen.is_Enter BRect r)).
Proof.
  intros mask s'.
  set (f0 := Fullscreen.Flags BRect s).
  assert (Hinv : forall rs,
    let f := Fullscreen.Flags BRect
               (Fullscreen.requests BRect B_NOT_RESIZABLE B_NOT_ZOOMABLE rs s) in
    f = f0 \/ f = Z.land f0 (Z.lnot mask) \/ f = Z.lor f0 mask).
  { clear. intros rs. induction rs as [|r rs IH] using rev_ind; [by left|].
    unfold Fullscreen.requests in *. rewrite foldl_app. simpl.
    destruct (land_lnot_absorb f0 mask) as (E1 & E2 & E3 & E4).
    right. destruct r as [frame screen_frame|]; simpl; fold mask.
    - left. destruct IH as [-> | [-> | ->]]; [reflexivity|exact E1|exact E2].
    - right. destruct IH as [-> | [-> | ->]]; [reflexivity|exact E3|exact E4]. }
  assert (Hflags : Fullscreen.Flags BRect s'
                   = if Fullscreen.is_Enter BRect r
                     then Z.land f0 (Z.lnot mask) else Z.lor f0 mask).
  { unfold s', Fullscreen.requests. rewrite foldl_app. simpl.
    destruct (land_lnot_absorb f0 mask) as (E1 & E2 & E3 & E4).
    pose proof (Hinv rs) as H. cbv zeta in H. unfold Fullscreen.requests in H.
    destruct r as [frame screen_frame|]; simpl; fold mask.
    - destruct H as [-> | [-> | ->]]; [reflexivity|exact E1|exact E2].
    - destruct H as [-> | [-> | ->]]; [reflexivity|exact E3|exact E4]. }
  split; [exact Hflags|]. split; [|split].
  - unfold s', Fullscreen.requests. rewrite foldl_app. simpl.
    by destruct r.
  - intros i Hi Hm. rewrite Hflags.
    destruct (Fullscreen.is_Enter BRect r).
    + rewrite Z.land_spec, Z.lnot_spec, Hm by done. apply andb_true_r.
    + rewrite Z.lor_spec, Hm. apply orb_false_r.
  - intros i Hi Hm. rewrite Hflags.
    destruct (Fullscreen.is_Enter BRect r).
    + rewrite Z.land_spec, Z.lnot_spec, Hm by done. apply andb_false_r.
    + rewrite Z.lor_spec, Hm. apply orb_true_r.
Qed.

End Backend.

(** *** Concrete instances *)

Lemma Events_no_loss_under_growth_witness :
  let es := sample_records 21 in
  let q := push_all CCEvent_zero es Events_Init in
  EVENTS_DEFAULT_MAX < events_capacity q /\
  (exists q', pull_all (S (length es)) q = (es, q', true) /\
              events_count q' = 0) /\
  (forall q0 e, wf q0 -> events_count q0 = events_capacity q0 ->
     events_capacity (Events_Push CCEvent_zero e q0) = events_capacity q0 + 20 /\
     queued (Events_Push CCEvent_zero e q0) = queued q0 ++ [e]).
Proof.
  apply (Events_no_loss_under_growth CCEvent_zero (sample_records 21)).
  vm_compute. lia.
Defined.

Lemma UpdateMouseButtons_edges_witness :
  queued (events (UpdateMouseButtons_seq CCEvent_zero (i32 0) sample_buttons
     [0; 1; 3; 2; 0] Toolkit_Init))
  = [MouseDown (i32 0) 1; MouseDown (i32 0) 2;
     MouseUp (i32 0) 1; MouseUp (i32 0) 2].
Proof.
  exact (proj1 (UpdateMouseButtons_edges CCEvent_zero (i32 0) sample_buttons
                  Toolkit_Init wf_Events_Init eq_refl)).
Defined.

Lemma Window_ProcessEvents_unknown_key_witness :
  exists q',
    Window_ProcessEvents sample_buttons
      (push_all CCEvent_zero [KeyDown 200; KeyDown 60] Events_Init)
      (mkWindowInfo 640 480 1 true)
    = (q', mkWindowInfo 640 480 1 true,
       [Platform_Log2_UnknownKey 200; Input_SetPressed (chr "A")], true)
    /\ events_count q' = 0.
Proof.
  refine (proj2 (proj2 (Window_ProcessEvents_unknown_key sample_buttons
           (push_all CCEvent_zero [KeyDown 200; KeyDown 60] Events_Init)
           (mkWindowInfo 640 480 1 true) (KeyDown 200) [KeyDown 60] _ _ _ _))).
  - apply wf_push_all, wf_Events_Init.
  - reflexivity.
  - left. reflexivity.
  - right. left. vm_compute. discriminate.
Defined.

Lemma no_CC_NONE_queued_witness :
  appended not_none Events_Init
    (events (CC_BWindow_DispatchMessage CCEvent_zero (i32 0) sample_buttons
               (fun _ => 0) sample_decoder sample_key_down Toolkit_Init)).
Proof.
  exact (proj1 (no_CC_NONE_queued CCEvent_zero (i32 0) sample_buttons (fun _ => 0)
                  sample_decoder sample_key_down Toolkit_Init wf_Events_Init)).
Defined.

Lemma key_down_records_witness :
  queued (events (CC_BWindow_DispatchMessage CCEvent_zero (i32 0) sample_buttons
                    (fun _ => 0) sample_decoder sample_key_down Toolkit_Init))
  = [KeyDown 60; KeyInput (i32 0) 97].
Proof.
  exact (proj1 (key_down_records CCEvent_zero (i32 0) sample_buttons (fun _ => 0)
                  sample_decoder sample_key_down Toolkit_Init 60
                  wf_Events_Init eq_refl) eq_refl [97] 97 eq_refl eq_refl).
Defined.


Lemma wheel_delta_negated_witness :
  exists q',
    Window_ProcessEvents sample_buttons
      (events (CC_BWindow_DispatchMessage CCEvent_zero (i32 0) sample_buttons
                 (fun _ => 0) sample_decoder sample_wheel Toolkit_Init))
      sample_window
    = (q', sample_window, [Mouse_ScrollWheel 3212836864], true)
    /\ events_count q' = 0.
Proof.
  refine (proj1 (wheel_delta_negated CCEvent_zero (i32 0) sample_buttons
                   (fun _ => 0) sample_decoder sample_wheel Toolkit_Init
                   sample_window 1065353216 wf_Events_Init eq_refl eq_refl
                   eq_refl _)).
  split; by vm_compute.
Defined.

Lemma resize_adds_one_witness :
  exists q',
    Window_ProcessEvents sample_buttons
      (events (CC_BWindow_DispatchMessage CCEvent_zero (i32 0) sample_buttons
                 (fun _ => 0) sample_decoder sample_resized Toolkit_Init))
      sample_window
    = (q', mkWindowInfo 1024 768 1 true, [Event_RaiseVoid Resized], true)
    /\ events_count q' = 0.
Proof.
  refine (proj1 (resize_adds_one CCEvent_zero (i32 0) sample_buttons
                   (fun _ => 0) sample_decoder Toolkit_Init sample_window
                   sample_resized 1023 767 wf_Events_Init eq_refl eq_refl
                   eq_refl eq_refl _ _)); split; by vm_compute.
Defined.

Lemma mapped_key_reaches_input_witness :
  exists q',
    Window_ProcessEvents sample_buttons
      (events (CC_BWindow_DispatchMessage CCEvent_zero (i32 0) sample_buttons
                 (fun _ => 0) sample_decoder sample_key_down Toolkit_Init))
      sample_window
    = (q', sample_window,
       [Input_SetPressed (chr "A"); Event_RaiseInt_Press 97], true).
Proof.
  refine (proj1 (mapped_key_reaches_input CCEvent_zero (i32 0) sample_buttons
                   (fun _ => 0) sample_decoder sample_key_down Toolkit_Init
                   sample_window 60 wf_Events_Init eq_refl eq_refl _ _) eq_refl).
  - split; by vm_compute.
  - by vm_compute.
Defined.

Lemma quit_request_closes_witness :
  exists q',
    Window_ProcessEvents sample_buttons
      (events (CC_BWindow_DispatchMessage CCEvent_zero (i32 0) sample_buttons
                 (fun _ => 0) sample_decoder sample_quit Toolkit_Init))
      sample_window
    = (q', mkWindowInfo 640 480 1 false, [Event_RaiseVoid Closing], true).
Proof.
  exact (proj1 (quit_request_closes CCEvent_zero (i32 0) sample_buttons
                  (fun _ => 0) sample_decoder sample_quit Toolkit_Init
                  sample_window wf_Events_Init eq_refl eq_refl)).
Defined.

Lemma WindowInfo_after_drain_witness :
  exists q' cs,
    Window_ProcessEvents sample_buttons
      (push_all CCEvent_zero sample_resize_then_quit Events_Init) sample_window
    = (q', mkWindowInfo 800 600 1 false, cs, true).
Proof.
  refine (WindowInfo_after_drain sample_buttons
            (push_all CCEvent_zero sample_resize_then_quit Events_Init)
            sample_window _).
  apply wf_push_all, wf_Events_Init.
Defined.

Lemma UpdateMouseButtons_balance_witness :
  last_buttons (UpdateMouseButtons_seq CCEvent_zero (i32 0) sample_buttons
                  [1; 3] Toolkit_Init) = 3 /\
  exists new,
    queued (events (UpdateMouseButtons_seq CCEvent_zero (i32 0) sample_buttons
                      [1; 3] Toolkit_Init)) = new /\
    net_presses 1 new = 1 /\ net_presses 2 new = 1 /\ net_presses 3 new = 0.
Proof.
  refine (UpdateMouseButtons_balance CCEvent_zero (i32 0) sample_buttons
            [1; 3] Toolkit_Init _ _ _ wf_Events_Init); discriminate.
Defined.

Lemma unreadable_message_witness :
  queued (events (CC_BWindow_DispatchMessage CCEvent_zero (i32 0) sample_buttons
                    (fun _ => 0) sample_decoder sample_bare_key_down Toolkit_Init))
  = [].
Proof.
  refine (proj1 (proj1 (unreadable_message CCEvent_zero (i32 0) sample_buttons
                          (fun _ => 0) sample_decoder sample_bare_key_down
                          Toolkit_Init wf_Events_Init) _)).
  repeat split; try reflexivity. left. reflexivity.
Defined.

Lemma Window_ProcessEvents_twice_witness :
  exists q' w' cs,
    Window_ProcessEvents sample_buttons
      (push_all CCEvent_zero [KeyDown 60] Events_Init) sample_window
    = (q', w', cs, true) /\
    events_count q' = 0 /\
    events_capacity q' = 20 /\
    Window_ProcessEvents sample_buttons q' w' = (q', w', [], true).
Proof.
  refine (Window_ProcessEvents_twice sample_buttons
            (push_all CCEvent_zero [KeyDown 60] Events_Init) sample_window _).
  apply wf_push_all, wf_Events_Init.
Defined.

Lemma mouse_mask_reaches_input_witness :
  exists q',
    Window_ProcessEvents sample_buttons
      (events (CC_BWindow_DispatchMessage CCEvent_zero (i32 0) sample_buttons
                 (fun _ => 0) sample_decoder sample_mouse_down Toolkit_Init))
      sample_window
    = (q', sample_window, [Input_SetPressed 1], true).
Proof.
  exact (proj2 (mouse_mask_reaches_input CCEvent_zero (i32 0) sample_buttons
                  (fun _ => 0) sample_decoder sample_mouse_down Toolkit_Init
                  sample_window 1 wf_Events_Init eq_refl (or_introl eq_refl)
                  eq_refl)).
Defined.


Lemma pointer_focus_redraw_witness :
  exists q',
    events_count q' = 0 /\
    Window_ProcessEvents sample_buttons
      (events (CC_BWindow_DispatchMessage CCEvent_zero (i32 0) sample_buttons
                 (fun _ => 0) sample_decoder sample_update Toolkit_Init))
      sample_window
    = (q', sample_window, [Event_RaiseVoid RedrawNeeded], true).
Proof.
  destruct (pointer_focus_redraw CCEvent_zero (i32 0) sample_buttons
              (fun _ => 0) sample_decoder sample_update Toolkit_Init
              sample_window wf_Events_Init eq_refl)
    as (q' & Hc & _ & _ & Hupdate & _).
  exists q'. split; [exact Hc|exact (Hupdate eq_refl)].
Defined.

(** Two files arrive after one open: the callback (7) gets the first. *)
Lemma open_callback_one_shot_witness :
  FileDialog.panel_calls
    (foldl (FileDialog.deliver (fun path => path))
       (FileDialog.Window_OpenFileDialog
          (FileDialog.mkOpenFileDialogArgs 7 []) sample_dialog).2
       (calls (CC_BApp_DispatchMessage_seq CCEvent_zero
                 [sample_refs_received [97]; sample_refs_received [98]]
                 Toolkit_Init)))
  = [FileDialog.new_BFilePanel; FileDialog.SetRefFilter; FileDialog.panel_Show;
     FileDialog.open_callback_call 7 [97]].
Proof.
  refine (proj1 (proj2 (open_callback_one_shot CCEvent_zero (fun path => path)
                          (FileDialog.mkOpenFileDialogArgs 7 []) sample_dialog
                          [sample_refs_received [97]; sample_refs_received [98]]
                          Toolkit_Init eq_refl _))).
  discriminate.
Defined.

End Haiku.

(** ** Terminal backend *)
Module Terminal.

(** *** C strings

    The functions of [<string.h>] and [<stdlib.h>] the backend calls, after
    the C standard.  A [char*] is modelled by the bytes from the pointer to
    the end of the array it points into.  A function that scans for the
    terminating NUL and reaches the end of the array has read out of
    bounds: its result is [None]. *)

(** [strchr(s, c) != NULL] *)
Fixpoint strchr (s : list Z) (c : Z) : option bool :=
  match s with
  | [] => None
  | b :: s' =>
      if b =? c then Some true
      else if b =? 0 then Some false
      else strchr s' c
  end.

(** [strncpy(dst, src, n)]: copies the bytes of [src] up to its NUL, at
    most [n] of them, and pads with NULs up to [n] bytes; the bytes of
    [dst] from [n] on keep what they held.  It is only called with [n] no
    larger than either array. *)
Fixpoint strncpy (dst src : list Z) (n : nat) {struct n} : list Z :=
  match n with
  | O => dst
  | S n' =>
      match src with
      | c :: src' =>
          if c =? 0 then replicate n 0 ++ drop n dst
          else c :: strncpy (drop 1 dst) src' n'
      | [] => replicate n 0 ++ drop n dst
      end
  end.

(** [strtok]: skipping the delimiters in front of the next token. *)
Fixpoint strtok_skip (s : list Z) (delim : Z) : list Z :=
  match s with
  | c :: s' => if c =? delim then strtok_skip s' delim else s
  | [] => []
  end.

(** [strtok]: the token that starts at [s] and the position saved for the
    next call: after the delimiter that ended the token (which is
    overwritten with NUL), or at the NUL that ended the string. *)
Fixpoint strtok_scan (s : list Z) (delim : Z) : option (list Z * list Z) :=
  match s with
  | [] => None
  | c :: s' =>
      if c =? 0 then Some ([], s)
      else if c =? delim then Some ([], s')
      else
        match strtok_scan s' delim with
        | Some (tok, save) => Some (c :: tok, save)
        | None => None
        end
  end.

Inductive strtok_result : Type :=
| Token (tok save : list Z)
| Null
| OutOfBounds.

(** [strtok(s, delim)] for a single delimiter character, where [s] is the
    string passed or, for [strtok(NULL, delim)], the saved position. *)
Definition strtok (s : list Z) (delim : Z) : strtok_result :=
  match strtok_skip s delim with
  | [] => OutOfBounds
  | (c :: _) as s' =>
      if c =? 0 then Null
      else
        match strtok_scan s' delim with
        | Some (tok, save) => Token tok save
        | None => OutOfBounds
        end
  end.

Definition isspace (c : Z) : bool := (c =? 32) || ((9 <=? c) && (c <=? 13)).
Definition isdigit (c : Z) : bool := (chr "0" <=? c) && (c <=? chr "9").

Fixpoint atoi_skip (s : list Z) : list Z :=
  match s with
  | c :: s' => if isspace c then atoi_skip s' else s
  | [] => []
  end.

Fixpoint atoi_digits (s : list Z) (acc : Z) : Z :=
  match s with
  | c :: s' => if isdigit c then atoi_digits s' (acc * 10 + (c - chr "0")) else acc
  | [] => acc
  end.

(** [strtol(s, NULL, 10)] of a NUL-terminated string given by its bytes
    before the NUL: blanks, an optional sign, then digits up to the first
    other byte; a value outside [long] is replaced by the nearest of
    [LONG_MIN] and [LONG_MAX]. *)
Definition strtol (s : list Z) : Z :=
  let v :=
    match atoi_skip s with
    | c :: s' =>
        if c =? chr "-" then - atoi_digits s' 0
        else if c =? chr "+" then atoi_digits s' 0
        else atoi_digits (c :: s') 0
    | [] => 0
    end in
  Z.max LONG_MIN (Z.min LONG_MAX v).

(** [atoi(s)], which the C library computes as [(int) strtol(s, NULL, 10)]:
    a value outside [int] is undefined in C, and what comes back is the
    [int] holding the low 32 bits of the [long]. *)
Definition atoi (s : list Z) : Z := int32 (strtol s).

(** *** Escape sequences *)

Definition ESC : ascii := ascii_of_nat 27.

(** [#define CSI "\x1B["] *)
Definition CSI : string := String ESC "[".
(** [#define ERASE_CMD(cmd) CSI cmd "J"] *)
Definition ERASE_CMD (cmd : string) : string := CSI +:+ cmd +:+ "J".
(** [#define DEC_PM_SET(cmd) CSI "?" cmd "h"] *)
Definition DEC_PM_SET (cmd : string) : string := CSI +:+ "?" +:+ cmd +:+ "h".
(** [#define DEC_PM_RESET(cmd) CSI "?" cmd "1"] *)
Definition DEC_PM_RESET (cmd : string) : string := CSI +:+ "?" +:+ cmd +:+ "1".

(** The terminal: the local-mode flags of its line discipline, the
    [termios] saved in the global [tio], and what was written to stdout. *)
Record Tty : Type := mkTty {
  c_lflag : Z;
  tio : Z;
  stdout : string
}.

(** [<termios.h>] local-mode bits (Linux values). *)
Definition ICANON : Z := 2.
Definition ECHO : Z := 8.

(** [printf(s)] for a format without conversions. *)
Definition printf (s : string) (t : Tty) : Tty :=
  {| c_lflag := c_lflag t; tio := tio t; stdout := stdout t +:+ s |}.

(** [HookTerminal] *)
Definition HookTerminal (t : Tty) : Tty :=
  let t := {| c_lflag := Z.land (c_lflag t) (Z.lnot (Z.lor ECHO ICANON));
              tio := c_lflag t;
              stdout := stdout t |} in
  let t := printf (DEC_PM_SET "1049") t in
  let t := printf (CSI +:+ "0m") t in
  let t := printf (ERASE_CMD "2") t in
  let t := printf (DEC_PM_SET "1003") t in
  let t := printf (DEC_PM_SET "1015") t in
  let t := printf (DEC_PM_SET "1006") t in
  let t := printf (DEC_PM_RESET "25") t in
  t.

(** [UnhookTerminal] *)
Definition UnhookTerminal (t : Tty) : Tty :=
  let t := {| c_lflag := tio t; tio := tio t; stdout := stdout t |} in
  let t := printf (DEC_PM_RESET "1049") t in
  let t := printf (CSI +:+ "0m") t in
  let t := printf (ERASE_CMD "2") t in
  let t := printf (DEC_PM_RESET "1003") t in
  let t := printf (DEC_PM_RESET "1015") t in
  let t := printf (DEC_PM_RESET "1006") t in
  let t := printf (DEC_PM_SET "25") t in
  t.

(** Modelled from the spec: the sequences it requires on entry and on exit
    (section 6: enable alternate screen buffer, reset SGR attributes,
    erase-all, enable the three mouse-tracking modes, hide cursor; on exit
    the reverse of each).  In the xterm control sequences the file cites, a
    DEC private mode is set by [CSI ? Pm h] and reset by [CSI ? Pm l]. *)
Definition DECSET (mode : string) : string := CSI +:+ "?" +:+ mode +:+ "h".
Definition DECRST (mode : string) : string := CSI +:+ "?" +:+ mode +:+ "l".

Definition spec_entry_sequence : string :=
  DECSET "1049" +:+ CSI +:+ "0m" +:+ CSI +:+ "2J" +:+
  DECSET "1003" +:+ DECSET "1015" +:+ DECSET "1006" +:+ DECRST "25".

Definition spec_exit_sequence : string :=
  DECRST "1049" +:+ CSI +:+ "0m" +:+ CSI +:+ "2J" +:+
  DECRST "1003" +:+ DECRST "1015" +:+ DECRST "1006" +:+ DECSET "25".

(** What [HookTerminal] and [UnhookTerminal] write, byte for byte. *)
Definition HookTerminal_output : string :=
  CSI +:+ "?1049h" +:+ CSI +:+ "0m" +:+ CSI +:+ "2J" +:+
  CSI +:+ "?1003h" +:+ CSI +:+ "?1015h" +:+ CSI +:+ "?1006h" +:+
  CSI +:+ "?251".

Definition UnhookTerminal_output : string :=
  CSI +:+ "?10491" +:+ CSI +:+ "0m" +:+ CSI +:+ "2J" +:+
  CSI +:+ "?10031" +:+ CSI +:+ "?10151" +:+ CSI +:+ "?10061" +:+
  CSI +:+ "?25h".

(** The bytes of a string. *)
Definition codes (s : string) : list Z :=
  map (fun a => Z.of_nat (nat_of_ascii a)) (list_ascii_of_string s).

(** *** Input decoding *)

Inductive WindowEvent : Type := Resized | Closing.

(** What the backend calls into the game. *)
Inductive Call : Type :=
| Event_RaiseVoid (ev : WindowEvent)
| Pointer_SetPosition (idx x y : Z)
| Input_SetNonRepeatable (key : Z) (pressed : Z)
| Input_SetPressed (key : Z)
| Input_SetReleased (key : Z).

(** [struct winsize], as [TIOCGWINSZ] fills it. *)
Record winsize : Type := mkWinsize { ws_row : Z; ws_col : Z }.

(** The globals [Window_ProcessEvents] works on.  [DisplayInfo.ScaleX] and
    [ScaleY] are the constant [0.5f], kept as its binary32 bit pattern. *)
Record Globals : Type := mkGlobals {
  pendingResize : bool;
  pendingClose : bool;
  ws : winsize;
  DisplayInfo_Width : Z;
  DisplayInfo_Height : Z;
  DisplayInfo_Depth : Z;
  DisplayInfo_ScaleX : Z;
  DisplayInfo_ScaleY : Z;
  Window_Main_Width : Z;
  Window_Main_Height : Z;
  Window_Main_Exists : bool
}.

(** [Rect2D] *)
Record Rect2D : Type := mkRect2D { x : Z; y : Z; width : Z; height : Z }.

(** One half-block cell: what the three [printf] calls of one iteration of
    [Window_DrawFramebuffer] say. *)
Record Cell : Type := mkCell {
  background : Z;
  foreground : Z;
  cell_row : Z;
  cell_column : Z
}.

(** *** Sample values, to run the results on *)

Definition idle_globals : Globals :=
  {| pendingResize := false; pendingClose := false;
     ws := mkWinsize 24 80;
     DisplayInfo_Width := 80; DisplayInfo_Height := 48; DisplayInfo_Depth := 4;
     DisplayInfo_ScaleX := 1056964608; DisplayInfo_ScaleY := 1056964608;
     Window_Main_Width := 80; Window_Main_Height := 48;
     Window_Main_Exists := true |}.

(** A bitmap whose pixel at (x, y) is [10 * y + x], with each channel
    reading the pixel value itself. *)
Definition sample_pixel (_ : unit) (x y : Z) : Z := 10 * y + x.
Definition sample_channel (c : Z) : Z := c.

Section Backend.

(** [CCMOUSE_L], [CCKEY_SPACE] of [enum InputButtons] (Input.h is not
    under src/). *)
Variable CCMOUSE_L : Z.
Variable CCKEY_SPACE : Z.

(** [struct Bitmap] with the macros of Bitmap.h (not under src/) that read
    a pixel and its colour channels. *)
Variable Bitmap : Type.
Variable Bitmap_GetPixel : Bitmap -> Z -> Z -> Z.
Variable BitmapCol_R : Z -> Z.
Variable BitmapCol_G : Z -> Z.
Variable BitmapCol_B : Z -> Z.

(** [UpdateDimensions], given what [ioctl(TIOCGWINSZ)] reports. *)
Definition UpdateDimensions (size : winsize) (g : Globals) : Globals :=
  {| pendingResize := pendingResize g;
     pendingClose := pendingClose g;
     ws := size;
     DisplayInfo_Width := ws_col size;
     DisplayInfo_Height := ws_row size * 2;
     DisplayInfo_Depth := 4;
     DisplayInfo_ScaleX := 1056964608;
     DisplayInfo_ScaleY := 1056964608;
     Window_Main_Width := ws_col size;
     Window_Main_Height := ws_row size * 2;
     Window_Main_Exists := Window_Main_Exists g |}.

(** The macro [ExtractXY()]: two more tokens from the saved position.  A
    missing token makes [atoi] read through a null pointer: undefined.  The
    doubling is an [int] multiplication: it keeps the low 32 bits. *)
Definition ExtractXY (save : list Z) : option (Z * Z) :=
  match strtok save (chr ";") with
  | Token tok save =>
      let x := atoi tok in
      match strtok save (chr ";") with
      | Token tok save =>
          let y := int32 (atoi tok * 2) in
          Some (x, y)
      | _ => None
      end
  | _ => None
  end.

(** [ProcessMouse(buf, n)].  [buf] is the whole array the caller read into
    and [cpy] what the local [char cpy[256+2]] holds before it is written
    (neither is initialised by the code).  [None] is undefined behaviour. *)
Definition ProcessMouse (buf : list Z) (n : Z) (cpy : list Z) : option (list Call) :=
  let cpy := strncpy cpy buf (Z.to_nat n) in
  match strtok (drop 3 cpy) (chr ";") with
  | OutOfBounds => None
  | Null => Some []
  | Token tok save =>
      let c := tok !!! 0%nat in
      if c =? chr "0" then
        match strchr buf (chr "m") with
        | None => None
        | Some found =>
            let mouse := if found then 0 else 1 in
            match ExtractXY save with
            | None => None
            | Some (x, y) =>
                Some [Pointer_SetPosition 0 x y;
                      Input_SetNonRepeatable CCMOUSE_L mouse]
            end
        end
      else if c =? chr "3" then
        (* mouse = (strcmp(tok, "32") == 0); is computed and never used *)
        match ExtractXY save with
        | None => None
        | Some (x, y) => Some [Pointer_SetPosition 0 x y]
        end
      else Some []
  end.

(** [ProcessKey] *)
Definition ProcessKey (key : Z) : list Call :=
  let key := if (chr "a" <=? key) && (key <=? chr "z") then key - 32 else key in
  if (chr "A" <=? key) && (key <=? chr "Z") then [Input_SetPressed key]
  else if key =? chr " " then
    [Input_SetPressed CCKEY_SPACE; Input_SetReleased CCKEY_SPACE]
  else [].

(** The part of [Window_ProcessEvents] after [read] returned: [buf] is the
    array after the read and [n] the number of bytes read. *)
Definition ProcessInput (buf : list Z) (n : Z) (cpy : list Z) : option (list Call) :=
  let b0 := buf !!! 0%nat in
  if (n >=? 4) && (b0 =? 27) && (buf !!! 1%nat =? chr "[") && (buf !!! 2%nat =? chr "<")
  then ProcessMouse buf n cpy
  else if (b0 >=? 32) && (b0 <? 127) then Some (ProcessKey b0)
  else Some [].

(** [Window_ProcessEvents].  [size] is what [ioctl] would report; [stdin]
    is [None] when [stdin_available] says no, else the bytes [read] returns
    (at most 256; a failing [read] is not modelled); [buf] and [cpy] are
    what the two local arrays hold on entry. *)
Definition Window_ProcessEvents (g : Globals) (size : winsize)
    (stdin : option (list Z)) (buf cpy : list Z)
  : option (Globals * list Call) :=
  let '(g, cs1) :=
    if pendingResize g then
      (UpdateDimensions size
         {| pendingResize := false; pendingClose := pendingClose g; ws := ws g;
            DisplayInfo_Width := DisplayInfo_Width g;
            DisplayInfo_Height := DisplayInfo_Height g;
            DisplayInfo_Depth := DisplayInfo_Depth g;
            DisplayInfo_ScaleX := DisplayInfo_ScaleX g;
            DisplayInfo_ScaleY := DisplayInfo_ScaleY g;
            Window_Main_Width := Window_Main_Width g;
            Window_Main_Height := Window_Main_Height g;
            Window_Main_Exists := Window_Main_Exists g |},
       [Event_RaiseVoid Resized])
    else (g, []) in
  if pendingClose g then
    Some ({| pendingResize := pendingResize g; pendingClose := false; ws := ws g;
             DisplayInfo_Width := DisplayInfo_Width g;
             DisplayInfo_Height := DisplayInfo_Height g;
             DisplayInfo_Depth := DisplayInfo_Depth g;
             DisplayInfo_ScaleX := DisplayInfo_ScaleX g;
             DisplayInfo_ScaleY := DisplayInfo_ScaleY g;
             Window_Main_Width := Window_Main_Width g;
             Window_Main_Height := Window_Main_Height g;
             Window_Main_Exists := false |},
          cs1 ++ [Event_RaiseVoid Closing])
  else
    match stdin with
    | None => Some (g, cs1)
    | Some bytes =>
        let n := Z.of_nat (length bytes) in
        let buf := bytes ++ drop (length bytes) buf in
        match ProcessInput buf n cpy with
        | Some cs2 => Some (g, cs1 ++ cs2)
        | None => None
        end
    end.

(** *** Half-block renderer *)

(** The body of the loops of [Window_DrawFramebuffer] at pixel [(x, y)]. *)
Definition draw_cell (bmp : Bitmap) (x y : Z) : Cell :=
  let top := Bitmap_GetPixel bmp x (y + 0) in
  let bot := Bitmap_GetPixel bmp x (y + 1) in
  {| background := top; foreground := bot;
     cell_row := Z.quot y 2; cell_column := x |}.

(** [printf("%i", v)] *)
Definition print_int (v : Z) : string := NilZero.string_of_int (Z.to_int v).

(** The glyph U+2584 (lower half block), in UTF-8. *)
Definition lower_half_block : string :=
  String (ascii_of_nat 226) (String (ascii_of_nat 150) (String (ascii_of_nat 132) EmptyString)).

(** The three [printf] calls of one iteration. *)
Definition print_cell (c : Cell) : string :=
  (CSI +:+ "48;2;" +:+ print_int (BitmapCol_R (background c)) +:+ ";"
       +:+ print_int (BitmapCol_G (background c)) +:+ ";"
       +:+ print_int (BitmapCol_B (background c)) +:+ "m") +:+
  (CSI +:+ "38;2;" +:+ print_int (BitmapCol_R (foreground c)) +:+ ";"
       +:+ print_int (BitmapCol_G (foreground c)) +:+ ";"
       +:+ print_int (BitmapCol_B (foreground c)) +:+ "m") +:+
  (CSI +:+ print_int (cell_row c) +:+ ";" +:+ print_int (cell_column c) +:+ "H"
       +:+ lower_half_block).

(** [for (int x = r.x; x < r.x + r.width; x++)] *)
Fixpoint draw_columns (fuel : nat) (bmp : Bitmap) (x x_end y : Z) : list Cell :=
  match fuel with
  | O => []
  | S fuel' =>
      if x <? x_end
      then draw_cell bmp x y :: draw_columns fuel' bmp (x + 1) x_end y
      else []
  end.

(** [for (int y = r.y & ~0x01; y < r.y + r.height; y += 2)] *)
Fixpoint draw_rows (fuel : nat) (bmp : Bitmap) (r : Rect2D) (y y_end : Z) : list Cell :=
  match fuel with
  | O => []
  | S fuel' =>
      if y <? y_end
      then draw_columns (Z.to_nat (width r)) bmp (x r) (x r + width r) y
           ++ draw_rows fuel' bmp r (y + 2) y_end
      else []
  end.

(** [Window_DrawFramebuffer]: the cells drawn, in order.  The fuel given
    to each loop is at least its number of iterations. *)
Definition Window_DrawFramebuffer_cells (r : Rect2D) (bmp : Bitmap) : list Cell :=
  let y0 := Z.land (y r) (Z.lnot 1) in
  draw_rows (Z.to_nat (y r + height r - y0)) bmp r y0 (y r + height r).

(** [Window_DrawFramebuffer]: what is written to stdout. *)
Definition Window_DrawFramebuffer (r : Rect2D) (bmp : Bitmap) : string :=
  String.concat EmptyString (map print_cell (Window_DrawFramebuffer_cells r bmp)).

(** *** Start-up, shutdown and signals *)

(** The state of the process: the globals of the pump and the terminal.
    [Input.Sources] and the table of installed signal handlers are not
    part of it. *)
Record Process : Type := mkProcess {
  globals : Globals;
  tty : Tty
}.


Definition set_pendingClose (b : bool) (g : Globals) : Globals :=
  {| pendingResize := pendingResize g; pendingClose := b; ws := ws g;
     DisplayInfo_Width := DisplayInfo_Width g;
     DisplayInfo_Height := DisplayInfo_Height g;
     DisplayInfo_Depth := DisplayInfo_Depth g;
     DisplayInfo_ScaleX := DisplayInfo_ScaleX g;
     DisplayInfo_ScaleY := DisplayInfo_ScaleY g;
     Window_Main_Width := Window_Main_Width g;
     Window_Main_Height := Window_Main_Height g;
     Window_Main_Exists := Window_Main_Exists g |}.


(** [sigterm_handler] *)
Definition sigterm_handler (p : Process) : Process :=
  {| globals := set_pendingClose true (globals p);
     tty := UnhookTerminal (tty p) |}.

(** [Window_Init]; [size] is what the first [ioctl] reports and [size']
    what the one in [UpdateDimensions] reports. *)
Definition Window_Init (size size' : winsize) (p : Process) : Process :=
  let g := globals p in
  let g :=
    {| pendingResize := pendingResize g; pendingClose := pendingClose g;
       ws := size;
       DisplayInfo_Width := DisplayInfo_Width g;
       DisplayInfo_Height := DisplayInfo_Height g;
       DisplayInfo_Depth := DisplayInfo_Depth g;
       DisplayInfo_ScaleX := DisplayInfo_ScaleX g;
       DisplayInfo_ScaleY := DisplayInfo_ScaleY g;
       Window_Main_Width := Window_Main_Width g;
       Window_Main_Height := Window_Main_Height g;
       Window_Main_Exists := Window_Main_Exists g |} in
  let t := HookTerminal (tty p) in
  {| globals := UpdateDimensions size' g; tty := t |}.

(** [Window_Free] *)
Definition Window_Free (p : Process) : Process :=
  {| globals := globals p; tty := UnhookTerminal (tty p) |}.

(** *** Vocabulary of the statements *)

(** The bytes of an SGR mouse report [ESC [ < button ; xs ; ys final]. *)
Definition sgr_report (button xs ys : list Z) (final : Z) : list Z :=
  [27; chr "["; chr "<"] ++ button ++ [chr ";"] ++ xs ++ [chr ";"] ++ ys ++ [final].

(** The number a string of decimal digits denotes. *)
Definition decimal (ds : list Z) : Z :=
  foldl (fun acc d => acc * 10 + (d - chr "0")) 0 ds.

(** Globals with neither flag pending. *)
Definition idle (g : Globals) : Prop :=
  pendingResize g = false /\ pendingClose g = false.

(** Bytes that can stand inside a token: neither NUL nor the delimiter. *)
Definition token_byte (delim c : Z) : Prop := c <> 0 /\ c <> delim.

(** The cells of one row of cells: one per column of the rectangle. *)
Definition row_cells (bmp : Bitmap) (r : Rect2D) (y : Z) : list Cell :=
  map (fun x => draw_cell bmp x y) (seqZ (x r) (width r)).

(** Number of cell rows drawn for the rectangle. *)
Definition cell_rows (r : Rect2D) : Z :=
  (y r + height r - 2 * (y r / 2) + 1) / 2.

(** The calls the backend can make: the pointer with index 0, the left
    mouse button with state 0 or 1, a press of an uppercase letter, a
    press or a release of the space key, and the two window events. *)
Definition backend_call (c : Call) : Prop :=
  match c with
  | Event_RaiseVoid _ => True
  | Pointer_SetPosition idx _ _ => idx = 0
  | Input_SetNonRepeatable key pressed =>
      key = CCMOUSE_L /\ (pressed = 0 \/ pressed = 1)
  | Input_SetPressed key => key = CCKEY_SPACE \/ chr "A" <= key <= chr "Z"
  | Input_SetReleased key => key = CCKEY_SPACE
  end.

(** *** Terminal entry and exit sequences *)

Lemma append_assoc (s1 s2 s3 : string) :
  (s1 +:+ s2) +:+ s3 = s1 +:+ (s2 +:+ s3).
Proof.
  induction s1 as [|a s1 IH]; [reflexivity|].
  change (String a ((s1 +:+ s2) +:+ s3) = String a (s1 +:+ (s2 +:+ s3))).
  by rewrite IH.
Qed.

(** C7. Entry and exit sequences.  [HookTerminal] writes the six sequences
    required on entry (ESC[?1049h, ESC[0m, ESC[2J, ESC[?1003h,
    ESC[?1015h, ESC[?1006h) and then ESC[?251; [UnhookTerminal] writes
    ESC[?10491, ESC[0m, ESC[2J, ESC[?10031, ESC[?10151, ESC[?10061 and
    ESC[?25h.  Every sequence built with [DEC_PM_RESET] ends in the digit
    1 (byte 49) where a DEC private mode reset ends in the letter l (byte
    108), so neither output is the sequence the specification requires:
    the cursor is not hidden on entry, and on exit the alternate screen and
    the three mouse modes are not switched off. *)
Theorem terminal_sequences (t : Tty) :
  stdout (HookTerminal t) = stdout t +:+ HookTerminal_output /\
  stdout (UnhookTerminal t) = stdout t +:+ UnhookTerminal_output /\
  HookTerminal_output <> spec_entry_sequence /\
  UnhookTerminal_output <> spec_exit_sequence /\
  codes (DEC_PM_RESET "1049") = [27; 91; 63; 49; 48; 52; 57; 49] /\
  codes (DECRST "1049") = [27; 91; 63; 49; 48; 52; 57; 108].
Proof.
  split; [|split; [|split; [|split; [|split]]]].
  - unfold HookTerminal, printf. simpl stdout.
    rewrite !append_assoc. reflexivity.
  - unfold UnhookTerminal, printf. simpl stdout.
    rewrite !append_assoc. reflexivity.
  - vm_compute. discriminate.
  - vm_compute. discriminate.
  - reflexivity.
  - reflexivity.
Qed.

(** *** Key bytes *)

Lemma ProcessInput_printable buf n cpy :
  let b0 := buf !!! 0%nat in
  32 <= b0 < 127 -> ProcessInput buf n cpy = Some (ProcessKey b0).
Proof.
  intros b0 Hb. unfold ProcessInput. fold b0.
  destruct (Z.eqb_spec b0 27) as [|_]; [lia|].
  rewrite andb_false_r. simpl.
  destruct (Z.geb_spec b0 32); [|lia].
  destruct (Z.ltb_spec b0 127); [|lia]. reflexivity.
Qed.

(** C6 (as amended).  When no flag is pending and the first byte read is
    a printable byte (0x20-0x7E): a lowercase letter makes one key press of
    the matching uppercase letter; an uppercase letter makes one key press
    of itself; the space byte makes a press and then a release of the space
    key; every other printable byte (digits, punctuation) makes no call at
    all. *)
Theorem Window_ProcessEvents_printable (g : Globals) (size : winsize)
    (key : Z) (more buf cpy : list Z) :
  idle g -> 32 <= key < 127 ->
  let calls :=
    if (chr "a" <=? key) && (key <=? chr "z") then [Input_SetPressed (key - 32)]
    else if (chr "A" <=? key) && (key <=? chr "Z") then [Input_SetPressed key]
    else if key =? chr " " then
      [Input_SetPressed CCKEY_SPACE; Input_SetReleased CCKEY_SPACE]
    else [] in
  ProcessKey key = calls /\
  Window_ProcessEvents g size (Some (key :: more)) buf cpy = Some (g, calls).
Proof.
  intros [Hr Hc] Hkey calls.
  assert (Hpk : ProcessKey key = calls).
  { unfold ProcessKey, calls. cbv zeta.
    change (chr "a") with 97. change (chr "z") with 122.
    change (chr "A") with 65. change (chr "Z") with 90.
    change (chr " ") with 32.
    destruct (Z.leb_spec 97 key), (Z.leb_spec key 122); simpl;
    repeat match goal with
    | |- context [Z.leb ?a ?b] => destruct (Z.leb_spec a b); simpl
    | |- context [Z.eqb ?a ?b] => destruct (Z.eqb_spec a b); simpl
    end; try reflexivity; lia. }
  split; [exact Hpk|].
  unfold Window_ProcessEvents. rewrite Hr, Hc.
  rewrite (ProcessInput_printable _ _ cpy) by (simpl; exact Hkey).
  simpl. rewrite Hpk. reflexivity.
Qed.

(** *** Mouse reports *)

Lemma isdigit_range c : isdigit c = true -> 48 <= c <= 57.
Proof.
  unfold isdigit. change (chr "0") with 48. change (chr "9") with 57.
  intros H. apply andb_true_iff in H as [H1 H2]. lia.
Qed.

Lemma strncpy_prefix l :
  Forall (fun c => c <> 0) l ->
  forall dst rest, strncpy dst (l ++ rest) (length l) = l ++ drop (length l) dst.
Proof.
  induction 1 as [|c l Hc Hl IH]; intros dst rest; [reflexivity|].
  simpl. destruct (Z.eqb_spec c 0) as [|_]; [done|].
  rewrite IH, drop_drop. reflexivity.
Qed.

Lemma strtok_scan_app delim tok :
  Forall (token_byte delim) tok ->
  forall s,
    strtok_scan (tok ++ s) delim
    = match strtok_scan s delim with
      | Some (t, save) => Some (tok ++ t, save)
      | None => None
      end.
Proof.
  induction 1 as [|c tok [Hc0 Hcd] Htok IH]; intros s; simpl.
  - by destruct (strtok_scan s delim) as [[t save]|].
  - destruct (Z.eqb_spec c 0) as [|_]; [done|].
    destruct (Z.eqb_spec c delim) as [|_]; [done|].
    rewrite IH. by destruct (strtok_scan s delim) as [[t save]|].
Qed.

Lemma strtok_scan_NUL delim s :
  In 0 s -> exists t save, strtok_scan s delim = Some (t, save).
Proof.
  induction s as [|c s IH]; intros Hin; [destruct Hin|].
  simpl. destruct (Z.eqb_spec c 0) as [|Hc]; [by eauto|].
  destruct (Z.eqb_spec c delim) as [|_]; [by eauto|].
  destruct Hin as [|Hin]; [congruence|].
  destruct (IH Hin) as (t & save & ->). eauto.
Qed.

(** A non-empty token followed by the delimiter. *)
Lemma strtok_delimited delim tok rest :
  delim <> 0 -> tok <> [] -> Forall (token_byte delim) tok ->
  strtok (tok ++ delim :: rest) delim = Token tok rest.
Proof.
  intros Hd Hne Htok. destruct tok as [|c tok]; [done|].
  pose proof (Forall_inv Htok) as [Hc0 Hcd].
  unfold strtok. simpl strtok_skip.
  destruct (Z.eqb_spec c delim) as [|_]; [done|].
  destruct (Z.eqb_spec c 0) as [|_]; [done|].
  change (c :: tok ++ delim :: rest) with ((c :: tok) ++ delim :: rest).
  rewrite (strtok_scan_app delim (c :: tok) Htok). simpl.
  destruct (Z.eqb_spec delim 0) as [|_]; [done|].
  rewrite Z.eqb_refl, app_nil_r. reflexivity.
Qed.

(** A non-empty token that runs into the rest of the array, which holds a
    NUL somewhere. *)
Lemma strtok_last delim tok rest :
  tok <> [] -> Forall (token_byte delim) tok -> In 0 rest ->
  exists t save, strtok (tok ++ rest) delim = Token (tok ++ t) save.
Proof.
  intros Hne Htok Hin. destruct tok as [|c tok]; [done|].
  pose proof (Forall_inv Htok) as [Hc0 Hcd].
  unfold strtok. simpl strtok_skip.
  destruct (Z.eqb_spec c delim) as [|_]; [done|].
  destruct (Z.eqb_spec c 0) as [|_]; [done|].
  change (c :: tok ++ rest) with ((c :: tok) ++ rest).
  rewrite (strtok_scan_app delim (c :: tok) Htok).
  destruct (strtok_scan_NUL delim rest Hin) as (t & save & ->). eauto.
Qed.

Lemma atoi_digits_app ds :
  Forall (fun c => isdigit c = true) ds ->
  forall acc rest,
    match rest with [] => True | c :: _ => isdigit c = false end ->
    atoi_digits (ds ++ rest) acc
    = foldl (fun acc d => acc * 10 + (d - chr "0")) acc ds.
Proof.
  induction 1 as [|d ds Hd Hds IH]; intros acc rest Hrest; simpl.
  - destruct rest as [|c rest]; [reflexivity|]. simpl. by rewrite Hrest.
  - rewrite Hd. by apply IH.
Qed.

Lemma int32_small (v : Z) : INT_MIN <= v <= INT_MAX -> int32 v = v.
Proof.
  unfold INT_MIN, INT_MAX, int32. intros Hv.
  rewrite Z.mod_small by lia. lia.
Qed.

Lemma decimal_nonneg ds :
  Forall (fun c => isdigit c = true) ds -> 0 <= decimal ds.
Proof.
  intros H.
  assert (Hgen : forall acc, 0 <= acc ->
            0 <= foldl (fun acc d => acc * 10 + (d - chr "0")) acc ds).
  { induction H as [|d ds Hd Hds IH]; intros acc Hacc; [exact Hacc|].
    simpl. apply IH. apply isdigit_range in Hd. change (chr "0") with 48. lia. }
  apply Hgen. lia.
Qed.

(** [atoi] of a string that starts with digits reads exactly them, as long
    as the number fits an [int]. *)
Lemma atoi_decimal ds rest :
  ds <> [] -> Forall (fun c => isdigit c = true) ds ->
  match rest with [] => True | c :: _ => isdigit c = false end ->
  decimal ds <= INT_MAX ->
  atoi (ds ++ rest) = decimal ds.
Proof.
  intros Hne Hds Hrest Hmax.
  pose proof (decimal_nonneg ds Hds) as Hpos.
  assert (Hv : strtol (ds ++ rest) = decimal ds);
    [|unfold atoi; rewrite Hv; apply int32_small; unfold INT_MIN; lia].
  assert (Hclamp : Z.max LONG_MIN (Z.min LONG_MAX (decimal ds)) = decimal ds).
  { unfold LONG_MIN, LONG_MAX, INT_MAX in *. lia. }
  transitivity (Z.max LONG_MIN (Z.min LONG_MAX (decimal ds))); [|exact Hclamp].
  clear Hclamp Hmax Hpos.
  destruct ds as [|d ds]; [done|].
  pose proof (isdigit_range d (Forall_inv Hds)) as Hd.
  unfold strtol. cbv zeta. f_equal. f_equal. simpl atoi_skip.
  assert (Hsp : isspace d = false).
  { unfold isspace.
    destruct (Z.eqb_spec d 32); [lia|].
    destruct (Z.leb_spec 9 d), (Z.leb_spec d 13); simpl; try reflexivity; lia. }
  rewrite Hsp.
  change (chr "-") with 45. change (chr "+") with 43.
  destruct (Z.eqb_spec d 45); [lia|]. destruct (Z.eqb_spec d 43); [lia|].
  change (d :: ds ++ rest) with ((d :: ds) ++ rest).
  by rewrite atoi_digits_app.
Qed.

Lemma strchr_app l c :
  Forall (fun b => b <> c /\ b <> 0) l ->
  forall s, strchr (l ++ s) c = strchr s c.
Proof.
  induction 1 as [|b l [Hbc Hb0] Hl IH]; intros s; [reflexivity|].
  simpl. destruct (Z.eqb_spec b c) as [|_]; [done|].
  destruct (Z.eqb_spec b 0) as [|_]; [done|]. apply IH.
Qed.

Lemma strchr_found l c :
  Forall (fun b => b <> 0) l ->
  forall s, strchr (l ++ c :: s) c = Some true.
Proof.
  induction 1 as [|b l Hb0 Hl IH]; intros s; simpl.
  - by rewrite Z.eqb_refl.
  - destruct (Z.eqb_spec b c) as [|_]; [done|].
    destruct (Z.eqb_spec b 0) as [|_]; [done|]. apply IH.
Qed.

Lemma digits_token ds :
  Forall (fun c => isdigit c = true) ds -> Forall (token_byte (chr ";")) ds.
Proof.
  intros H. eapply Forall_impl; [exact H|].
  intros c Hc. apply isdigit_range in Hc.
  unfold token_byte. change (chr ";") with 59. lia.
Qed.

(** [ProcessMouse] on a report [ESC [ < 0 ; xs ; ys final] of [n] bytes at
    the start of [buf]: the position is (xs, 2 * ys) and the button state
    is "pressed" exactly when the string in [buf] holds no ['m']. *)
Lemma ProcessMouse_button_0 xs ys final buf_rest cpy found :
  xs <> [] -> ys <> [] ->
  Forall (fun c => isdigit c = true) xs ->
  Forall (fun c => isdigit c = true) ys ->
  decimal xs <= INT_MAX -> decimal ys * 2 <= INT_MAX ->
  final = chr "M" \/ final = chr "m" ->
  let report := sgr_report [chr "0"] xs ys final in
  In 0 (drop (length report) cpy) ->
  strchr (report ++ buf_rest) (chr "m") = Some found ->
  ProcessMouse (report ++ buf_rest) (Z.of_nat (length report)) cpy
  = Some [Pointer_SetPosition 0 (decimal xs) (decimal ys * 2);
          Input_SetNonRepeatable CCMOUSE_L (if found then 0 else 1)].
Proof.
  intros Hxs Hys Dxs Dys Rx Ry Hfinal report Hcpy Hchr.
  pose proof (decimal_nonneg ys Dys) as Py.
  pose proof (digits_token xs Dxs) as Txs.
  pose proof (digits_token ys Dys) as Tys.
  assert (Hfin : final <> 0 /\ final <> 59 /\ isdigit final = false).
  { destruct Hfinal as [-> | ->]; repeat split; done. }
  destruct Hfin as (Hf0 & Hf59 & Hfd).
  assert (Hnz : Forall (fun c => c <> 0) report).
  { unfold report, sgr_report.
    repeat first [apply Forall_app_2 | apply Forall_cons_2 | apply Forall_nil_2];
      try done.
    - eapply Forall_impl; [exact Txs|]. by intros c [? _].
    - eapply Forall_impl; [exact Tys|]. by intros c [? _]. }
  unfold ProcessMouse. cbv zeta.
  rewrite Nat2Z.id, (strncpy_prefix report Hnz).
  set (tail := drop (length report) cpy) in *.
  assert (Hdrop : drop 3 (report ++ tail)
                  = [chr "0"] ++ chr ";" :: (xs ++ chr ";" :: ((ys ++ [final]) ++ tail))).
  { unfold report, sgr_report. simpl.
    repeat (rewrite <- ?app_assoc; simpl). reflexivity. }
  rewrite Hdrop.
  rewrite (strtok_delimited (chr ";") [chr "0"]); [|done|done|].
  2:{ repeat constructor; done. }
  simpl (_ !!! _). rewrite Z.eqb_refl, Hchr.
  unfold ExtractXY.
  rewrite (strtok_delimited (chr ";") xs); [|done|done|done].
  destruct (strtok_last (chr ";") (ys ++ [final]) tail) as (t & save & ->).
  { by destruct ys. }
  { apply Forall_app_2; [done|]. repeat constructor; done. }
  { exact Hcpy. }
  assert (Hx : atoi xs = decimal xs).
  { rewrite <- (app_nil_r xs) at 1. by apply atoi_decimal. }
  assert (Hy : atoi ((ys ++ [final]) ++ t) = decimal ys).
  { rewrite <- app_assoc. apply atoi_decimal; [done|done|done|lia]. }
  rewrite Hx, Hy, int32_small by (unfold INT_MIN; lia). reflexivity.
Qed.

(** C4. SGR mouse reports.  When no flag is pending and the bytes read
    are a report [ESC [ < 0 ; xs ; ys final] with decimal numbers [xs], [ys]
    that fit an [int] after the doubling, and [final] one of M, m, the pump
    sets the pointer to (xs, 2 * ys): X as reported, Y doubled.  For final
    m it reports the left button released.  For final M it reports the
    button pressed only when no byte m stands in the read buffer behind the
    report: the code looks for m in the whole buffer as a C string, which
    it never terminates behind the bytes read, so an m left there by an
    earlier, longer read makes the press come out as a release.  For the
    bytes [ESC [ < 0 ; 10 ; 5 M] the position is (10, 10) either way, and
    the button state is "pressed" in a clean buffer and "released" behind
    a stale m.  (The copy of the report is not terminated either: the
    decoding is defined when a NUL follows somewhere in that array.) *)
Theorem Window_ProcessEvents_sgr_report (g : Globals) (size : winsize)
    (xs ys : list Z) (final : Z) (buf cpy : list Z) (stale : bool) :
  idle g ->
  xs <> [] -> ys <> [] ->
  Forall (fun c => isdigit c = true) xs ->
  Forall (fun c => isdigit c = true) ys ->
  decimal xs <= INT_MAX -> decimal ys * 2 <= INT_MAX ->
  let report := sgr_report [chr "0"] xs ys final in
  let n := length report in
  In 0 (drop n cpy) ->
  (final = chr "M" /\ strchr (drop n buf) (chr "m") = Some stale) \/
  final = chr "m" ->
  Window_ProcessEvents g size (Some report) buf cpy
  = Some (g, [Pointer_SetPosition 0 (decimal xs) (decimal ys * 2);
              Input_SetNonRepeatable CCMOUSE_L
                (if (final =? chr "M") && negb stale then 1 else 0)]).
Proof.
  intros [Hr Hc] Hxs Hys Dxs Dys Rx Ry report n Hcpy Hfinal.
  unfold Window_ProcessEvents. rewrite Hr, Hc. cbv zeta. fold n.
  set (rest := drop n buf) in *.
  assert (Hn : Z.of_nat n >= 4).
  { unfold n, report, sgr_report. simpl. lia. }
  assert (Hin : ProcessInput (report ++ rest) (Z.of_nat n) cpy
                = ProcessMouse (report ++ rest) (Z.of_nat n) cpy).
  { unfold ProcessInput. cbv zeta.
    destruct (Z.geb_spec (Z.of_nat n) 4) as [_|]; [|lia]. reflexivity. }
  rewrite Hin.
  pose proof (digits_token xs Dxs) as Txs.
  pose proof (digits_token ys Dys) as Tys.
  assert (Hfound : strchr (report ++ rest) (chr "m")
                   = Some (negb ((final =? chr "M") && negb stale))).
  { destruct Hfinal as [[-> Hrest] | ->].
    - rewrite strchr_app.
      { rewrite Hrest. by destruct stale. }
      unfold report, sgr_report.
      repeat first [apply Forall_app_2 | apply Forall_cons_2 | apply Forall_nil_2];
        try done.
      + eapply Forall_impl; [exact Dxs|]. intros c Hc0.
        apply isdigit_range in Hc0. change (chr "m") with 109. lia.
      + eapply Forall_impl; [exact Dys|]. intros c Hc0.
        apply isdigit_range in Hc0. change (chr "m") with 109. lia.
    - unfold report, sgr_report.
      replace (([27; chr "["; chr "<"] ++ [chr "0"] ++ [chr ";"] ++ xs
                ++ [chr ";"] ++ ys ++ [chr "m"]) ++ rest)
        with (([27; chr "["; chr "<"; chr "0"; chr ";"] ++ xs ++ [chr ";"] ++ ys)
                ++ chr "m" :: rest)
        by (simpl; repeat (rewrite <- ?app_assoc; simpl); reflexivity).
      apply strchr_found.
      repeat first [apply Forall_app_2 | apply Forall_cons_2 | apply Forall_nil_2];
        try done.
      + eapply Forall_impl; [exact Txs|]. by intros c [? _].
      + eapply Forall_impl; [exact Tys|]. by intros c [? _]. }
  pose proof (ProcessMouse_button_0 xs ys final rest cpy
                (negb ((final =? chr "M") && negb stale)) Hxs Hys Dxs Dys Rx Ry)
    as HPM.
  cbv zeta in HPM. fold report in HPM. fold n in HPM.
  rewrite HPM; [|destruct Hfinal as [[? _] | ?]; auto|exact Hcpy|exact Hfound].
  simpl. by destruct ((final =? chr "M") && negb stale).
Qed.

(** *** Half-block renderer *)

(** [y & ~0x01] is [y] rounded down to an even number. *)
Lemma land_lnot_1 (v : Z) : Z.land v (Z.lnot 1) = 2 * (v / 2).
Proof.
  apply Z.bits_inj'. intros n Hn.
  rewrite Z.land_spec, Z.lnot_spec by done.
  change 1 with (2 ^ 0) at 1. rewrite Z.pow2_bits_eqb by done.
  replace (2 * (v / 2)) with (v / 2 ^ 1 * 2 ^ 1) by (change (2 ^ 1) with 2; lia).
  rewrite Z.mul_pow2_bits by lia.
  destruct (Z.eqb_spec 0 n) as [<-|Hne]; simpl.
  - by rewrite andb_false_r.
  - rewrite andb_true_r, Z.div_pow2_bits by lia.
    f_equal. lia.
Qed.

Lemma draw_columns_spec bmp y :
  forall fuel x n, (Z.to_nat n <= fuel)%nat ->
    draw_columns fuel bmp x (x + n) y
    = map (fun x => draw_cell bmp x y) (seqZ x n).
Proof.
  induction fuel as [|fuel IH]; intros x n Hfuel.
  - simpl. assert (n <= 0) by lia.
    unfold seqZ. replace (Z.to_nat n) with 0%nat by lia. reflexivity.
  - simpl. destruct (Z.ltb_spec x (x + n)) as [Hlt|Hge].
    + rewrite seqZ_cons by lia. simpl. f_equal.
      replace (x + n) with ((x + 1) + Z.pred n) by lia.
      rewrite IH by lia. reflexivity.
    + unfold seqZ. replace (Z.to_nat n) with 0%nat by lia. reflexivity.
Qed.

Lemma draw_rows_spec bmp r :
  forall fuel y k, 0 <= k -> (Z.to_nat k <= fuel)%nat ->
    forall y_end, y + 2 * k - 2 < y_end <= y + 2 * k ->
    draw_rows fuel bmp r y y_end
    = flat_map (fun j => row_cells bmp r (y + 2 * j)) (seqZ 0 k).
Proof.
  induction fuel as [|fuel IH]; intros y k Hk Hfuel y_end Hend.
  - assert (k = 0) as -> by lia. reflexivity.
  - simpl. destruct (Z.ltb_spec y y_end) as [Hlt|Hge].
    + assert (0 < k) by lia.
      rewrite seqZ_cons by lia. simpl.
      rewrite Z.add_0_r.
      rewrite (draw_columns_spec bmp y (Z.to_nat (width r)) (x r) (width r)) by lia.
      f_equal.
      rewrite (IH (y + 2) (Z.pred k)) by lia.
      replace (Z.succ 0) with (1 + 0) by lia.
      rewrite <- (fmap_add_seqZ 1 0 (Z.pred k)).
      generalize (seqZ 0 (Z.pred k)). intros l.
      induction l as [|j l IHl]; [reflexivity|].
      simpl. rewrite IHl. f_equal. f_equal. lia.
    + assert (k = 0) as -> by lia. reflexivity.
Qed.

Lemma Window_DrawFramebuffer_cells_spec r bmp :
  0 <= height r ->
  Window_DrawFramebuffer_cells r bmp
  = flat_map (fun j => row_cells bmp r (2 * (y r / 2) + 2 * j))
      (seqZ 0 (cell_rows r)).
Proof.
  intros Hh. unfold Window_DrawFramebuffer_cells, cell_rows. cbv zeta.
  rewrite land_lnot_1.
  pose proof (Z.mod_pos_bound (y r) 2 ltac:(lia)) as Hm.
  pose proof (Z.div_mod (y r) 2 ltac:(lia)) as Hd.
  set (y0 := 2 * (y r / 2)) in *.
  set (d := y r + height r - y0) in *.
  assert (Hd0 : 0 <= d) by lia.
  pose proof (Z.mod_pos_bound (d + 1) 2 ltac:(lia)) as Hm2.
  pose proof (Z.div_mod (d + 1) 2 ltac:(lia)) as Hd2.
  apply draw_rows_spec; lia.
Qed.

(** C5 (as amended).  The renderer walks the pixel rows two at a time,
    starting from the rectangle's first row rounded down to an even row,
    and draws one cell per column and row pair: background = the pixel of
    the upper row, foreground = the pixel of the row below it, terminal row
    = pixel row / 2, terminal column = pixel column.  Hence a rectangle one
    pixel wide and two pixels high on an even row is exactly one cell
    (background = top pixel, foreground = bottom pixel), while a 2x2
    rectangle is two cells when it starts on an even row and four when it
    starts on an odd row. *)
Theorem Window_DrawFramebuffer_half_blocks (r : Rect2D) (bmp : Bitmap) :
  0 <= height r ->
  let y0 := 2 * (y r / 2) in
  let cell x y :=
    {| background := Bitmap_GetPixel bmp x y;
       foreground := Bitmap_GetPixel bmp x (y + 1);
       cell_row := Z.quot y 2;
       cell_column := x |} in
  Window_DrawFramebuffer_cells r bmp
  = flat_map (fun j => map (fun x => cell x (y0 + 2 * j)) (seqZ (x r) (width r)))
      (seqZ 0 ((y r + height r - y0 + 1) / 2)) /\
  Window_DrawFramebuffer r bmp
  = String.concat EmptyString (map print_cell (Window_DrawFramebuffer_cells r bmp)) /\
  (width r = 1 -> height r = 2 -> Z.even (y r) = true ->
   Window_DrawFramebuffer_cells r bmp = [cell (x r) (y r)]) /\
  (width r = 2 -> height r = 2 ->
   Z.of_nat (length (Window_DrawFramebuffer_cells r bmp))
   = if Z.even (y r) then 2 else 4).
Proof.
  intros Hh y0 cell.
  pose proof (Window_DrawFramebuffer_cells_spec r bmp Hh) as Hspec.
  fold y0 in Hspec. unfold cell_rows in Hspec. fold y0 in Hspec.
  assert (Hcell : forall y', row_cells bmp r y'
                    = map (fun x => cell x y') (seqZ (x r) (width r))).
  { intros y'. unfold row_cells. apply map_ext. intros x'.
    unfold draw_cell, cell. cbv zeta. by rewrite Z.add_0_r. }
  split; [|split; [reflexivity|split]].
  - rewrite Hspec. apply flat_map_ext. intros j. apply Hcell.
  - intros Hw H2 Hev.
    rewrite Hspec. apply Zeven_bool_iff, Zeven_div2 in Hev.
    rewrite Z.div2_div in Hev.
    assert (Hy0 : y0 = y r) by (unfold y0; lia).
    rewrite Hy0, H2.
    replace ((y r + 2 - y r + 1) / 2) with 1 by (apply Z.div_unique with 1; lia).
    change (seqZ 0 1) with [0]. simpl. rewrite app_nil_r, Hcell, Hw.
    replace (seqZ (x r) 1) with [x r] by (rewrite seqZ_cons by lia; reflexivity).
    simpl. by rewrite Z.add_0_r.
  - intros Hw H2.
    rewrite Hspec.
    assert (Hlen : forall l : list Z,
              length (flat_map (fun j => row_cells bmp r (y0 + 2 * j)) l)
              = (2 * length l)%nat).
    { induction l as [|j l IH]; [reflexivity|].
      simpl. rewrite length_app, IH. unfold row_cells.
      rewrite length_map, length_seqZ, Hw. simpl. lia. }
    rewrite Hlen, length_seqZ, H2.
    pose proof (Z.mod_pos_bound (y r) 2 ltac:(lia)) as Hm.
    pose proof (Z.div_mod (y r) 2 ltac:(lia)) as Hd.
    rewrite Zeven_mod.
    destruct (Z.eqb_spec (y r mod 2) 0) as [H0|H1].
    + replace ((y r + 2 - y0 + 1) / 2) with 1
        by (apply Z.div_unique with 1; unfold y0; lia).
      reflexivity.
    + replace ((y r + 2 - y0 + 1) / 2) with 2
        by (apply Z.div_unique with 0; unfold y0; lia).
      reflexivity.
Qed.

(** *** Start-up, shutdown and signals *)

Lemma HookTerminal_stdout t :
  stdout (HookTerminal t) = stdout t +:+ HookTerminal_output.
Proof.
  unfold HookTerminal, printf. simpl stdout. rewrite !append_assoc. reflexivity.
Qed.

Lemma UnhookTerminal_stdout t :
  stdout (UnhookTerminal t) = stdout t +:+ UnhookTerminal_output.
Proof.
  unfold UnhookTerminal, printf. simpl stdout. rewrite !append_assoc. reflexivity.
Qed.

Lemma testbit_ECHO_ICANON i :
  0 <= i -> Z.testbit (Z.lor ECHO ICANON) i = (i =? 1) || (i =? 3).
Proof.
  intros Hi. change (Z.lor ECHO ICANON) with 10.
  destruct (Z.eq_dec i 0) as [->|]; [reflexivity|].
  destruct (Z.eq_dec i 1) as [->|]; [reflexivity|].
  destruct (Z.eq_dec i 2) as [->|]; [reflexivity|].
  destruct (Z.eq_dec i 3) as [->|]; [reflexivity|].
  rewrite Z.bits_above_log2 by (change (Z.log2 10) with 3; lia).
  destruct (Z.eqb_spec i 1); [lia|]. destruct (Z.eqb_spec i 3); [lia|]. reflexivity.
Qed.

(** X14. Terminal modes, set and restored.  [Window_Init] clears exactly
    the two local-mode bits ECHO and ICANON of the terminal and leaves
    every other bit as it was; [Window_Free] puts back the flags found at
    start-up, so start-up followed by shutdown leaves the flags unchanged
    and has written the entry output followed by the exit output.  When a
    termination signal arrives in between, its handler already restores the
    flags and writes the exit output, and shutdown then writes the exit
    output a second time; the flags still end as they began, and the close
    request is left pending for the pump. *)
Theorem terminal_modes_round_trip (p : Process) (size size' : winsize) :
  let p1 := Window_Init size size' p in
  let p2 := Window_Free p1 in
  let p3 := Window_Free (sigterm_handler p1) in
  (forall i, 0 <= i ->
     Z.testbit (c_lflag (tty p1)) i
     = Z.testbit (c_lflag (tty p)) i && negb ((i =? 1) || (i =? 3))) /\
  stdout (tty p1) = stdout (tty p) +:+ HookTerminal_output /\
  c_lflag (tty p2) = c_lflag (tty p) /\
  stdout (tty p2) = stdout (tty p) +:+ HookTerminal_output +:+ UnhookTerminal_output /\
  c_lflag (tty p3) = c_lflag (tty p) /\
  stdout (tty p3)
  = stdout (tty p) +:+ HookTerminal_output +:+ UnhookTerminal_output
      +:+ UnhookTerminal_output /\
  pendingClose (globals p3) = true /\
  globals p2 = globals p1.
Proof.
  intros p1 p2 p3.
  split; [|split; [|split; [|split; [|split; [|split; [|split]]]]]].
  - intros i Hi. unfold p1, Window_Init. cbv zeta. simpl tty.
    unfold HookTerminal, printf. simpl c_lflag.
    rewrite Z.land_spec, Z.lnot_spec by done.
    by rewrite testbit_ECHO_ICANON.
  - unfold p1, Window_Init. cbv zeta. simpl tty. apply HookTerminal_stdout.
  - reflexivity.
  - unfold p2, Window_Free. simpl tty.
    rewrite UnhookTerminal_stdout. unfold p1, Window_Init. cbv zeta. simpl tty.
    by rewrite HookTerminal_stdout, append_assoc.
  - reflexivity.
  - unfold p3, Window_Free, sigterm_handler. simpl tty.
    rewrite !UnhookTerminal_stdout. unfold p1, Window_Init. cbv zeta. simpl tty.
    by rewrite HookTerminal_stdout, !append_assoc.
  - reflexivity.
  - reflexivity.
Qed.

(** X15. Close requests.  When a close is pending, the pump returns
    without looking at the input: whatever waits on stdin and whatever the
    local buffers hold, it marks the window as gone, clears both flags and
    raises Closing (after Resized, with the new dimensions taken, when a
    resize was pending too).  Running the pump again with no input then
    does nothing.  The handler of the termination signals leaves exactly
    such a pending close. *)
Theorem Window_ProcessEvents_close (g : Globals) (size : winsize)
    (stdin : option (list Z)) (buf cpy : list Z) :
  pendingClose g = true ->
  exists g',
    Window_ProcessEvents g size stdin buf cpy
    = Some (g', (if pendingResize g then [Event_RaiseVoid Resized] else [])
                ++ [Event_RaiseVoid Closing]) /\
    Window_Main_Exists g' = false /\
    pendingClose g' = false /\ pendingResize g' = false /\
    (Window_Main_Width g', Window_Main_Height g')
    = (if pendingResize g then (ws_col size, ws_row size * 2)
       else (Window_Main_Width g, Window_Main_Height g)) /\
    Window_ProcessEvents g' size None buf cpy = Some (g', []) /\
    forall p, pendingClose (globals (sigterm_handler p)) = true.
Proof.
  intros Hc. unfold Window_ProcessEvents.
  destruct (pendingResize g) eqn:Hr; simpl; rewrite Hc; simpl;
    (eexists; split; [reflexivity|]); simpl; by rewrite ?Hr.
Qed.


(** *** Mouse reports other than a left-button press or release *)

Lemma strncpy_prefix_le l :
  Forall (fun c => c <> 0) l ->
  forall dst rest n, (length l <= n)%nat ->
    strncpy dst (l ++ rest) n
    = l ++ strncpy (drop (length l) dst) rest (n - length l).
Proof.
  induction 1 as [|c l Hc Hl IH]; intros dst rest n Hn.
  - simpl. by rewrite Nat.sub_0_r, drop_0.
  - destruct n as [|n]; [simpl in Hn; lia|].
    simpl. destruct (Z.eqb_spec c 0) as [|_]; [done|].
    rewrite IH by (simpl in Hn; lia). by rewrite drop_drop.
Qed.

(** The two coordinates of a report, read from the position [strtok] saved
    behind the button field. *)
Lemma ExtractXY_report xs ys final tail :
  xs <> [] -> ys <> [] ->
  Forall (fun c => isdigit c = true) xs ->
  Forall (fun c => isdigit c = true) ys ->
  decimal xs <= INT_MAX -> decimal ys * 2 <= INT_MAX ->
  final = chr "M" \/ final = chr "m" ->
  In 0 tail ->
  ExtractXY (xs ++ chr ";" :: (ys ++ [final]) ++ tail)
  = Some (decimal xs, decimal ys * 2).
Proof.
  intros Hxs Hys Dxs Dys Rx Ry Hfinal Htail.
  pose proof (decimal_nonneg ys Dys) as Py.
  pose proof (digits_token xs Dxs) as Txs.
  pose proof (digits_token ys Dys) as Tys.
  assert (Hfin : final <> 0 /\ final <> 59 /\ isdigit final = false).
  { destruct Hfinal as [-> | ->]; repeat split; done. }
  destruct Hfin as (Hf0 & Hf59 & Hfd).
  unfold ExtractXY.
  rewrite (strtok_delimited (chr ";") xs); [|done|done|done].
  destruct (strtok_last (chr ";") (ys ++ [final]) tail) as (t & save & ->).
  { by destruct ys. }
  { apply Forall_app_2; [done|]. repeat constructor; done. }
  { exact Htail. }
  assert (Hx : atoi xs = decimal xs).
  { rewrite <- (app_nil_r xs) at 1. by apply atoi_decimal. }
  assert (Hy : atoi ((ys ++ [final]) ++ t) = decimal ys).
  { rewrite <- app_assoc. apply atoi_decimal; [done|done|done|lia]. }
  rewrite Hx, Hy, int32_small by (unfold INT_MIN; lia). reflexivity.
Qed.

Lemma ProcessInput_mouse buf n cpy :
  n >= 4 -> buf !!! 0%nat = 27 -> buf !!! 1%nat = chr "[" ->
  buf !!! 2%nat = chr "<" ->
  ProcessInput buf n cpy = ProcessMouse buf n cpy.
Proof.
  intros Hn H0 H1 H2. unfold ProcessInput. cbv zeta.
  rewrite H0, H1, H2.
  destruct (Z.geb_spec n 4) as [_|]; [|lia]. reflexivity.
Qed.

(** X17. Motion reports.  When no flag is pending and the bytes read are
    a report [ESC [ < 3... ; xs ; ys final] whose button field starts with
    the digit 3 (32 to 39: motion with or without a button held) and whose
    numbers fit an [int] after the doubling, the pump sets the pointer to
    (xs, 2 * ys) and makes no other call: no button changes state, whatever
    the rest of the button field and the final byte are, and whatever the
    read buffer holds behind the report. *)
Theorem Window_ProcessEvents_motion_report (g : Globals) (size : winsize)
    (b xs ys : list Z) (final : Z) (buf cpy : list Z) :
  idle g ->
  xs <> [] -> ys <> [] ->
  Forall (fun c => isdigit c = true) xs ->
  Forall (fun c => isdigit c = true) ys ->
  decimal xs <= INT_MAX -> decimal ys * 2 <= INT_MAX ->
  Forall (token_byte (chr ";")) b ->
  final = chr "M" \/ final = chr "m" ->
  let report := sgr_report (chr "3" :: b) xs ys final in
  In 0 (drop (length report) cpy) ->
  Window_ProcessEvents g size (Some report) buf cpy
  = Some (g, [Pointer_SetPosition 0 (decimal xs) (decimal ys * 2)]).
Proof.
  intros [Hr Hc] Hxs Hys Dxs Dys Rx Ry Tb Hfinal report Hcpy.
  unfold Window_ProcessEvents. rewrite Hr, Hc. cbv zeta.
  set (n := length report) in *. set (rest := drop n buf).
  rewrite ProcessInput_mouse; [| |reflexivity|reflexivity|reflexivity].
  2:{ unfold n, report, sgr_report. simpl. lia. }
  pose proof (digits_token xs Dxs) as Txs.
  pose proof (digits_token ys Dys) as Tys.
  assert (Hf0 : final <> 0) by (by destruct Hfinal as [-> | ->]).
  assert (Hnz : Forall (fun c => c <> 0) report).
  { unfold report, sgr_report.
    repeat first [apply Forall_app_2 | apply Forall_cons_2 | apply Forall_nil_2];
      try done.
    - eapply Forall_impl; [exact Tb|]. by intros c [? _].
    - eapply Forall_impl; [exact Txs|]. by intros c [? _].
    - eapply Forall_impl; [exact Tys|]. by intros c [? _]. }
  unfold ProcessMouse. cbv zeta.
  rewrite Nat2Z.id. fold n. unfold n at 1.
  rewrite (strncpy_prefix report Hnz). fold n.
  set (tail := drop n cpy) in *.
  assert (Hdrop : drop 3 (report ++ tail)
                  = (chr "3" :: b)
                    ++ chr ";" :: (xs ++ chr ";" :: ((ys ++ [final]) ++ tail))).
  { unfold report, sgr_report. simpl.
    repeat (rewrite <- ?app_assoc; simpl). reflexivity. }
  rewrite Hdrop.
  rewrite (strtok_delimited (chr ";") (chr "3" :: b)); [|done|done|].
  2:{ apply Forall_cons_2; [done|exact Tb]. }
  simpl (_ !!! _).
  change (chr "3" =? chr "0") with false. change (chr "3" =? chr "3") with true.
  cbn iota.
  rewrite ExtractXY_report by done. reflexivity.
Qed.

(** X18. Other buttons.  When no flag is pending and the bytes read start
    with [ESC [ < button ;] where the button field starts with neither 0
    nor 3 (for instance 1 and 2, the middle and right buttons, or 64 and
    65, the wheel), the pump makes no call at all: neither a button nor the
    pointer position is reported, whatever follows the button field. *)
Theorem Window_ProcessEvents_other_button (g : Globals) (size : winsize)
    (c : Z) (b rest buf cpy : list Z) :
  idle g ->
  token_byte (chr ";") c -> Forall (token_byte (chr ";")) b ->
  c <> chr "0" -> c <> chr "3" ->
  Window_ProcessEvents g size
    (Some ([27; chr "["; chr "<"] ++ (c :: b) ++ [chr ";"] ++ rest)) buf cpy
  = Some (g, []).
Proof.
  intros [Hr Hc] Tc Tb Hc0 Hc3.
  unfold Window_ProcessEvents. rewrite Hr, Hc. cbv zeta.
  set (bytes := [27; chr "["; chr "<"] ++ (c :: b) ++ [chr ";"] ++ rest).
  set (tail := drop (length bytes) buf).
  rewrite ProcessInput_mouse; [| |reflexivity|reflexivity|reflexivity].
  2:{ unfold bytes. simpl. lia. }
  unfold ProcessMouse. cbv zeta. rewrite Nat2Z.id.
  set (l := [27; chr "["; chr "<"] ++ (c :: b) ++ [chr ";"]).
  assert (Hbytes : bytes ++ tail = l ++ (rest ++ tail)).
  { unfold bytes, l. simpl. repeat (rewrite <- ?app_assoc; simpl). reflexivity. }
  assert (Hnz : Forall (fun c => c <> 0) l).
  { unfold l.
    repeat first [apply Forall_app_2 | apply Forall_cons_2 | apply Forall_nil_2];
      try done.
    - by destruct Tc.
    - eapply Forall_impl; [exact Tb|]. by intros c' [? _]. }
  rewrite Hbytes, (strncpy_prefix_le l Hnz).
  2:{ unfold bytes, l. rewrite !length_app. simpl. lia. }
  set (copied := strncpy _ _ _).
  assert (Hdrop : drop 3 (l ++ copied) = (c :: b) ++ chr ";" :: copied).
  { unfold l. simpl. repeat (rewrite <- ?app_assoc; simpl). reflexivity. }
  rewrite Hdrop.
  rewrite (strtok_delimited (chr ";") (c :: b)); [|done|done|].
  2:{ by apply Forall_cons_2. }
  simpl (_ !!! _).
  destruct (Z.eqb_spec c (chr "0")) as [|_]; [done|].
  destruct (Z.eqb_spec c (chr "3")) as [|_]; [done|].
  reflexivity.
Qed.

Lemma strtok_separators k tail :
  strtok (replicate k (chr ";") ++ 0 :: tail) (chr ";") = Null.
Proof.
  unfold strtok.
  assert (H : strtok_skip (replicate k (chr ";") ++ 0 :: tail) (chr ";") = 0 :: tail).
  { induction k as [|k IH]; [reflexivity|]. simpl. exact IH. }
  rewrite H. reflexivity.
Qed.

(** X19. Reports cut off after the X field.  When no flag is pending and
    the bytes read are [ESC [ < 0 ;] or [ESC [ < 3 ;] followed by the
    digits of X and any number of semicolons, and the copy of the report
    is followed by a NUL, no Y field is found: the second [strtok] of
    [ExtractXY] returns a null pointer, which is passed to [atoi].  The
    behaviour of the pump is then undefined. *)
Theorem Window_ProcessEvents_truncated_report (g : Globals) (size : winsize)
    (c : Z) (xs : list Z) (k : nat) (buf cpy tail : list Z) :
  idle g ->
  c = chr "0" \/ c = chr "3" ->
  xs <> [] -> Forall (fun c => isdigit c = true) xs ->
  let bytes := [27; chr "["; chr "<"; c; chr ";"] ++ xs ++ replicate k (chr ";") in
  drop (length bytes) cpy = 0 :: tail ->
  ExtractXY (xs ++ replicate k (chr ";") ++ 0 :: tail) = None /\
  Window_ProcessEvents g size (Some bytes) buf cpy = None.
Proof.
  intros [Hr Hc] Hcase Hxs Dxs bytes Hcpy.
  pose proof (digits_token xs Dxs) as Txs.
  assert (HXY : ExtractXY (xs ++ replicate k (chr ";") ++ 0 :: tail) = None).
  { unfold ExtractXY. destruct k as [|k].
    - simpl replicate. simpl app.
      destruct xs as [|d xs']; [done|].
      pose proof (Forall_inv Txs) as [Hd0 Hd59].
      unfold strtok at 1. simpl strtok_skip.
      destruct (Z.eqb_spec d (chr ";")) as [|_]; [done|].
      destruct (Z.eqb_spec d 0) as [|_]; [done|].
      change (d :: xs' ++ 0 :: tail) with ((d :: xs') ++ 0 :: tail).
      rewrite (strtok_scan_app (chr ";") (d :: xs') Txs). reflexivity.
    - change (replicate (S k) (chr ";") ++ 0 :: tail)
        with (chr ";" :: (replicate k (chr ";") ++ 0 :: tail)).
      rewrite (strtok_delimited (chr ";") xs); [|done|done|done].
      by rewrite strtok_separators. }
  split; [exact HXY|].
  unfold Window_ProcessEvents. rewrite Hr, Hc. cbv zeta.
  set (rest := drop (length bytes) buf).
  rewrite ProcessInput_mouse; [| | |reflexivity|reflexivity].
  2:{ unfold bytes. simpl. lia. }
  2:{ reflexivity. }
  unfold ProcessMouse. cbv zeta. rewrite Nat2Z.id.
  assert (Hnz : Forall (fun c => c <> 0) bytes).
  { unfold bytes.
    repeat first [apply Forall_app_2 | apply Forall_cons_2 | apply Forall_nil_2];
      try done.
    - by destruct Hcase as [-> | ->].
    - eapply Forall_impl; [exact Txs|]. by intros c' [? _].
    - apply Forall_replicate. done. }
  rewrite (strncpy_prefix bytes Hnz), Hcpy.
  assert (Hdrop : drop 3 (bytes ++ 0 :: tail)
                  = [c] ++ chr ";" :: (xs ++ replicate k (chr ";") ++ 0 :: tail)).
  { unfold bytes. simpl. repeat (rewrite <- ?app_assoc; simpl). reflexivity. }
  rewrite Hdrop.
  rewrite (strtok_delimited (chr ";") [c]); [|done|done|].
  2:{ repeat constructor; by destruct Hcase as [-> | ->]. }
  simpl (_ !!! _). rewrite HXY.
  destruct Hcase as [-> | ->].
  - rewrite Z.eqb_refl. by destruct (strchr _ _) as [[|]|].
  - reflexivity.
Qed.

(** *** Bytes the pump ignores, and calls it never makes *)

(** X20. Ignored input.  When no flag is pending and the first byte read
    is not printable (below 0x20 or above 0x7E) and the bytes are not at
    least four starting with [ESC [ <], the pump makes no call: control
    bytes, bytes with the high bit set and the escape sequences of arrow
    and function keys are dropped.  Only the first byte of a read is
    looked at, and the number of bytes read is not checked on this path:
    after a read of zero bytes the pump handles whatever first byte the
    buffer already held. *)
Theorem Window_ProcessEvents_ignored_bytes (g : Globals) (size : winsize)
    (buf cpy : list Z) :
  idle g ->
  (forall b0 more,
     b0 < 32 \/ 127 <= b0 ->
     b0 <> 27 \/ (length more < 3)%nat \/
       more !! 0%nat <> Some (chr "[") \/ more !! 1%nat <> Some (chr "<") ->
     Window_ProcessEvents g size (Some (b0 :: more)) buf cpy = Some (g, [])) /\
  (forall key more more',
     32 <= key < 127 ->
     Window_ProcessEvents g size (Some (key :: more)) buf cpy
     = Window_ProcessEvents g size (Some (key :: more')) buf cpy) /\
  (forall key rest,
     32 <= key < 127 ->
     Window_ProcessEvents g size (Some []) (key :: rest) cpy
     = Some (g, ProcessKey key)).
Proof.
  intros [Hr Hc]. split; [|split].
  - intros b0 more Hb0 Hnot.
    unfold Window_ProcessEvents. rewrite Hr, Hc. cbv zeta.
    unfold ProcessInput. cbv zeta.
    set (tail := drop _ buf).
    change (((b0 :: more) ++ tail) !!! 0%nat) with b0.
    assert (Hmouse : (Z.of_nat (length (b0 :: more)) >=? 4) && (b0 =? 27)
                     && (((b0 :: more) ++ tail) !!! 1%nat =? chr "[")
                     && (((b0 :: more) ++ tail) !!! 2%nat =? chr "<") = false).
    { destruct Hnot as [Hne | [Hlen | [H1 | H2]]].
      - destruct (Z.eqb_spec b0 27) as [|_]; [done|].
        by rewrite andb_false_r.
      - destruct (Z.geb_spec (Z.of_nat (length (b0 :: more))) 4) as [Hge|_];
          [simpl in Hge; lia|reflexivity].
      - destruct more as [|m0 more].
        + reflexivity.
        + change (((b0 :: m0 :: more) ++ tail) !!! 1%nat) with m0.
          destruct (Z.eqb_spec m0 (chr "[")) as [->|_]; [done|].
          by rewrite andb_false_r.
      - destruct more as [|m0 [|m1 more]]; [reflexivity|reflexivity|].
        change (((b0 :: m0 :: m1 :: more) ++ tail) !!! 2%nat) with m1.
        destruct (Z.eqb_spec m1 (chr "<")) as [->|_]; [done|].
        by rewrite andb_false_r. }
    rewrite Hmouse.
    destruct (Z.geb_spec b0 32), (Z.ltb_spec b0 127); simpl; try reflexivity; lia.
  - intros key more more' Hkey.
    unfold Window_ProcessEvents. rewrite Hr, Hc. cbv zeta.
    rewrite !(ProcessInput_printable _ _ cpy) by (simpl; exact Hkey).
    reflexivity.
  - intros key rest Hkey.
    unfold Window_ProcessEvents. rewrite Hr, Hc. cbv zeta.
    rewrite (ProcessInput_printable _ _ cpy) by (simpl; exact Hkey).
    reflexivity.
Qed.

Lemma ProcessKey_backend_call key : Forall backend_call (ProcessKey key).
Proof.
  unfold ProcessKey. cbv zeta.
  set (key' := if (chr "a" <=? key) && (key <=? chr "z") then key - 32 else key).
  destruct ((chr "A" <=? key') && (key' <=? chr "Z")) eqn:E.
  - apply andb_true_iff in E as [E1 E2].
    apply Forall_cons_2; [|apply Forall_nil_2]. simpl. right. lia.
  - destruct (key' =? chr " "); [|apply Forall_nil_2].
    apply Forall_cons_2; [by left|].
    apply Forall_cons_2; [reflexivity|apply Forall_nil_2].
Qed.

Lemma ProcessMouse_backend_call buf n cpy cs :
  ProcessMouse buf n cpy = Some cs -> Forall backend_call cs.
Proof.
  unfold ProcessMouse. cbv zeta.
  destruct (strtok _ _) as [tok save| |]; [| |discriminate].
  - destruct (_ =? chr "0").
    + destruct (strchr _ _) as [found|]; [|discriminate].
      destruct (ExtractXY save) as [[x0 y0]|]; [|discriminate].
      intros [= <-].
      apply Forall_cons_2; [reflexivity|].
      apply Forall_cons_2; [|apply Forall_nil_2].
      split; [reflexivity|]. destruct found; auto.
    + destruct (_ =? chr "3").
      * destruct (ExtractXY save) as [[x0 y0]|]; [|discriminate].
        intros [= <-]. apply Forall_cons_2; [reflexivity|apply Forall_nil_2].
      * intros [= <-]. apply Forall_nil_2.
  - intros [= <-]. apply Forall_nil_2.
Qed.

(** X21. What the backend can report.  Every call a run of the pump
    makes is one of: Resized, Closing, the pointer position with index 0,
    the left mouse button with state 0 or 1, a press of an uppercase letter
    or of the space key, or a release of the space key.  In particular no
    letter key is ever released and no mouse button other than the left one
    is ever reported. *)
Theorem Window_ProcessEvents_calls (g g' : Globals) (size : winsize)
    (stdin : option (list Z)) (buf cpy : list Z) (cs : list Call) :
  Window_ProcessEvents g size stdin buf cpy = Some (g', cs) ->
  Forall backend_call cs /\
  (forall key, In (Input_SetReleased key) cs -> key = CCKEY_SPACE) /\
  (forall key pressed, In (Input_SetNonRepeatable key pressed) cs -> key = CCMOUSE_L).
Proof.
  intros Hrun.
  assert (Hall : Forall backend_call cs).
  { revert Hrun. unfold Window_ProcessEvents.
    set (first := if pendingResize g then _ else _).
    assert (Hfirst : Forall backend_call first.2).
    { unfold first. destruct (pendingResize g); simpl;
        [apply Forall_cons_2; [exact I|]|]; apply Forall_nil_2. }
    destruct first as [g1 cs1]. simpl in Hfirst.
    destruct (pendingClose g1).
    - intros [= _ <-]. apply Forall_app_2; [exact Hfirst|].
      apply Forall_cons_2; [exact I|apply Forall_nil_2].
    - destruct stdin as [bytes|].
      + cbv zeta. destruct (ProcessInput _ _ _) as [cs2|] eqn:Hin; [|discriminate].
        intros [= _ <-]. apply Forall_app_2; [exact Hfirst|].
        revert Hin. unfold ProcessInput. cbv zeta.
        destruct (_ && _ && _ && _).
        * apply ProcessMouse_backend_call.
        * destruct (_ && _).
          -- intros [= <-]. apply ProcessKey_backend_call.
          -- intros [= <-]. apply Forall_nil_2.
      + intros [= _ <-]. exact Hfirst. }
  split; [exact Hall|].
  rewrite Forall_forall in Hall. split.
  - intros key Hin. apply list_elem_of_In in Hin. exact (Hall _ Hin).
  - intros key pressed Hin. apply list_elem_of_In in Hin.
    exact (proj1 (Hall _ Hin)).
Qed.

(** *** Bounds of the renderer *)

(** X22. What the renderer touches.  For a rectangle of non-negative
    height the renderer draws width times the number of cell rows cells.
    Every cell lies in a column of the rectangle; its background is the
    pixel of row 2k and its foreground the pixel of row 2k + 1 of that
    column, where k is the cell's terminal row; and these two rows reach at
    most one row above the rectangle (when it starts on an odd row) and
    one row below it (when it ends on an even row).  A rectangle of zero
    or negative width draws nothing. *)
Theorem Window_DrawFramebuffer_cells_bounds (r : Rect2D) (bmp : Bitmap) :
  0 <= height r ->
  let cells := Window_DrawFramebuffer_cells r bmp in
  length cells = (Z.to_nat (width r) * Z.to_nat (cell_rows r))%nat /\
  Forall (fun c =>
            x r <= cell_column c < x r + width r /\
            y r - 1 <= 2 * cell_row c /\ 2 * cell_row c + 1 <= y r + height r /\
            background c = Bitmap_GetPixel bmp (cell_column c) (2 * cell_row c) /\
            foreground c = Bitmap_GetPixel bmp (cell_column c) (2 * cell_row c + 1))
         cells /\
  (width r <= 0 -> cells = []) /\
  (Z.odd (y r) = true -> 0 < width r ->
   exists c, In c cells /\ 2 * cell_row c = y r - 1).
Proof.
  intros Hh cells.
  pose proof (Window_DrawFramebuffer_cells_spec r bmp Hh) as Hspec. fold cells in Hspec.
  pose proof (Z.mod_pos_bound (y r) 2 ltac:(lia)) as Hm.
  pose proof (Z.div_mod (y r) 2 ltac:(lia)) as Hd.
  assert (Hrows : 0 <= cell_rows r /\
                  2 * cell_rows r <= y r + height r - 2 * (y r / 2) + 1).
  { unfold cell_rows.
    set (d := y r + height r - 2 * (y r / 2) + 1).
    pose proof (Z.mod_pos_bound d 2 ltac:(lia)) as Hm2.
    pose proof (Z.div_mod d 2 ltac:(lia)) as Hd2.
    assert (0 <= d) by (unfold d; lia). split; [|lia].
    apply Z.div_pos; lia. }
  assert (Hlen : forall l : list Z,
            length (flat_map (fun j => row_cells bmp r (2 * (y r / 2) + 2 * j)) l)
            = (Z.to_nat (width r) * length l)%nat).
  { induction l as [|j l IH]; [simpl; lia|].
    simpl. rewrite length_app, IH. unfold row_cells.
    rewrite length_map, length_seqZ. lia. }
  split; [|split; [|split]].
  - rewrite Hspec, Hlen, length_seqZ. reflexivity.
  - rewrite Hspec. apply Forall_forall. intros c Hc.
    apply list_elem_of_In, in_flat_map in Hc as (j & Hj & Hc).
    apply list_elem_of_In, elem_of_seqZ in Hj.
    unfold row_cells in Hc. apply in_map_iff in Hc as (x' & <- & Hx).
    apply list_elem_of_In, elem_of_seqZ in Hx.
    unfold draw_cell. cbv zeta. simpl.
    assert (Hq : Z.quot (2 * (y r / 2) + 2 * j) 2 = y r / 2 + j).
    { replace (2 * (y r / 2) + 2 * j) with ((y r / 2 + j) * 2) by lia.
      apply Z.quot_mul. lia. }
    rewrite Hq, Z.add_0_r.
    replace (2 * (y r / 2 + j)) with (2 * (y r / 2) + 2 * j) by lia.
    repeat split; try reflexivity; lia.
  - intros Hw. rewrite Hspec.
    assert (Hrow : forall y', row_cells bmp r y' = []).
    { intros y'. unfold row_cells, seqZ.
      replace (Z.to_nat (width r)) with 0%nat by lia. reflexivity. }
    generalize (seqZ 0 (cell_rows r)). intros l.
    induction l as [|j l IH]; [reflexivity|]. simpl. by rewrite Hrow, IH.
  - intros Hodd Hw.
    assert (Hy1 : y r mod 2 = 1).
    { apply Z.odd_spec in Hodd as [k Hk]. lia. }
    assert (Hpos : 0 < cell_rows r).
    { unfold cell_rows.
      apply Z.div_str_pos. lia. }
    exists (draw_cell bmp (x r) (2 * (y r / 2) + 2 * 0)). split.
    + rewrite Hspec. apply in_flat_map. exists 0. split.
      * apply list_elem_of_In, elem_of_seqZ. lia.
      * unfold row_cells. apply in_map_iff. exists (x r). split; [reflexivity|].
        apply list_elem_of_In, elem_of_seqZ. lia.
    + unfold draw_cell. cbv zeta. simpl.
      replace (2 * (y r / 2) + 2 * 0) with ((y r / 2) * 2) by lia.
      rewrite Z.quot_mul by lia. lia.
Qed.

End Backend.

(** *** Concrete instances *)

(** C6, counterexample.  The digit 1 is a printable byte, yet reading it
    makes no call at all: no key press is emitted for it.  And of the two
    printable bytes "ab" arriving in one read only the first is acted on. *)
Lemma Window_ProcessEvents_digit_no_press :
  32 <= chr "1" < 127 /\
  Window_ProcessEvents 1 32 idle_globals (mkWinsize 24 80) (Some [chr "1"])
    (replicate 256 0) (replicate 258 0)
  = Some (idle_globals, []) /\
  ~ (exists key, In (Input_SetPressed key) (ProcessKey 32 (chr "1"))) /\
  Window_ProcessEvents 1 32 idle_globals (mkWinsize 24 80)
    (Some [chr "a"; chr "b"]) (replicate 256 0) (replicate 258 0)
  = Some (idle_globals, [Input_SetPressed (chr "A")]).
Proof.
  split; [change (chr "1") with 49; lia|]. split; [reflexivity|].
  split; [|reflexivity].
  intros [key H]. vm_compute in H. exact H.
Qed.

(** C5, counterexample.  A 2x2 rectangle at the origin is drawn as two
    cells, one per column, not one. *)
Lemma Window_DrawFramebuffer_2x2_two_cells :
  Window_DrawFramebuffer_cells unit sample_pixel (mkRect2D 0 0 2 2) tt
  = [ {| background := 0; foreground := 10; cell_row := 0; cell_column := 0 |};
      {| background := 1; foreground := 11; cell_row := 0; cell_column := 1 |} ] /\
  length (Window_DrawFramebuffer_cells unit sample_pixel (mkRect2D 0 0 2 2) tt)
  <> 1%nat.
Proof. split; [reflexivity|]. vm_compute. discriminate. Qed.

Lemma Window_DrawFramebuffer_half_blocks_witness :
  Window_DrawFramebuffer_cells unit sample_pixel (mkRect2D 3 4 1 2) tt
  = [ {| background := 43; foreground := 53; cell_row := 2; cell_column := 3 |} ].
Proof.
  refine (proj1 (proj2 (proj2
            (Window_DrawFramebuffer_half_blocks unit sample_pixel
               sample_channel sample_channel sample_channel
               (mkRect2D 3 4 1 2) tt _))) eq_refl eq_refl eq_refl).
  simpl. lia.
Defined.

(** The bytes [ESC [ < 0 ; 10 ; 5 M], read into the buffer as an earlier
    read of the release report [ESC [ < 0 ; 100 ; 50 m] left it: the bytes
    [0 m] of that report still stand behind the ten bytes read, and the
    press is reported as a release at (10, 10). *)
Lemma Window_ProcessEvents_sgr_report_witness :
  Window_ProcessEvents 1 32 idle_globals (mkWinsize 24 80)
    (Some [27; chr "["; chr "<"; chr "0"; chr ";"; chr "1"; chr "0"; chr ";";
           chr "5"; chr "M"])
    ([27; chr "["; chr "<"; chr "0"; chr ";"; chr "1"; chr "0"; chr "0"; chr ";";
      chr "5"; chr "0"; chr "m"] ++ replicate 244 0)
    (replicate 258 0)
  = Some (idle_globals,
          [Pointer_SetPosition 0 10 10; Input_SetNonRepeatable 1 0]).
Proof.
  refine (Window_ProcessEvents_sgr_report 1 32 idle_globals (mkWinsize 24 80)
            [chr "1"; chr "0"] [chr "5"] (chr "M")
            ([27; chr "["; chr "<"; chr "0"; chr ";"; chr "1"; chr "0"; chr "0";
              chr ";"; chr "5"; chr "0"; chr "m"] ++ replicate 244 0)
            (replicate 258 0) true _ _ _ _ _ _ _ _ _).
  - split; reflexivity.
  - discriminate.
  - discriminate.
  - repeat constructor.
  - repeat constructor.
  - by vm_compute.
  - by vm_compute.
  - left. reflexivity.
  - left. split; reflexivity.
Defined.

(** The same bytes read into zeroed arrays: a left-button press at
    (10, 10). *)
Remark Window_ProcessEvents_sgr_report_clean :
  Window_ProcessEvents 1 32 idle_globals (mkWinsize 24 80)
    (Some [27; chr "["; chr "<"; chr "0"; chr ";"; chr "1"; chr "0"; chr ";";
           chr "5"; chr "M"])
    (replicate 256 0) (replicate 258 0)
  = Some (idle_globals,
          [Pointer_SetPosition 0 10 10; Input_SetNonRepeatable 1 1]).
Proof. reflexivity. Qed.

(** Numbers that do not fit an [int]: of the X field 99999999999 the low
    32 bits are kept, and doubling the Y field 1073741824 overflows. *)
Remark Window_ProcessEvents_sgr_report_wide :
  Window_ProcessEvents 1 32 idle_globals (mkWinsize 24 80)
    (Some (sgr_report [chr "0"] (codes "99999999999") (codes "1073741824")
             (chr "M")))
    (replicate 256 0) (replicate 258 0)
  = Some (idle_globals,
          [Pointer_SetPosition 0 1215752191 (-2147483648);
           Input_SetNonRepeatable 1 1]).
Proof. by vm_compute. Qed.

Lemma Window_ProcessEvents_printable_witness :
  Window_ProcessEvents 1 32 idle_globals (mkWinsize 24 80) (Some [chr "w"])
    (replicate 256 0) (replicate 258 0)
  = Some (idle_globals, [Input_SetPressed (chr "W")]).
Proof.
  refine (proj2 (Window_ProcessEvents_printable 1 32 idle_globals (mkWinsize 24 80)
                   (chr "w") [] (replicate 256 0) (replicate 258 0) _ _)).
  - split; reflexivity.
  - change (chr "w") with 119. lia.
Defined.

(** A termination signal, then the pump with a key waiting on stdin: the
    window closes and the key is left unread. *)
Lemma Window_ProcessEvents_close_witness :
  exists g',
    Window_ProcessEvents 1 32
      (globals (sigterm_handler (mkProcess idle_globals (mkTty 10 10 EmptyString))))
      (mkWinsize 24 80) (Some [chr "w"]) (replicate 256 0) (replicate 258 0)
    = Some (g', [Event_RaiseVoid Closing]) /\
    Window_Main_Exists g' = false.
Proof.
  destruct (Window_ProcessEvents_close 1 32
              (globals (sigterm_handler
                          (mkProcess idle_globals (mkTty 10 10 EmptyString))))
              (mkWinsize 24 80) (Some [chr "w"]) (replicate 256 0)
              (replicate 258 0) eq_refl)
    as (g' & Hrun & Hgone & _).
  exists g'. split; [exact Hrun|exact Hgone].
Defined.


(** The bytes [ESC [ < 35 ; 10 ; 5 M] (motion, no button held), read into
    a buffer full of m's. *)
Lemma Window_ProcessEvents_motion_report_witness :
  Window_ProcessEvents 1 32 idle_globals (mkWinsize 24 80)
    (Some [27; chr "["; chr "<"; chr "3"; chr "5"; chr ";"; chr "1"; chr "0";
           chr ";"; chr "5"; chr "M"])
    (replicate 256 (chr "m")) (replicate 258 0)
  = Some (idle_globals, [Pointer_SetPosition 0 10 10]).
Proof.
  refine (Window_ProcessEvents_motion_report 1 32 idle_globals (mkWinsize 24 80)
            [chr "5"] [chr "1"; chr "0"] [chr "5"] (chr "M")
            (replicate 256 (chr "m")) (replicate 258 0) _ _ _ _ _ _ _ _ _ _).
  - split; reflexivity.
  - discriminate.
  - discriminate.
  - repeat constructor.
  - repeat constructor.
  - by vm_compute.
  - by vm_compute.
  - apply Forall_cons_2; [split; discriminate|apply Forall_nil_2].
  - left. reflexivity.
  - left. reflexivity.
Defined.

(** The bytes [ESC [ < 2 ; 10 ; 5 M]: a press of the right button. *)
Lemma Window_ProcessEvents_other_button_witness :
  Window_ProcessEvents 1 32 idle_globals (mkWinsize 24 80)
    (Some [27; chr "["; chr "<"; chr "2"; chr ";"; chr "1"; chr "0"; chr ";";
           chr "5"; chr "M"])
    (replicate 256 0) (replicate 258 0)
  = Some (idle_globals, []).
Proof.
  refine (Window_ProcessEvents_other_button 1 32 idle_globals (mkWinsize 24 80)
            (chr "2") [] [chr "1"; chr "0"; chr ";"; chr "5"; chr "M"]
            (replicate 256 0) (replicate 258 0) _ _ _ _ _).
  - split; reflexivity.
  - split; discriminate.
  - apply Forall_nil_2.
  - discriminate.
  - discriminate.
Defined.

(** The bytes [ESC [ < 0 ; 10], read into zeroed arrays. *)
Lemma Window_ProcessEvents_truncated_report_witness :
  Window_ProcessEvents 1 32 idle_globals (mkWinsize 24 80)
    (Some [27; chr "["; chr "<"; chr "0"; chr ";"; chr "1"; chr "0"])
    (replicate 256 0) (replicate 258 0)
  = None.
Proof.
  refine (proj2 (Window_ProcessEvents_truncated_report 1 32 idle_globals
                   (mkWinsize 24 80) (chr "0") [chr "1"; chr "0"] 0%nat
                   (replicate 256 0) (replicate 258 0) (replicate 250 0)
                   _ _ _ _ _)).
  - split; reflexivity.
  - left. reflexivity.
  - discriminate.
  - repeat constructor.
  - reflexivity.
Defined.

(** The bytes [ESC [ A] of the up-arrow key. *)
Lemma Window_ProcessEvents_ignored_bytes_witness :
  Window_ProcessEvents 1 32 idle_globals (mkWinsize 24 80)
    (Some [27; chr "["; chr "A"]) (replicate 256 0) (replicate 258 0)
  = Some (idle_globals, []).
Proof.
  refine (proj1 (Window_ProcessEvents_ignored_bytes 1 32 idle_globals
                   (mkWinsize 24 80) (replicate 256 0) (replicate 258 0) _)
            27 [chr "["; chr "A"] _ _).
  - split; reflexivity.
  - left. lia.
  - right. left. simpl. lia.
Defined.

Lemma Window_ProcessEvents_calls_witness :
  Forall (backend_call 1 32) [Input_SetPressed 32; Input_SetReleased 32].
Proof.
  exact (proj1 (Window_ProcessEvents_calls 1 32 idle_globals idle_globals
                  (mkWinsize 24 80) (Some [chr " "]) (replicate 256 0)
                  (replicate 258 0) [Input_SetPressed 32; Input_SetReleased 32]
                  eq_refl)).
Defined.

(** A rectangle two pixels wide and one pixel high on the odd row 5: one
    row of two cells, reading the pixel rows 4 and 5. *)
Lemma Window_DrawFramebuffer_cells_bounds_witness :
  length (Window_DrawFramebuffer_cells unit sample_pixel (mkRect2D 3 5 2 1) tt)
  = 2%nat.
Proof.
  refine (proj1 (Window_DrawFramebuffer_cells_bounds unit sample_pixel
                   (mkRect2D 3 5 2 1) tt _)).
  simpl. lia.
Defined.

End Terminal.
